(** * parastell.magnet_coils: the MagnetSet filament pipeline

    A shallow embedding of [MagnetSet] from [src/parastell/magnet_coils.py]:
    [__init__] with the validating property setters,
    [_extract_cross_section], [_extract_filaments],
    [_set_average_radial_distance], [_set_filtered_filaments], and
    [build_magnet_coils] up to its calls into the geometry kernel.

    Numbers.  Python and NumPy floats are idealised as real numbers [R]:
    arithmetic is exact, [np.pi] is [PI], [np.arctan2] is the two-argument
    arctangent with values in (-PI, PI], [x ** 0.5] is [sqrt x].  The one
    place where IEEE arithmetic is visible to the control flow, a division
    by a zero z-coordinate, is written out (see [z_ratio_negative]).

    Effects.  A method of the class is a function from the object's state
    to the state it leaves behind together with either a value or the
    exception raised: an exception does not undo the attribute assignments
    made before it. *)

From Stdlib Require Import Reals Lra Lia String Ascii ZArith Bool List.
From Stdlib Require Import Sorted Permutation.
Import ListNotations.
Open Scope R_scope.

(** ** Python values, exceptions and results *)

Module Py.

Inductive exn : Type :=
| ValueError
| IndexError
| TypeError
| ZeroDivisionError
| AttributeError.

Inductive result (A : Type) : Type :=
| Ok (a : A)
| Raise (e : exn).

Arguments Ok {A} a.
Arguments Raise {A} e.

Definition rbind {A B : Type} (r : result A) (k : A -> result B) : result B :=
  match r with
  | Ok a => k a
  | Raise e => Raise e
  end.

(** An entry of a cross-section list: a string or a number. *)
Inductive value : Type :=
| VStr (s : string)
| VNum (r : R).

Definition Rltb (a b : R) : bool := if Rlt_dec a b then true else false.
Definition Rleb (a b : R) : bool := if Rle_dec a b then true else false.
Definition Reqb (a b : R) : bool := if Req_dec_T a b then true else false.

(** [a == b] on values: a string never equals a number. *)
Definition value_eqb (a b : value) : bool :=
  match a, b with
  | VStr s, VStr t => String.eqb s t
  | VNum x, VNum y => Reqb x y
  | _, _ => false
  end.

(** [max(a, b)]: [b] when [b > a], else [a]; ordering a string against a
    number is a TypeError. *)
Definition py_max (a b : value) : result value :=
  match a, b with
  | VNum x, VNum y => Ok (if Rltb x y then b else a)
  | VStr s, VStr t => Ok (if String.ltb s t then b else a)
  | _, _ => Raise TypeError
  end.

(** An f-string before rendering: literal text and formatted values. *)
Inductive piece : Type :=
| Lit (s : string)
| Fmt (v : value).

(** [l[start:]] for a Python int [start]. *)
Definition slice_from {A : Type} (start : Z) (l : list A) : list A :=
  if (start <? 0)%Z
  then skipn (Z.to_nat (Z.of_nat (length l) + start)) l
  else skipn (Z.to_nat start) l.

End Py.
Import Py.

(** ** NumPy functions on idealised floats *)

Module Np.

Definition pi : R := PI.

(** [np.deg2rad]. *)
Definition deg2rad (angle : R) : R := angle * (pi / 180).

(** [np.arctan2 y x], values in (-pi, pi]. *)
Definition arctan2 (y x : R) : R :=
  if Rltb 0 x then atan (y / x)
  else if Rltb x 0 then
    (if Rleb 0 y then atan (y / x) + pi else atan (y / x) - pi)
  else if Rltb 0 y then pi / 2
  else if Rltb y 0 then - (pi / 2)
  else 0.

(** [x % m] on floats: the remainder with the sign of the divisor. *)
Definition mod_ (x m : R) : R := x - IZR (Int_part (x / m)) * m.

Definition sum (l : list R) : R := fold_right Rplus 0 l.

(** [np.average] of a flat sequence. *)
Definition average (l : list R) : R := sum l / INR (length l).

(** [np.min] and [np.max]: a ValueError on an empty array. *)
Definition min (l : list R) : result R :=
  match l with
  | [] => Raise ValueError
  | a :: t => Ok (fold_left Rmin t a)
  end.

Definition max (l : list R) : result R :=
  match l with
  | [] => Raise ValueError
  | a :: t => Ok (fold_left Rmax t a)
  end.

End Np.

(** ** The MagnetSet object *)

Definition point : Type := (R * R * R)%type.

Definition px (p : point) : R := fst (fst p).
Definition py (p : point) : R := snd (fst p).
Definition pz (p : point) : R := snd p.

Definition filament : Type := list point.

Inductive level : Type := ERROR | WARNING | INFO.

(** The texts handed to the logger, by the place that emits them. *)
Inductive message : Type :=
| CircleFormat
| CircleExtraDimension
| RectangleFormat
| UnknownShape
| ToroidalExtentExceeds360
| ConstructingMagnetCoils.

(** The attributes of a MagnetSet.  An attribute that has not been
    assigned yet is [None]; [_logger] is the list of records emitted so
    far, oldest first. *)
Record MagnetSet : Type := mkMagnetSet {
  _logger : list (level * message);
  coils_file : string;
  _cross_section : option (list value);
  _toroidal_extent : option R;
  shape : option value;
  shape_str : option (list piece);
  mag_len : option value;
  start_line : Z;
  sample_mod : Z;
  scale : R;
  mat_tag : string;
  filaments : option (list filament);
  average_radial_distance : option R;
  filtered_filaments : option (list filament)
}.

Definition m2cm : R := 100.

Definition emit (l : level) (m : message) (self : MagnetSet) : MagnetSet :=
  mkMagnetSet (_logger self ++ [(l, m)]) (coils_file self)
    (_cross_section self) (_toroidal_extent self) (shape self)
    (shape_str self) (mag_len self) (start_line self) (sample_mod self)
    (scale self) (mat_tag self) (filaments self)
    (average_radial_distance self) (filtered_filaments self).

Definition set__cross_section (v : list value) (self : MagnetSet) : MagnetSet :=
  mkMagnetSet (_logger self) (coils_file self)
    (Some v) (_toroidal_extent self) (shape self)
    (shape_str self) (mag_len self) (start_line self) (sample_mod self)
    (scale self) (mat_tag self) (filaments self)
    (average_radial_distance self) (filtered_filaments self).

Definition set__toroidal_extent (v : R) (self : MagnetSet) : MagnetSet :=
  mkMagnetSet (_logger self) (coils_file self)
    (_cross_section self) (Some v) (shape self)
    (shape_str self) (mag_len self) (start_line self) (sample_mod self)
    (scale self) (mat_tag self) (filaments self)
    (average_radial_distance self) (filtered_filaments self).

(** The three assignments that end [_extract_cross_section]. *)
Definition set_shape_fields (s : value) (str : list piece) (len : value)
    (self : MagnetSet) : MagnetSet :=
  mkMagnetSet (_logger self) (coils_file self)
    (_cross_section self) (_toroidal_extent self) (Some s)
    (Some str) (Some len) (start_line self) (sample_mod self)
    (scale self) (mat_tag self) (filaments self)
    (average_radial_distance self) (filtered_filaments self).

Definition set_filaments (v : list filament) (self : MagnetSet) : MagnetSet :=
  mkMagnetSet (_logger self) (coils_file self)
    (_cross_section self) (_toroidal_extent self) (shape self)
    (shape_str self) (mag_len self) (start_line self) (sample_mod self)
    (scale self) (mat_tag self) (Some v)
    (average_radial_distance self) (filtered_filaments self).

Definition set_average_radial_distance (v : R) (self : MagnetSet) : MagnetSet :=
  mkMagnetSet (_logger self) (coils_file self)
    (_cross_section self) (_toroidal_extent self) (shape self)
    (shape_str self) (mag_len self) (start_line self) (sample_mod self)
    (scale self) (mat_tag self) (filaments self)
    (Some v) (filtered_filaments self).

Definition set_filtered_filaments (v : list filament) (self : MagnetSet) : MagnetSet :=
  mkMagnetSet (_logger self) (coils_file self)
    (_cross_section self) (_toroidal_extent self) (shape self)
    (shape_str self) (mag_len self) (start_line self) (sample_mod self)
    (scale self) (mat_tag self) (filaments self)
    (average_radial_distance self) (Some v).

(** A method: the state it leaves and what it returned or raised. *)
Definition M (A : Type) : Type := MagnetSet -> MagnetSet * result A.

Definition ret {A : Type} (a : A) : M A := fun self => (self, Ok a).

Definition raise {A : Type} (e : exn) : M A := fun self => (self, Raise e).

Definition bind {A B : Type} (m : M A) (k : A -> M B) : M B :=
  fun self =>
    match m self with
    | (self', Ok a) => k a self'
    | (self', Raise e) => (self', Raise e)
    end.

Definition modify (f : MagnetSet -> MagnetSet) : M unit :=
  fun self => (f self, Ok tt).

(** Reading an attribute: an AttributeError while it is unassigned. *)
Definition attr {A : Type} (field : MagnetSet -> option A) : M A :=
  fun self =>
    match field self with
    | Some a => (self, Ok a)
    | None => (self, Raise AttributeError)
    end.

(** [l[i]] for a list: an IndexError out of range. *)
Definition item {A : Type} (l : list A) (i : nat) : M A :=
  fun self =>
    match nth_error l i with
    | Some a => (self, Ok a)
    | None => (self, Raise IndexError)
    end.

Definition lift {A : Type} (r : result A) : M A := fun self => (self, r).

Declare Scope method_scope.
Delimit Scope method_scope with method.
Notation "x <- m ;; k" := (bind m (fun x => k))
  (at level 61, m at next level, right associativity) : method_scope.
Notation "m ;; k" := (bind m (fun _ => k))
  (at level 61, right associativity) : method_scope.
Open Scope method_scope.

(** [self._logger.error(e.args[0]); raise e] for a ValueError [e]. *)
Definition log_and_raise {A : Type} (m : message) : M A :=
  modify (emit ERROR m) ;; raise ValueError.

(** [MagnetSet._extract_cross_section]. *)
Definition _extract_cross_section : M unit :=
  cs <- attr _cross_section ;;
  shape <- item cs 0 ;;
  if value_eqb shape (VStr "circle") then
    (if (length cs =? 1)%nat then log_and_raise CircleFormat
     else if (2 <? length cs)%nat
          then modify (emit WARNING CircleExtraDimension)
          else ret tt) ;;
    mag_len <- item cs 1 ;;
    modify (set_shape_fields shape [Fmt shape; Lit " radius "; Fmt mag_len]
              mag_len)
  else if value_eqb shape (VStr "rectangle") then
    (if negb (length cs =? 3)%nat then log_and_raise RectangleFormat
     else ret tt) ;;
    width <- item cs 1 ;;
    thickness <- item cs 2 ;;
    mag_len <- lift (py_max width thickness) ;;
    modify (set_shape_fields shape
              [Fmt shape; Lit " width "; Fmt thickness; Lit " height ";
               Fmt width]
              mag_len)
  else log_and_raise UnknownShape.

(** The [cross_section] setter. *)
Definition cross_section_setter (shape : list value) : M unit :=
  modify (set__cross_section shape) ;;
  _extract_cross_section.

(** The [toroidal_extent] setter: the stored radians are compared with
    the literal 360.0. *)
Definition toroidal_extent_setter (angle : R) : M unit :=
  modify (set__toroidal_extent (Np.deg2rad angle)) ;;
  ext <- attr _toroidal_extent ;;
  if Rltb 360 ext then log_and_raise ToroidalExtentExceeds360
  else ret tt.

(** The optional keyword arguments [__init__] looks at. *)
Record kwargs : Type := mkKwargs {
  kw_start_line : option Z;
  kw_sample_mod : option Z;
  kw_scale : option R;
  kw_mat_tag : option string
}.

Definition no_kwargs : kwargs := mkKwargs None None None None.

Definition or_default {A : Type} (o : option A) (d : A) : A :=
  match o with
  | Some a => a
  | None => d
  end.

(** The object as [__init__] finds it: nothing assigned. *)
Definition blank : MagnetSet :=
  mkMagnetSet [] EmptyString None None None None None 0%Z 0%Z 0
    EmptyString None None None.

Definition set_coils_file (file : string) (self : MagnetSet) : MagnetSet :=
  mkMagnetSet (_logger self) file
    (_cross_section self) (_toroidal_extent self) (shape self)
    (shape_str self) (mag_len self) (start_line self) (sample_mod self)
    (scale self) (mat_tag self) (filaments self)
    (average_radial_distance self) (filtered_filaments self).

(** The four optional attributes: their defaults, then the keyword
    arguments given. *)
Definition set_defaults (kw : kwargs) (self : MagnetSet) : MagnetSet :=
  mkMagnetSet (_logger self) (coils_file self)
    (_cross_section self) (_toroidal_extent self) (shape self)
    (shape_str self) (mag_len self)
    (or_default (kw_start_line kw) 3%Z)
    (or_default (kw_sample_mod kw) 1%Z)
    (or_default (kw_scale kw) m2cm)
    (or_default (kw_mat_tag kw) "magnets"%string)
    (filaments self) (average_radial_distance self)
    (filtered_filaments self).

(** [MagnetSet.__init__]: the file name is stored, the two validating
    setters run, then the defaults and the keyword overrides are stored. *)
Definition __init__ (file : string) (cross_section : list value)
    (toroidal_extent : R) (kw : kwargs) : MagnetSet * result unit :=
  (modify (set_coils_file file) ;;
   cross_section_setter cross_section ;;
   toroidal_extent_setter toroidal_extent ;;
   modify (set_defaults kw)) blank.

(** ** Reading the coil file *)

Notation "'let?' x ':=' r 'in' k" := (rbind r (fun x => k))
  (at level 10, x pattern, r at level 100, k at level 200).

(** [l[i]] outside a method. *)
Definition index {A : Type} (l : list A) (i : nat) : result A :=
  match nth_error l i with
  | Some a => Ok a
  | None => Raise IndexError
  end.

(** The ASCII characters [str.split()] treats as separators. *)
Definition is_space (c : ascii) : bool :=
  let n := nat_of_ascii c in
  ((9 <=? n) && (n <=? 13) || (28 <=? n) && (n <=? 32))%nat.

Definition is_empty (s : string) : bool :=
  match s with
  | EmptyString => true
  | String _ _ => false
  end.

(** [cur] is the token being read, [s] the rest of the line. *)
Fixpoint split_from (s cur : string) : list string :=
  match s with
  | EmptyString => if is_empty cur then [] else [cur]
  | String c rest =>
      if is_space c
      then (if is_empty cur then split_from rest EmptyString
            else cur :: split_from rest EmptyString)
      else split_from rest (cur ++ String c EmptyString)
  end.

(** [line.strip().split()]: the maximal runs of non-space characters;
    stripping first changes nothing of them. *)
Definition split (line : string) : list string := split_from line EmptyString.

Definition digit (c : ascii) : option Z :=
  let n := nat_of_ascii c in
  if ((48 <=? n) && (n <=? 57))%nat then Some (Z.of_nat n - 48)%Z else None.

(** Reads the leading digits of [s]: the number read so far, how many
    digits it took, and the rest. *)
Fixpoint digits (s : string) (acc : Z) (count : Z) : Z * Z * string :=
  match s with
  | EmptyString => (acc, count, s)
  | String c rest =>
      match digit c with
      | Some d => digits rest (10 * acc + d)%Z (count + 1)%Z
      | None => (acc, count, s)
      end
  end.

(** An optional sign: its factor and the rest. *)
Definition sign (s : string) : Z * string :=
  match s with
  | String "-" rest => ((-1)%Z, rest)
  | String "+" rest => (1%Z, rest)
  | _ => (1%Z, s)
  end.

(** The optional exponent part, which must end the token. *)
Definition exponent (s : string) : option Z :=
  match s with
  | EmptyString => Some 0%Z
  | String c rest =>
      if (Ascii.eqb c "e" || Ascii.eqb c "E")%bool then
        let '(sg, rest1) := sign rest in
        match digits rest1 0%Z 0%Z with
        | (e, n, EmptyString) => if (0 <? n)%Z then Some (sg * e)%Z else None
        | _ => None
        end
      else None
  end.

(** A decimal literal [[+-]digits[.digits][e[+-]digits]] as a mantissa and
    a power of ten. *)
Definition parse_decimal (s : string) : option (Z * Z) :=
  let '(sg, s1) := sign s in
  let '(i, ni, s2) := digits s1 0%Z 0%Z in
  let '(m, nf, s3) :=
    match s2 with
    | String "." rest => let '(m, nf, s3) := digits rest i 0%Z in (m, nf, s3)
    | _ => (i, 0%Z, s2)
    end in
  if (0 <? ni + nf)%Z then
    match exponent s3 with
    | Some e => Some ((sg * m)%Z, (e - nf)%Z)
    | None => None
    end
  else None.

(** [float(token)] on decimal literals, a ValueError on any other text.
    The spellings of infinities and NaN and digit-group underscores, which
    Python also accepts, have no real value and are not covered. *)
Definition float (token : string) : result R :=
  match parse_decimal token with
  | Some (m, e) => Ok (IZR m * powerRZ 10 e)
  | None => Raise ValueError
  end.

(** The loop of [_extract_filaments] over the lines left in [data]. *)
Fixpoint read_filaments (scale : R) (sample_mod : Z) (data : list string)
    (coords : filament) (filaments : list filament) (sample_counter : Z)
    : result (list filament) :=
  match data with
  | [] => Ok filaments
  | line :: data' =>
      let columns := split line in
      let? c0 := index columns 0 in
      if String.eqb c0 "end" then Ok filaments
      else
        let? x0 := float c0 in
        let x := x0 * scale in
        let? c1 := index columns 1 in
        let? y0 := float c1 in
        let y := y0 * scale in
        let? c2 := index columns 2 in
        let? z0 := float c2 in
        let z := z0 * scale in
        let? c3 := index columns 3 in
        let? s := float c3 in
        if negb (Reqb s 0) then
          if (sample_mod =? 0)%Z then Raise ZeroDivisionError
          else if (sample_counter mod sample_mod =? 0)%Z
               then read_filaments scale sample_mod data'
                      (coords ++ [(x, y, z)]) filaments (sample_counter + 1)%Z
               else read_filaments scale sample_mod data'
                      coords filaments (sample_counter + 1)%Z
        else
          read_filaments scale sample_mod data'
            [] (filaments ++ [coords ++ [(x, y, z)]]) 0%Z
  end.

(** [MagnetSet._extract_filaments]; [file] is what [readlines()] returns
    for the file at [coils_file].  The list of filaments is stored as it
    is: [np.array] only changes its representation when the filaments have
    the same number of points; when they do not, it raises or builds an
    array of lists, depending on the NumPy version, and the steps that
    follow raise (see [ndarray3] and [check_rows]). *)
Definition _extract_filaments (file : list string) : M unit :=
  fun self =>
    let data := slice_from (start_line self) file in
    match read_filaments (scale self) (sample_mod self) data [] [] 0%Z with
    | Ok filaments => (set_filaments filaments self, Ok tt)
    | Raise e => (self, Raise e)
    end.

(** ** Filament geometry *)

(** [(point[0]**2 + point[1]**2)**0.5], the distance from the z axis. *)
Definition radial_distance (p : point) : R := sqrt (px p ^ 2 + py p ^ 2).

(** [np.arctan2(p[1], p[0])]. *)
Definition toroidal_angle (p : point) : R := Np.arctan2 (py p) (px p).

(** [(phi + 2*np.pi) % (2*np.pi)]. *)
Definition normalized (phi : R) : R :=
  Np.mod_ (phi + 2 * Np.pi) (2 * Np.pi).

(** [np.average(fil, axis=0)]. *)
Definition center_of_mass (fil : filament) : point :=
  (Np.average (map px fil), Np.average (map py fil), Np.average (map pz fil)).

(** Whether a list of filaments is a three-dimensional array: at least one
    filament, at least one point, every filament as long as the first. *)
Definition ndarray3 (fils : list filament) : bool :=
  match fils with
  | [] => false
  | f :: _ =>
      (0 <? length f)%nat && forallb (fun g => (length g =? length f)%nat) fils
  end.

(** [MagnetSet._set_average_radial_distance]: the index [[:, :, 0]] needs
    three dimensions. *)
Definition _set_average_radial_distance : M unit :=
  fils <- attr filaments ;;
  if ndarray3 fils
  then modify (set_average_radial_distance
                 (Np.average (map radial_distance (concat fils))))
  else raise IndexError.

(** ** The toroidal window *)

Definition tol (mag_len avg : R) : R := 2 * Np.arctan2 mag_len avg.

Definition min_rad (mag_len avg : R) : R := 2 * Np.pi - tol mag_len avg.

Definition max_rad (ext mag_len avg : R) : R := ext + tol mag_len avg.

Definition phi_pts (fil : filament) : list R :=
  map (fun p => normalized (toroidal_angle p)) fil.

(** The test of the filter loop on one filament. *)
Definition overlaps (min_rad max_rad : R) (fil : filament) : result bool :=
  let? min_phi := Np.min (phi_pts fil) in
  let? max_phi := Np.max (phi_pts fil) in
  Ok ((Rleb min_rad min_phi || Rleb min_phi max_rad)
      || (Rleb min_rad max_phi || Rleb max_phi max_rad)).

(** The filter loop: [reduced_fils] and [com_list]. *)
Fixpoint select (min_rad max_rad : R) (fils : list filament)
    : result (list filament * list point) :=
  match fils with
  | [] => Ok ([], [])
  | fil :: rest =>
      let com := center_of_mass fil in
      let? keep := overlaps min_rad max_rad fil in
      let? (reduced_fils, com_list) := select min_rad max_rad rest in
      Ok (if keep then (fil :: reduced_fils, com :: com_list)
          else (reduced_fils, com_list))
  end.

(** ** Sorting filaments by angle *)

Fixpoint has_tie (keys : list R) : bool :=
  match keys with
  | [] => false
  | k :: rest => existsb (Reqb k) rest || has_tie rest
  end.

Fixpoint insert (k : R) (x : filament) (l : list (R * filament))
    : list (R * filament) :=
  match l with
  | [] => [(k, x)]
  | (k', x') :: rest =>
      if Rleb k k' then (k, x) :: l else (k', x') :: insert k x rest
  end.

Definition sort (l : list (R * filament)) : list (R * filament) :=
  fold_right (fun kx acc => insert (fst kx) (snd kx) acc) [] l.

(** [[x for _, x in sorted(zip(keys, fils))]].  The items sorted are
    pairs of an angle and an array, compared as tuples: two pairs with equal
    angles are compared on their arrays, whose elementwise result has no
    truth value (ValueError).  A comparison sort cannot finish without
    comparing some two items of equal keys that end up adjacent, so the
    call raises exactly when two angles are equal. *)
Definition sorted_zip (keys : list R) (fils : list filament)
    : result (list filament) :=
  let items := combine keys fils in
  if has_tie (map fst items) then Raise ValueError
  else Ok (map snd (sort items)).

(** ** Canonical start point and direction *)

(** [point[2] / next_point[2] < 0].  A zero divisor (taken as +0.0) gives
    an infinity of the sign of the dividend, or NaN for 0/0. *)
Definition z_ratio_negative (point next_point : point) : bool :=
  if Reqb (pz next_point) 0 then Rltb (pz point) 0
  else Rltb (pz point / pz next_point) 0.

(** The scan over [enumerate(filament[0:-1])], from [index] on, with the
    two loop variables. *)
Fixpoint scan (pts : filament) (index : nat) (min_z_index : option nat)
    (min_z_radius : option R) : option nat * option R :=
  match pts with
  | point :: ((next_point :: _) as rest) =>
      if z_ratio_negative point next_point then
        match min_z_radius with
        | None =>
            scan rest (S index) (Some index) (Some (radial_distance point))
        | Some r =>
            if Rltb r (radial_distance point)
            then scan rest (S index) (Some index)
                   (Some (radial_distance point))
            else scan rest (S index) min_z_index min_z_radius
        end
      else scan rest (S index) min_z_index min_z_radius
  | _ => (min_z_index, min_z_radius)
  end.

Definition find_start (fil : filament) : option nat :=
  fst (scan fil 0%nat None None).

(** [filament[i:]] and [filament[0:i]]; with [i = None] each is the whole
    filament. *)
Definition from_index (i : option nat) (fil : filament) : filament :=
  match i with
  | Some n => skipn n fil
  | None => fil
  end.

Definition upto_index (i : option nat) (fil : filament) : filament :=
  match i with
  | Some n => firstn n fil
  | None => fil
  end.

Definition point_eqb (p q : point) : bool :=
  Reqb (px p) (px q) && Reqb (py p) (py q) && Reqb (pz p) (pz q).

(** [np.sort(idx)] for the [idx] of [np.unique(fil, return_index=True,
    axis=0)]: the index of the first occurrence of every distinct row,
    ascending.  [seen] holds the rows before position [i]. *)
Fixpoint first_indices (fil seen : filament) (i : nat) : list nat :=
  match fil with
  | [] => []
  | p :: rest =>
      if existsb (point_eqb p) seen then first_indices rest seen (S i)
      else i :: first_indices rest (p :: seen) (S i)
  end.

Definition origin : point := (0, 0, 0).

(** [fil[indices]]. *)
Definition take (indices : list nat) (fil : filament) : filament :=
  map (fun i => nth i fil origin) indices.

(** [filtered_filaments[filament_index] = value]: the row has [rows] points
    and the value must have as many, or one to repeat. *)
Definition assign_row (rows : nat) (value : filament) : result filament :=
  if (length value =? rows)%nat then Ok value
  else match value with
       | [p] => Ok (repeat p rows)
       | _ => Raise ValueError
       end.

(** The body of the loop that changes the start point of one filament. *)
Definition canonicalize (fil : filament) : result filament :=
  let min_z_index := find_start fil in
  let reordered_filament :=
    from_index min_z_index fil ++ upto_index min_z_index fil in
  let? reordered_filament :=
    match min_z_index with
    | None =>
        (* filament[None, 2] is row 2 under a new axis; None + 1 fails *)
        let? _ := index fil 2 in Raise TypeError
    | Some i =>
        let? p := index fil i in
        let? q := index fil (i + 1) in
        Ok (if Rltb (pz q) (pz p) then rev reordered_filament
            else reordered_filament)
    end in
  let reordered_filament :=
    take (first_indices reordered_filament [] 0) reordered_filament in
  let? first := index reordered_filament 0 in
  let reordered_filament := reordered_filament ++ [first] in
  assign_row (length fil) reordered_filament.

Fixpoint canonicalize_all (fils : list filament) : result (list filament) :=
  match fils with
  | [] => Ok []
  | fil :: rest =>
      let? fil' := canonicalize fil in
      let? rest' := canonicalize_all rest in
      Ok (fil' :: rest')
  end.

(** What [for fil in self.filaments] meets when the attribute is not a
    three-dimensional array: rows that are lists ([fil[:, 1]] is a
    TypeError) or rows without points (an IndexError). *)
Definition check_rows (fils : list filament) : result unit :=
  match fils with
  | [] => Ok tt
  | f :: _ =>
      if negb (forallb (fun g => (length g =? length f)%nat) fils)
      then Raise TypeError
      else if (length f =? 0)%nat then Raise IndexError
      else Ok tt
  end.

Definition is_nil {A : Type} (l : list A) : bool :=
  match l with
  | [] => true
  | _ :: _ => false
  end.

(** The body of [_set_filtered_filaments] on the values of the attributes
    it reads. *)
Definition filter_filaments (mag_len avg ext : R) (fils : list filament)
    : result (list filament) :=
  let? _ := check_rows fils in
  let? (reduced_fils, com_list) :=
    select (min_rad mag_len avg) (max_rad ext mag_len avg) fils in
  (* com_list[:, 1] on an empty array *)
  if is_nil com_list then Raise IndexError
  else
    let phi_arr := map (fun com => normalized (toroidal_angle com)) com_list in
    let? filtered_filaments := sorted_zip phi_arr reduced_fils in
    let? filtered_filaments := canonicalize_all filtered_filaments in
    let com_list := map center_of_mass filtered_filaments in
    let phi_arr := map toroidal_angle com_list in
    sorted_zip phi_arr filtered_filaments.

(** [np.arctan2] on a string is a TypeError. *)
Definition number (v : value) : result R :=
  match v with
  | VNum r => Ok r
  | VStr _ => Raise TypeError
  end.

(** [MagnetSet._set_filtered_filaments]. *)
Definition _set_filtered_filaments : M unit :=
  len <- attr mag_len ;;
  avg <- attr average_radial_distance ;;
  len <- lift (number len) ;;
  ext <- attr _toroidal_extent ;;
  fils <- attr filaments ;;
  filtered <- lift (filter_filaments len avg ext fils) ;;
  modify (set_filtered_filaments filtered).

(** [MagnetSet.build_magnet_coils], up to its calls into the geometry
    kernel: the three steps that prepare [filtered_filaments]. *)
Definition build_magnet_coils (file : list string) : M unit :=
  modify (emit INFO ConstructingMagnetCoils) ;;
  _extract_filaments file ;;
  _set_average_radial_distance ;;
  _set_filtered_filaments.

(** * Specification vocabulary and worked inputs *)

(** Two states that differ at most in the logger's records. *)
Definition same_attrs (s s' : MagnetSet) : Prop :=
  coils_file s' = coils_file s /\
  _cross_section s' = _cross_section s /\
  _toroidal_extent s' = _toroidal_extent s /\
  shape s' = shape s /\
  shape_str s' = shape_str s /\
  mag_len s' = mag_len s /\
  filaments s' = filaments s /\
  average_radial_distance s' = average_radial_distance s /\
  filtered_filaments s' = filtered_filaments s.

(** A method that changes no attribute, whatever its outcome; and one
    that changes none when it raises. *)
Definition quiet {A : Type} (m : M A) : Prop :=
  forall s s' r, m s = (s', r) -> same_attrs s s'.

Definition quiet_on_raise {A : Type} (m : M A) : Prop :=
  forall s s' e, m s = (s', Raise e) -> same_attrs s s'.

(** [_extract_cross_section] and the setters never touch the filament
    attributes, whether they return or raise. *)
Definition same_filament_attrs (s s' : MagnetSet) : Prop :=
  filaments s' = filaments s /\
  average_radial_distance s' = average_radial_distance s /\
  filtered_filaments s' = filtered_filaments s.

(** A data line the loop of [_extract_filaments] gets past: at least four
    tokens, the first four of them decimal numbers. *)
Definition well_formed_line (line : string) : Prop :=
  exists c0 c1 c2 c3 more x y z s,
    split line = c0 :: c1 :: c2 :: c3 :: more /\
    float c0 = Ok x /\ float c1 = Ok y /\ float c2 = Ok z /\
    float c3 = Ok s.

(** A line with fewer than four tokens, none of which is malformed. *)
Definition short_numeric_line (line : string) : Prop :=
  (length (split line) < 4)%nat /\
  Forall (fun token => exists r, float token = Ok r) (split line).

(** The object after a construction with the default options. *)
Definition default_set : MagnetSet :=
  set_defaults no_kwargs (set_coils_file "coils.txt" blank).

(** The window [min_rad, 2 pi) U [0, max_rad]. *)
Definition in_window (lo hi phi : R) : Prop :=
  lo <= phi < 2 * Np.pi \/ 0 <= phi <= hi.

(** The z-sign-crossing candidates of a filament, recomputed directly:
    every point whose z divided by the z of its successor is negative. *)
Fixpoint crossing_candidates (pts : filament) : list point :=
  match pts with
  | p :: ((q :: _) as rest) =>
      if z_ratio_negative p q then p :: crossing_candidates rest
      else crossing_candidates rest
  | _ => []
  end.

(** The rows of [l] not in [seen], each kept where it first occurs. *)
Fixpoint dedup (l seen : filament) : filament :=
  match l with
  | [] => []
  | p :: rest =>
      if existsb (point_eqb p) seen then dedup rest seen
      else p :: dedup rest (p :: seen)
  end.

(** A closed polyline: the first point is the last one, and no point is
    followed by an equal one. *)
Definition closed_polyline (f : filament) : Prop :=
  (exists first, nth_error f 0 = Some first /\
                 nth_error f (length f - 1) = Some first) /\
  (forall i p q, nth_error f i = Some p -> nth_error f (S i) = Some q ->
                 p <> q).

(** A MagnetSet built with a circular cross-section of radius 1, the
    whole torus, 360 degrees, as toroidal extent, and [scale = 1]: the file
    is in centimeters already. *)
Definition configured : MagnetSet :=
  fst (__init__ "coils.txt" [VStr "circle"; VNum 1] 360
         (mkKwargs None None (Some 1) None)).

(** The same once [build_magnet_coils] has read the filaments [fils] and
    run [_set_average_radial_distance]. *)
Definition loaded (fils : list filament) : MagnetSet :=
  fst (_set_average_radial_distance
         (set_filaments fils (emit INFO ConstructingMagnetCoils configured))).

(** The three header lines of a coils file. *)
Definition header : list string :=
  ["periods 1"; "begin filament"; "mirror NIL"]%string.

(** A closed rectangular loop in the plane y = 0: up at radius 8, out to
    radius 10, down at radius 10, back in. *)
Definition downward_loop : filament :=
  [(8, 0, -1); (8, 0, 1); (10, 0, 1); (10, 0, -1); (8, 0, -1)].

Definition downward_loop_file : list string :=
  header ++
  ["8 0 -1 1"; "8 0 1 1"; "10 0 1 1"; "10 0 -1 1"; "8 0 -1 0 1 coil";
   "end"]%string.

(** What the loop over the filaments leaves in its row. *)
Definition downward_loop_out : filament :=
  [(8, 0, 1); (8, 0, -1); (10, 0, -1); (10, 0, 1); (8, 0, 1)].

(** A loop in the half-plane y = 0, x > 0: its center of mass has toroidal
    angle 0. *)
Definition coil_east : filament :=
  [(10, 0, -1); (10, 0, 1); (8, 0, 1); (8, 0, -1); (10, 0, -1)].

(** A loop in the half-plane x = 0, y < 0: the angle of its center of mass
    is -pi/2, that is 3 pi/2 once normalized. *)
Definition coil_south : filament :=
  [(0, -10, -1); (0, -10, 1); (0, -8, 1); (0, -8, -1); (0, -10, -1)].



Definition key_le (a b : R * filament) : Prop := fst a <= fst b.

(** A closed loop whose z never changes sign. *)
Definition upper_loop : filament :=
  [(10, 0, 1); (10, 0, 2); (8, 0, 2); (8, 0, 1); (10, 0, 1)].

Definition upper_loop_file : list string :=
  header ++
  ["10 0 1 1"; "10 0 2 1"; "8 0 2 1"; "8 0 1 1"; "10 0 1 0 1 coil";
   "end"]%string.

(** * Further model and vocabulary *)

(** The [toroidal_extent] and [cross_section] property getters. *)
Definition toroidal_extent_getter : M R := attr _toroidal_extent.

Definition cross_section_getter : M (list value) := attr _cross_section.

(** What one pass of the reading loop does with a line: it ends the
    reading with a result, or goes on with new loop variables. *)
Inductive outcome : Type :=
| Stop (r : result (list filament))
| Continue (coords : filament) (filaments : list filament)
    (sample_counter : Z).

(** The body of the loop of [_extract_filaments], line by line as in
    [read_filaments]. *)
Definition read_line (scale : R) (sample_mod : Z) (line : string)
    (coords : filament) (filaments : list filament) (sample_counter : Z)
    : outcome :=
  match index (split line) 0 with
  | Raise e => Stop (Raise e)
  | Ok c0 =>
      if String.eqb c0 "end" then Stop (Ok filaments)
      else
        match float c0 with
        | Raise e => Stop (Raise e)
        | Ok x0 =>
        match index (split line) 1 with
        | Raise e => Stop (Raise e)
        | Ok c1 =>
        match float c1 with
        | Raise e => Stop (Raise e)
        | Ok y0 =>
        match index (split line) 2 with
        | Raise e => Stop (Raise e)
        | Ok c2 =>
        match float c2 with
        | Raise e => Stop (Raise e)
        | Ok z0 =>
        match index (split line) 3 with
        | Raise e => Stop (Raise e)
        | Ok c3 =>
        match float c3 with
        | Raise e => Stop (Raise e)
        | Ok s =>
            let p := (x0 * scale, y0 * scale, z0 * scale) in
            if negb (Reqb s 0) then
              if (sample_mod =? 0)%Z then Stop (Raise ZeroDivisionError)
              else if (sample_counter mod sample_mod =? 0)%Z
                   then Continue (coords ++ [p]) filaments
                          (sample_counter + 1)%Z
                   else Continue coords filaments (sample_counter + 1)%Z
            else Continue [] (filaments ++ [coords ++ [p]]) 0%Z
        end end end end end end end
  end.

(** A line whose first four tokens are the numbers [x y z s]. *)
Definition row (line : string) (x y z s : R) : Prop :=
  match split line with
  | c0 :: c1 :: c2 :: c3 :: _ =>
      float c0 = Ok x /\ float c1 = Ok y /\ float c2 = Ok z /\ float c3 = Ok s
  | _ => False
  end.

(** A line that carries the point [p] with a current that is not zero. *)
Definition point_row (line : string) (p : point) : Prop :=
  exists s, row line (px p) (py p) (pz p) s /\ s <> 0.

Definition scale_point (k : R) (p : point) : point :=
  (px p * k, py p * k, pz p * k).

(** Every [sample_mod]-th point, the counter standing at [n]. *)
Fixpoint sample (sample_mod n : Z) (pts : filament) : filament :=
  match pts with
  | [] => []
  | p :: rest =>
      if (n mod sample_mod =? 0)%Z
      then p :: sample sample_mod (n + 1)%Z rest
      else sample sample_mod (n + 1)%Z rest
  end.

(** Whether the filter loop keeps a filament. *)
Definition retained (lo hi : R) (fil : filament) : bool :=
  match overlaps lo hi fil with
  | Ok b => b
  | Raise _ => false
  end.

(** The polyline of the scenario: an open square in the plane y = 0. *)
Definition open_square : filament :=
  [(10, 0, -1); (10, 0, 1); (8, 0, 1); (8, 0, -1)].

(** * Properties *)

(** ** Deciding comparisons of reals *)

Lemma Rltb_true (a b : R) : a < b -> Rltb a b = true.
Proof. intros H. unfold Rltb. destruct (Rlt_dec a b); [reflexivity | contradiction]. Qed.

Lemma Rltb_false (a b : R) : b <= a -> Rltb a b = false.
Proof. intros H. unfold Rltb. destruct (Rlt_dec a b); [lra | reflexivity]. Qed.

Lemma Rleb_true (a b : R) : a <= b -> Rleb a b = true.
Proof. intros H. unfold Rleb. destruct (Rle_dec a b); [reflexivity | contradiction]. Qed.

Lemma Rleb_false (a b : R) : b < a -> Rleb a b = false.
Proof. intros H. unfold Rleb. destruct (Rle_dec a b); [lra | reflexivity]. Qed.

Lemma Reqb_true (a b : R) : a = b -> Reqb a b = true.
Proof. intros H. unfold Reqb. destruct (Req_dec_T a b); [reflexivity | contradiction]. Qed.

Lemma Reqb_false (a b : R) : a <> b -> Reqb a b = false.
Proof. intros H. unfold Reqb. destruct (Req_dec_T a b); [contradiction | reflexivity]. Qed.

Lemma Rltb_spec (a b : R) : Rltb a b = true <-> a < b.
Proof.
  unfold Rltb. destruct (Rlt_dec a b); split; intros; try assumption;
    try reflexivity; try discriminate; contradiction.
Qed.

Lemma Rleb_spec (a b : R) : Rleb a b = true <-> a <= b.
Proof.
  unfold Rleb. destruct (Rle_dec a b); split; intros; try assumption;
    try reflexivity; try discriminate; contradiction.
Qed.

Lemma Reqb_spec (a b : R) : Reqb a b = true <-> a = b.
Proof.
  unfold Reqb. destruct (Req_dec_T a b); split; intros; try assumption;
    try reflexivity; try discriminate; contradiction.
Qed.

Lemma pi_gt_3 : 3 < Np.pi.
Proof. unfold Np.pi. pose proof PI2_3_2. lra. Qed.

Lemma pi_le_4 : Np.pi <= 4.
Proof. exact PI_4. Qed.

(** Rewrites every comparison of the goal whose outcome [lra] can settle. *)
Ltac Rdecide :=
  repeat match goal with
  | |- context [Rltb ?a ?b] =>
      first [ rewrite (Rltb_true a b) by lra | rewrite (Rltb_false a b) by lra ]
  | |- context [Rleb ?a ?b] =>
      first [ rewrite (Rleb_true a b) by lra | rewrite (Rleb_false a b) by lra ]
  | |- context [Reqb ?a ?b] =>
      first [ rewrite (Reqb_true a b) by lra | rewrite (Reqb_false a b) by lra ]
  end.

(** ** The cross-section and toroidal-extent setters *)

Lemma py_max_num (w t : R) : py_max (VNum w) (VNum t) = Ok (VNum (Rmax w t)).
Proof.
  unfold py_max, Rltb, Rmax.
  destruct (Rlt_dec w t), (Rle_dec w t); try reflexivity; try lra.
  f_equal. f_equal. lra.
Qed.

Lemma extract_circle (self : MagnetSet) (radius : value) :
  _extract_cross_section (set__cross_section [VStr "circle"; radius] self)
  = (set_shape_fields (VStr "circle")
       [Fmt (VStr "circle"); Lit " radius "; Fmt radius] radius
       (set__cross_section [VStr "circle"; radius] self), Ok tt).
Proof. reflexivity. Qed.

Lemma extract_rectangle (self : MagnetSet) (w t : R) :
  _extract_cross_section
    (set__cross_section [VStr "rectangle"; VNum w; VNum t] self)
  = (set_shape_fields (VStr "rectangle")
       [Fmt (VStr "rectangle"); Lit " width "; Fmt (VNum t); Lit " height ";
        Fmt (VNum w)] (VNum (Rmax w t))
       (set__cross_section [VStr "rectangle"; VNum w; VNum t] self), Ok tt).
Proof.
  unfold _extract_cross_section, bind, attr, item, lift, modify, ret.
  cbn -[py_max]. rewrite py_max_num. reflexivity.
Qed.

(** C8.  [_extract_cross_section] sets [mag_len] to the radius of a circular
    cross-section and to max(width, thickness) of a rectangular one; for
    ["circle", 5] it is 5 and for ["rectangle", 4, 2] it is 4. *)
Theorem extract_cross_section_mag_len :
  (forall (self : MagnetSet) (radius : value),
      let r := _extract_cross_section
                 (set__cross_section [VStr "circle"; radius] self) in
      snd r = Ok tt /\ mag_len (fst r) = Some radius) /\
  (forall (self : MagnetSet) (width thickness : R),
      let r := _extract_cross_section
                 (set__cross_section
                    [VStr "rectangle"; VNum width; VNum thickness] self) in
      snd r = Ok tt /\ mag_len (fst r) = Some (VNum (Rmax width thickness))) /\
  mag_len (fst (cross_section_setter [VStr "circle"; VNum 5] blank))
  = Some (VNum 5) /\
  mag_len (fst (cross_section_setter [VStr "rectangle"; VNum 4; VNum 2] blank))
  = Some (VNum 4).
Proof.
  split; [| split; [| split]].
  - intros self radius r. subst r. rewrite extract_circle. split; reflexivity.
  - intros self w t r. subst r. rewrite extract_rectangle. split; reflexivity.
  - reflexivity.
  - unfold cross_section_setter, bind, modify.
    rewrite extract_rectangle. cbn. do 2 f_equal.
    unfold Rmax. destruct (Rle_dec 4 2); [lra | reflexivity].
Qed.

Lemma same_attrs_refl (s : MagnetSet) : same_attrs s s.
Proof. repeat split. Qed.

Lemma same_attrs_trans (s1 s2 s3 : MagnetSet) :
  same_attrs s1 s2 -> same_attrs s2 s3 -> same_attrs s1 s3.
Proof.
  unfold same_attrs. intros H1 H2.
  decompose [and] H1. decompose [and] H2. repeat split; congruence.
Qed.

Lemma quiet_ret {A : Type} (a : A) : quiet (ret a).
Proof. intros s s' r H. inversion H. apply same_attrs_refl. Qed.

Lemma quiet_raise {A : Type} (e : exn) : quiet (@raise A e).
Proof. intros s s' r H. inversion H. apply same_attrs_refl. Qed.

Lemma quiet_lift {A : Type} (r : result A) : quiet (lift r).
Proof. intros s s' r' H. inversion H. apply same_attrs_refl. Qed.

Lemma quiet_attr {A : Type} (f : MagnetSet -> option A) : quiet (attr f).
Proof.
  intros s s' r. unfold attr. destruct (f s); intros H; inversion H;
    apply same_attrs_refl.
Qed.

Lemma quiet_item {A : Type} (l : list A) (i : nat) : quiet (item l i).
Proof.
  intros s s' r. unfold item. destruct (nth_error l i); intros H;
    inversion H; apply same_attrs_refl.
Qed.

Lemma quiet_emit (l : level) (m : message) : quiet (modify (emit l m)).
Proof. intros s s' r H. inversion H. repeat split. Qed.

Lemma quiet_bind {A B : Type} (m : M A) (k : A -> M B) :
  quiet m -> (forall a, quiet (k a)) -> quiet (bind m k).
Proof.
  intros Hm Hk s s' r. unfold bind.
  destruct (m s) as [s1 [a | e]] eqn:E; intros H.
  - eapply same_attrs_trans; [eapply Hm, E | eapply Hk, H].
  - inversion H; subst. eapply Hm, E.
Qed.

Lemma quiet_log_and_raise {A : Type} (m : message) :
  quiet (@log_and_raise A m).
Proof.
  apply quiet_bind; [apply quiet_emit | intros; apply quiet_raise].
Qed.

Lemma quiet_on_raise_bind {A B : Type} (m : M A) (k : A -> M B) :
  quiet m -> (forall a, quiet_on_raise (k a)) -> quiet_on_raise (bind m k).
Proof.
  intros Hm Hk s s' e. unfold bind.
  destruct (m s) as [s1 [a | e1]] eqn:E; intros H.
  - eapply same_attrs_trans; [eapply Hm, E | eapply Hk, H].
  - inversion H; subst. eapply Hm, E.
Qed.

Lemma quiet_on_raise_modify (f : MagnetSet -> MagnetSet) :
  quiet_on_raise (modify f).
Proof. intros s s' e H. inversion H. Qed.

Lemma quiet_quiet_on_raise {A : Type} (m : M A) : quiet m -> quiet_on_raise m.
Proof. intros H s s' e. apply H. Qed.

Lemma extract_cross_section_quiet_on_raise :
  quiet_on_raise _extract_cross_section.
Proof.
  unfold _extract_cross_section.
  apply quiet_on_raise_bind; [apply quiet_attr | intros cs].
  apply quiet_on_raise_bind; [apply quiet_item | intros shape].
  destruct (value_eqb shape (VStr "circle")).
  - apply quiet_on_raise_bind.
    + destruct (length cs =? 1)%nat; [apply quiet_log_and_raise |].
      destruct (2 <? length cs)%nat; [apply quiet_emit | apply quiet_ret].
    + intros _. apply quiet_on_raise_bind; [apply quiet_item | intros len].
      apply quiet_on_raise_modify.
  - destruct (value_eqb shape (VStr "rectangle")).
    + apply quiet_on_raise_bind.
      * destruct (negb (length cs =? 3)%nat);
          [apply quiet_log_and_raise | apply quiet_ret].
      * intros _.
        apply quiet_on_raise_bind; [apply quiet_item | intros width].
        apply quiet_on_raise_bind; [apply quiet_item | intros thickness].
        apply quiet_on_raise_bind; [apply quiet_lift | intros len].
        apply quiet_on_raise_modify.
    + apply quiet_quiet_on_raise, quiet_log_and_raise.
Qed.

Lemma extract_cross_section_filaments (s s' : MagnetSet) (r : result unit) :
  _extract_cross_section s = (s', r) -> same_filament_attrs s s'.
Proof.
  destruct r as [u | e].
  - unfold _extract_cross_section, log_and_raise, bind, attr, item, lift,
      modify, ret, raise.
    destruct (_cross_section s) as [cs |]; [| discriminate].
    destruct (nth_error cs 0) as [sh |]; [| discriminate].
    destruct (value_eqb sh (VStr "circle")).
    + destruct (length cs =? 1)%nat; [discriminate |].
      destruct (2 <? length cs)%nat;
        (destruct (nth_error cs 1); [| discriminate]);
        intros H; inversion H; repeat split.
    + destruct (value_eqb sh (VStr "rectangle")); [| discriminate].
      destruct (negb (length cs =? 3)%nat); [discriminate |].
      destruct (nth_error cs 1); [| discriminate].
      destruct (nth_error cs 2); [| discriminate].
      destruct (py_max v v0); [| discriminate].
      intros H; inversion H; repeat split.
  - intros H. apply extract_cross_section_quiet_on_raise in H.
    unfold same_attrs in H. decompose [and] H. repeat split; assumption.
Qed.

(** C9.  The validating setters are not atomic: when the [cross_section]
    setter raises, [_cross_section] already holds the rejected value while
    [shape], [shape_str] and [mag_len] keep their previous values; when the
    [toroidal_extent] setter raises, [_toroidal_extent] already holds the
    rejected value in radians. *)
Theorem setters_not_atomic :
  (forall (self : MagnetSet) (v : list value) (e : exn),
      snd (cross_section_setter v self) = Raise e ->
      let self' := fst (cross_section_setter v self) in
      _cross_section self' = Some v /\
      shape self' = shape self /\
      shape_str self' = shape_str self /\
      mag_len self' = mag_len self) /\
  (forall (self : MagnetSet) (angle : R) (e : exn),
      snd (toroidal_extent_setter angle self) = Raise e ->
      _toroidal_extent (fst (toroidal_extent_setter angle self))
      = Some (Np.deg2rad angle)).
Proof.
  split.
  - intros self v e H self'. subst self'.
    unfold cross_section_setter, bind, modify in *.
    destruct (_extract_cross_section (set__cross_section v self))
      as [s r] eqn:E.
    destruct r as [u | e']; cbn in H; [discriminate |].
    apply extract_cross_section_quiet_on_raise in E.
    unfold same_attrs in E. cbn in *. decompose [and] E.
    repeat split; assumption.
  - intros self angle e.
    unfold toroidal_extent_setter, log_and_raise, bind, modify, attr, raise,
      ret. cbn.
    destruct (Rltb 360 (Np.deg2rad angle)); cbn; intros H;
      [reflexivity | discriminate].
Qed.

Lemma deg2rad_36000 : 360 < Np.deg2rad 36000.
Proof. unfold Np.deg2rad. pose proof pi_gt_3. lra. Qed.

Lemma toroidal_extent_setter_raises (self : MagnetSet) (angle : R) :
  360 < Np.deg2rad angle ->
  toroidal_extent_setter angle self
  = (emit ERROR ToroidalExtentExceeds360
       (set__toroidal_extent (Np.deg2rad angle) self), Raise ValueError).
Proof.
  intros H.
  unfold toroidal_extent_setter, log_and_raise, bind, modify, attr, raise, ret.
  cbn. rewrite (Rltb_true _ _ H). reflexivity.
Qed.

Lemma toroidal_extent_setter_accepts (self : MagnetSet) (angle : R) :
  Np.deg2rad angle <= 360 ->
  toroidal_extent_setter angle self
  = (set__toroidal_extent (Np.deg2rad angle) self, Ok tt).
Proof.
  intros H.
  unfold toroidal_extent_setter, log_and_raise, bind, modify, attr, raise, ret.
  cbn. rewrite (Rltb_false _ _ H). reflexivity.
Qed.

Lemma setters_not_atomic_witness :
  (let self' := fst (cross_section_setter [VStr "triangle"] blank) in
   _cross_section self' = Some [VStr "triangle"] /\
   shape self' = shape blank /\
   shape_str self' = shape_str blank /\
   mag_len self' = mag_len blank) /\
  _toroidal_extent (fst (toroidal_extent_setter 36000 blank))
  = Some (Np.deg2rad 36000).
Proof.
  split.
  - apply (proj1 setters_not_atomic blank [VStr "triangle"] ValueError).
    reflexivity.
  - apply (proj2 setters_not_atomic blank 36000 ValueError).
    rewrite (toroidal_extent_setter_raises blank 36000 deg2rad_36000).
    reflexivity.
Defined.

(** 370 degrees is 370 * pi / 180 radians, which is below 360. *)
Lemma toroidal_extent_370_accepted (self : MagnetSet) :
  snd (toroidal_extent_setter 370 self) = Ok tt.
Proof.
  rewrite toroidal_extent_setter_accepts; [reflexivity |].
  unfold Np.deg2rad. pose proof pi_le_4. lra.
Qed.

(** An extent of -10 degrees, outside (0, 360], passes the setter and the
    constructor: no ValueError is raised. *)
Lemma negative_toroidal_extent_accepted :
  ~ (0 < -10 <= 360) /\
  snd (toroidal_extent_setter (-10) blank) = Ok tt /\
  snd (__init__ "coils.txt" [VStr "circle"; VNum 5] (-10) no_kwargs) = Ok tt /\
  snd (__init__ "coils.txt" [VStr "circle"; VNum 5] (-10) no_kwargs)
  <> Raise ValueError.
Proof.
  assert (H : Np.deg2rad (-10) <= 360).
  { unfold Np.deg2rad. pose proof pi_gt_3. lra. }
  assert (E : snd (__init__ "coils.txt" [VStr "circle"; VNum 5] (-10)
                     no_kwargs) = Ok tt).
  { unfold __init__, cross_section_setter, bind at 1 2 3 4, modify at 1 2.
    rewrite extract_circle. unfold bind.
    rewrite (toroidal_extent_setter_accepts _ _ H). reflexivity. }
  split; [lra |]. split; [| split; [exact E | rewrite E; discriminate]].
  - rewrite (toroidal_extent_setter_accepts _ _ H). reflexivity.
Qed.

Lemma init_parses_nothing (file : string) (cs : list value) (angle : R)
    (kw : kwargs) (s' : MagnetSet) (r : result unit) :
  __init__ file cs angle kw = (s', r) ->
  filaments s' = None /\
  average_radial_distance s' = None /\
  filtered_filaments s' = None.
Proof.
  unfold __init__, cross_section_setter, bind at 1 2 3 4, modify at 1 2.
  destruct (_extract_cross_section
              (set__cross_section cs (set_coils_file file blank)))
    as [s1 r1] eqn:E.
  apply extract_cross_section_filaments in E.
  destruct E as (H1 & H2 & H3). cbn in H1, H2, H3.
  destruct r1 as [u | e].
  - unfold bind, toroidal_extent_setter, log_and_raise, modify, attr, raise,
      ret. cbn.
    destruct (Rltb 360 (Np.deg2rad angle)); cbn; intros H; inversion H;
      cbn; repeat split; assumption.
  - intros H. inversion H; subst. repeat split; assumption.
Qed.

(** C1, amended.  The only range check of the [toroidal_extent] setter is
    an upper one: an extent of 0 degrees or less is stored without error.
    When the setter raises, it raises a ValueError and touches none of the
    filament attributes, and after [__init__], whatever its outcome, no
    filament has been parsed or filtered. *)
Theorem toroidal_extent_upper_check_only :
  (forall (self : MagnetSet) (angle : R),
      angle <= 0 ->
      toroidal_extent_setter angle self
      = (set__toroidal_extent (Np.deg2rad angle) self, Ok tt)) /\
  (forall (self : MagnetSet) (angle : R) (e : exn),
      snd (toroidal_extent_setter angle self) = Raise e ->
      let self' := fst (toroidal_extent_setter angle self) in
      e = ValueError /\
      filaments self' = filaments self /\
      average_radial_distance self' = average_radial_distance self /\
      filtered_filaments self' = filtered_filaments self) /\
  (forall (file : string) (cs : list value) (angle : R) (kw : kwargs),
      let self' := fst (__init__ file cs angle kw) in
      filaments self' = None /\
      average_radial_distance self' = None /\
      filtered_filaments self' = None).
Proof.
  split; [| split].
  - intros self angle H. apply toroidal_extent_setter_accepts.
    unfold Np.deg2rad. pose proof pi_gt_3. nra.
  - intros self angle e.
    unfold toroidal_extent_setter, log_and_raise, bind, modify, attr, raise,
      ret. cbn.
    destruct (Rltb 360 (Np.deg2rad angle)); cbn; intros H.
    + inversion H. repeat split; reflexivity.
    + discriminate.
  - intros file cs angle kw self'. subst self'.
    destruct (__init__ file cs angle kw) as [s r] eqn:E.
    apply init_parses_nothing in E. exact E.
Qed.

Lemma toroidal_extent_upper_check_only_witness :
  toroidal_extent_setter (-10) blank
  = (set__toroidal_extent (Np.deg2rad (-10)) blank, Ok tt) /\
  (let self' := fst (toroidal_extent_setter 36000 blank) in
   ValueError = ValueError /\
   filaments self' = filaments blank /\
   average_radial_distance self' = average_radial_distance blank /\
   filtered_filaments self' = filtered_filaments blank).
Proof.
  split.
  - apply (proj1 toroidal_extent_upper_check_only blank (-10)). lra.
  - apply (proj1 (proj2 toroidal_extent_upper_check_only) blank 36000
             ValueError).
    rewrite (toroidal_extent_setter_raises blank 36000 deg2rad_36000).
    reflexivity.
Defined.

(** ** Reading the coil file *)

Lemma float_end : float "end" = Raise ValueError.
Proof. reflexivity. Qed.

Lemma float_ok_not_end (token : string) (r : R) :
  float token = Ok r -> String.eqb token "end" = false.
Proof.
  intros H. destruct (String.eqb token "end") eqn:E; [| reflexivity].
  apply String.eqb_eq in E. subst token. rewrite float_end in H.
  discriminate.
Qed.

(** Past a well-formed line the loop goes on with some other state. *)
Lemma read_filaments_step (scale : R) (sample_mod : Z) (line : string)
    (data : list string) (coords : filament) (fils : list filament)
    (counter : Z) :
  sample_mod <> 0%Z ->
  well_formed_line line ->
  exists coords' fils' counter',
    read_filaments scale sample_mod (line :: data) coords fils counter
    = read_filaments scale sample_mod data coords' fils' counter'.
Proof.
  intros Hmod (c0 & c1 & c2 & c3 & more & x & y & z & s & Hs & H0 & H1 & H2 & H3).
  cbn [read_filaments]. rewrite Hs. cbn [index nth_error rbind].
  rewrite (float_ok_not_end _ _ H0), H0, H1, H2, H3. cbn [rbind].
  apply Z.eqb_neq in Hmod. rewrite Hmod.
  destruct (negb (Reqb s 0)).
  - destruct (counter mod sample_mod =? 0)%Z; eauto.
  - eauto.
Qed.

Lemma read_filaments_prefix (scale : R) (sample_mod : Z) (pre : list string) :
  sample_mod <> 0%Z ->
  Forall well_formed_line pre ->
  forall (data : list string) (coords : filament) (fils : list filament)
         (counter : Z),
  exists coords' fils' counter',
    read_filaments scale sample_mod (pre ++ data) coords fils counter
    = read_filaments scale sample_mod data coords' fils' counter'.
Proof.
  intros Hmod Hpre. induction Hpre as [| line pre Hline Hpre IH];
    intros data coords fils counter.
  - cbn. eauto.
  - destruct (read_filaments_step scale sample_mod line (pre ++ data) coords
                fils counter Hmod Hline) as (c1 & f1 & n1 & E1).
    destruct (IH data c1 f1 n1) as (c2 & f2 & n2 & E2).
    exists c2, f2, n2. cbn [app]. rewrite E1. exact E2.
Qed.

(** On a short line the loop raises: an IndexError when every token it
    has is a number. *)
Lemma read_filaments_short_numeric (scale : R) (sample_mod : Z)
    (line : string) (data : list string) (coords : filament)
    (fils : list filament) (counter : Z) :
  short_numeric_line line ->
  read_filaments scale sample_mod (line :: data) coords fils counter
  = Raise IndexError.
Proof.
  intros [Hlen Hall]. cbn [read_filaments].
  destruct (split line) as [| c0 [| c1 [| c2 [| c3 more]]]];
    cbn [index nth_error rbind]; try reflexivity.
  - inversion Hall as [| ? ? [x Hx] _]; subst.
    rewrite (float_ok_not_end _ _ Hx), Hx. reflexivity.
  - inversion Hall as [| ? ? [x Hx] Hall1]; subst.
    inversion Hall1 as [| ? ? [y Hy] _]; subst.
    rewrite (float_ok_not_end _ _ Hx), Hx, Hy. reflexivity.
  - inversion Hall as [| ? ? [x Hx] Hall1]; subst.
    inversion Hall1 as [| ? ? [y Hy] Hall2]; subst.
    inversion Hall2 as [| ? ? [z Hz] _]; subst.
    rewrite (float_ok_not_end _ _ Hx), Hx, Hy, Hz. reflexivity.
  - cbn in Hlen. lia.
Qed.

(** On any line with fewer than four tokens whose first is not [end], the
    loop raises, with an IndexError or a ValueError. *)
Lemma read_filaments_short (scale : R) (sample_mod : Z)
    (line : string) (data : list string) (coords : filament)
    (fils : list filament) (counter : Z) :
  (length (split line) < 4)%nat ->
  hd_error (split line) <> Some "end"%string ->
  read_filaments scale sample_mod (line :: data) coords fils counter
  = Raise IndexError \/
  read_filaments scale sample_mod (line :: data) coords fils counter
  = Raise ValueError.
Proof.
  intros Hlen Hend. cbn [read_filaments].
  destruct (split line) as [| c0 [| c1 [| c2 [| c3 more]]]];
    cbn [index nth_error rbind]; try (left; reflexivity);
    try (cbn in Hlen; lia);
    (destruct (String.eqb c0 "end") eqn:E;
     [apply String.eqb_eq in E; subst c0; exfalso; apply Hend; reflexivity |]);
    unfold float;
    repeat match goal with
    | |- context [parse_decimal ?c] =>
        destruct (parse_decimal c) as [[? ?] |]; cbn [rbind]
    end; auto.
Qed.

(** A coils file read with [start_line = 2]: the third header line,
    [mirror NIL], is taken for data.  It has two tokens, the first is not
    [end], and [float] rejects it with a ValueError before any index is
    out of range. *)
Lemma header_line_value_error :
  let self := set_defaults (mkKwargs (Some 2%Z) None None None)
                (set_coils_file "coils.txt" blank) in
  let file := ["periods 3"; "begin filament"; "mirror NIL";
               "1.0 0.0 0.5 1.0"; "end"]%string in
  slice_from (start_line self) file
  = ["mirror NIL"; "1.0 0.0 0.5 1.0"; "end"]%string /\
  (length (split "mirror NIL") < 4)%nat /\
  hd_error (split "mirror NIL") <> Some "end"%string /\
  _extract_filaments file self = (self, Raise ValueError) /\
  _extract_filaments file self <> (self, Raise IndexError).
Proof.
  cbv zeta.
  split; [reflexivity |].
  split; [vm_compute; lia |].
  split; [vm_compute; discriminate |].
  assert (H : forall self file,
             _extract_filaments file self
             = match read_filaments (scale self) (sample_mod self)
                       (slice_from (start_line self) file) [] [] 0%Z with
               | Ok filaments => (set_filaments filaments self, Ok tt)
               | Raise e => (self, Raise e)
               end) by reflexivity.
  rewrite H.
  replace (read_filaments _ _ _ _ _ _) with (@Raise (list filament) ValueError)
    by reflexivity.
  split; [reflexivity | intros E; inversion E].
Qed.

(** C10, amended.  [_extract_filaments] indexes the tokens of a data line
    unguarded: when the lines before it are well formed, a line with fewer
    than four tokens whose first is not [end] is never skipped; the method
    raises an IndexError if every token the line has is a number (a blank
    line among them), and an IndexError or the ValueError of [float]
    otherwise, and [filaments] is not assigned. *)
Theorem extract_filaments_short_line :
  forall (self : MagnetSet) (file pre rest : list string) (line : string),
    slice_from (start_line self) file = pre ++ line :: rest ->
    sample_mod self <> 0%Z ->
    Forall well_formed_line pre ->
    (length (split line) < 4)%nat ->
    hd_error (split line) <> Some "end"%string ->
    (_extract_filaments file self = (self, Raise IndexError) \/
     _extract_filaments file self = (self, Raise ValueError)) /\
    (Forall (fun token => exists r, float token = Ok r) (split line) ->
     _extract_filaments file self = (self, Raise IndexError)).
Proof.
  intros self file pre rest line Hfile Hmod Hpre Hlen Hend.
  unfold _extract_filaments. rewrite Hfile.
  destruct (read_filaments_prefix (scale self) (sample_mod self) pre Hmod Hpre
              (line :: rest) [] [] 0%Z) as (c & f & n & E).
  rewrite E. split.
  - destruct (read_filaments_short (scale self) (sample_mod self) line rest
                c f n Hlen Hend) as [H | H]; rewrite H; auto.
  - intros Hall.
    rewrite (read_filaments_short_numeric (scale self) (sample_mod self) line
               rest c f n (conj Hlen Hall)).
    reflexivity.
Qed.

Lemma extract_filaments_short_line_witness :
  _extract_filaments
    ["periods 3"; "begin filament"; "mirror NIL"; "1.0 0.0 0.5 1.0";
     EmptyString; "end"]%string default_set
  = (default_set, Raise IndexError).
Proof.
  refine (proj2 (extract_filaments_short_line default_set
                   ["periods 3"; "begin filament"; "mirror NIL";
                    "1.0 0.0 0.5 1.0"; EmptyString; "end"]%string
                   ["1.0 0.0 0.5 1.0"%string] ["end"%string] EmptyString
                   _ _ _ _ _) _).
  - reflexivity.
  - cbn. lia.
  - constructor; [| constructor].
    unfold well_formed_line. do 9 eexists.
    repeat split; reflexivity.
  - cbn. lia.
  - cbn. discriminate.
  - constructor.
Defined.

(** ** Angles *)

Lemma mod_range (x m : R) : 0 < m -> 0 <= Np.mod_ x m < m.
Proof.
  intros Hm. unfold Np.mod_.
  destruct (base_Int_part (x / m)) as [H1 H2].
  set (k := IZR (Int_part (x / m))) in *.
  assert (Hx : x = x / m * m) by (field; lra).
  split; nra.
Qed.

Lemma div_bounds (x m a b : R) :
  0 < m -> a * m <= x < b * m -> a <= x / m < b.
Proof.
  intros Hm [H0 H1].
  assert (Hx : x = x / m * m) by (field; lra).
  set (q := x / m) in *. split; nra.
Qed.

Lemma mod_small (x m : R) : 0 <= x < m -> Np.mod_ x m = x.
Proof.
  intros [H0 H1]. unfold Np.mod_.
  assert (Hm : 0 < m) by lra.
  replace (Int_part (x / m)) with 0%Z; [lra |].
  apply Int_part_spec. cbn.
  destruct (div_bounds x m 0 1 Hm) as [H2 H3]; lra.
Qed.

Lemma mod_once (x m : R) : m <= x < 2 * m -> 0 < m -> Np.mod_ x m = x - m.
Proof.
  intros [H0 H1] Hm. unfold Np.mod_.
  replace (Int_part (x / m)) with 1%Z; [lra |].
  apply Int_part_spec. cbn.
  destruct (div_bounds x m 1 2 Hm) as [H2 H3]; lra.
Qed.

Lemma pi_pos : 0 < Np.pi.
Proof. pose proof pi_gt_3. lra. Qed.

(** A normalized angle lies in [0, 2 pi). *)
Lemma normalized_range (phi : R) : 0 <= normalized phi < 2 * Np.pi.
Proof. apply mod_range. pose proof pi_pos. lra. Qed.

Lemma normalized_nonneg (phi : R) :
  0 <= phi < 2 * Np.pi -> normalized phi = phi.
Proof.
  intros H. unfold normalized. pose proof pi_pos.
  rewrite mod_once; lra.
Qed.

Lemma normalized_neg (phi : R) :
  - (2 * Np.pi) <= phi < 0 -> normalized phi = phi + 2 * Np.pi.
Proof.
  intros H. unfold normalized. pose proof pi_pos.
  rewrite mod_small; lra.
Qed.

Lemma arctan2_right (y x : R) : 0 < x -> Np.arctan2 y x = atan (y / x).
Proof. intros H. unfold Np.arctan2. rewrite Rltb_true by lra. reflexivity. Qed.

Lemma arctan2_x_axis (x : R) : 0 < x -> Np.arctan2 0 x = 0.
Proof.
  intros H. rewrite arctan2_right by lra.
  replace (0 / x) with 0 by (field; lra). apply atan_0.
Qed.

Lemma arctan2_up (y : R) : 0 < y -> Np.arctan2 y 0 = Np.pi / 2.
Proof.
  intros H. unfold Np.arctan2.
  rewrite (Rltb_false 0 0), (Rltb_true 0 y) by lra. reflexivity.
Qed.

Lemma arctan2_down (y : R) : y < 0 -> Np.arctan2 y 0 = - (Np.pi / 2).
Proof.
  intros H. unfold Np.arctan2.
  rewrite (Rltb_false 0 0), (Rltb_false 0 y), (Rltb_true y 0) by lra.
  reflexivity.
Qed.

(** The tolerance of the window is positive and below pi for positive
    lengths. *)
Lemma tol_range (mag_len avg : R) :
  0 < mag_len -> 0 < avg -> 0 < tol mag_len avg < Np.pi.
Proof.
  intros Hl Ha. unfold tol. rewrite arctan2_right by lra.
  assert (H0 : 0 < mag_len / avg) by (apply Rdiv_lt_0_compat; lra).
  pose proof (atan_increasing 0 (mag_len / avg) H0) as H1.
  rewrite atan_0 in H1.
  pose proof (atan_bound (mag_len / avg)) as H2. unfold Np.pi. lra.
Qed.

(** ** The toroidal window *)

Lemma fold_left_Rmin_le (l : list R) (a : R) :
  fold_left Rmin l a <= a /\ Forall (fun x => fold_left Rmin l a <= x) l.
Proof.
  revert a. induction l as [| b l IH]; intros a; cbn.
  - split; [lra | constructor].
  - destruct (IH (Rmin a b)) as [H1 H2].
    pose proof (Rmin_l a b). pose proof (Rmin_r a b).
    split; [lra | constructor; [lra | exact H2]].
Qed.

Lemma fold_left_Rmin_in (l : list R) (a : R) :
  In (fold_left Rmin l a) (a :: l).
Proof.
  revert a. induction l as [| b l IH]; intros a; cbn.
  - left. reflexivity.
  - destruct (IH (Rmin a b)) as [H | H].
    + assert (Hc : Rmin a b = a \/ Rmin a b = b)
        by (unfold Rmin; destruct (Rle_dec a b); auto).
      destruct Hc as [Hc | Hc]; rewrite Hc in *; auto.
    + right. right. exact H.
Qed.

Lemma fold_left_Rmax_ge (l : list R) (a : R) :
  a <= fold_left Rmax l a /\ Forall (fun x => x <= fold_left Rmax l a) l.
Proof.
  revert a. induction l as [| b l IH]; intros a; cbn.
  - split; [lra | constructor].
  - destruct (IH (Rmax a b)) as [H1 H2].
    pose proof (Rmax_l a b). pose proof (Rmax_r a b).
    split; [lra | constructor; [lra | exact H2]].
Qed.

Lemma fold_left_Rmax_in (l : list R) (a : R) :
  In (fold_left Rmax l a) (a :: l).
Proof.
  revert a. induction l as [| b l IH]; intros a; cbn.
  - left. reflexivity.
  - destruct (IH (Rmax a b)) as [H | H].
    + assert (Hc : Rmax a b = a \/ Rmax a b = b)
        by (unfold Rmax; destruct (Rle_dec a b); auto).
      destruct Hc as [Hc | Hc]; rewrite Hc in *; auto.
    + right. right. exact H.
Qed.

Lemma np_min_spec (l : list R) (m : R) :
  Np.min l = Ok m -> In m l /\ Forall (fun x => m <= x) l.
Proof.
  destruct l as [| a l]; cbn; intros H; inversion H; subst.
  split; [apply fold_left_Rmin_in |].
  destruct (fold_left_Rmin_le l a). constructor; assumption.
Qed.

Lemma np_max_spec (l : list R) (m : R) :
  Np.max l = Ok m -> In m l /\ Forall (fun x => x <= m) l.
Proof.
  destruct l as [| a l]; cbn; intros H; inversion H; subst.
  split; [apply fold_left_Rmax_in |].
  destruct (fold_left_Rmax_ge l a). constructor; assumption.
Qed.

(** The two comparisons of the filter say that a normalized angle is in
    the window. *)
Lemma window_test (lo hi phi : R) :
  0 <= phi < 2 * Np.pi ->
  (Rleb lo phi || Rleb phi hi = true <-> in_window lo hi phi).
Proof.
  intros Hphi. unfold in_window.
  rewrite orb_true_iff, !Rleb_spec. split; intros [H | H]; lra.
Qed.

Lemma in_phi_pts (fil : filament) (phi : R) :
  In phi (phi_pts fil) ->
  exists p, In p fil /\ phi = normalized (toroidal_angle p).
Proof.
  unfold phi_pts. rewrite in_map_iff. intros (p & H1 & H2). eauto.
Qed.

(** What the test of the filter loop decides. *)
Lemma overlaps_spec (lo hi : R) (fil : filament) (b : bool) :
  overlaps lo hi fil = Ok b ->
  exists min_phi max_phi,
    Np.min (phi_pts fil) = Ok min_phi /\
    Np.max (phi_pts fil) = Ok max_phi /\
    (b = true <-> in_window lo hi min_phi \/ in_window lo hi max_phi) /\
    (b = true ->
     exists p, In p fil /\ in_window lo hi (normalized (toroidal_angle p))) /\
    (b = false ->
     forall p, In p fil -> ~ in_window lo hi (normalized (toroidal_angle p))).
Proof.
  unfold overlaps.
  destruct (Np.min (phi_pts fil)) as [mn |] eqn:Emin; [| discriminate].
  destruct (Np.max (phi_pts fil)) as [mx |] eqn:Emax; [| discriminate].
  cbn [rbind]. intros H. inversion H as [Hb]. clear H.
  exists mn, mx.
  destruct (np_min_spec _ _ Emin) as [Hin_mn Hle_mn].
  destruct (np_max_spec _ _ Emax) as [Hin_mx Hle_mx].
  destruct (in_phi_pts _ _ Hin_mn) as (pmn & Hpmn & Emn).
  destruct (in_phi_pts _ _ Hin_mx) as (pmx & Hpmx & Emx).
  assert (Rmn : 0 <= mn < 2 * Np.pi) by (subst mn; apply normalized_range).
  assert (Rmx : 0 <= mx < 2 * Np.pi) by (subst mx; apply normalized_range).
  assert (Hiff : (Rleb lo mn || Rleb mn hi) || (Rleb lo mx || Rleb mx hi) = true
                 <-> in_window lo hi mn \/ in_window lo hi mx).
  { rewrite orb_true_iff, (window_test lo hi mn Rmn),
      (window_test lo hi mx Rmx). reflexivity. }
  repeat split; try reflexivity.
  - intros Hb'. apply Hiff. rewrite Hb'. reflexivity.
  - intros Hw. apply Hiff in Hw. exact Hw.
  - intros Hb'. rewrite Hb' in Hiff. destruct (proj1 Hiff eq_refl) as [Hw | Hw].
    + exists pmn. split; [exact Hpmn | rewrite <- Emn; exact Hw].
    + exists pmx. split; [exact Hpmx | rewrite <- Emx; exact Hw].
  - intros Hb' p Hp Hw.
    assert (Hphi : In (normalized (toroidal_angle p)) (phi_pts fil)).
    { unfold phi_pts. apply in_map_iff. exists p. split; [reflexivity | exact Hp]. }
    pose proof (proj1 (Forall_forall _ _) Hle_mn _ Hphi) as H1.
    pose proof (proj1 (Forall_forall _ _) Hle_mx _ Hphi) as H2.
    cbn beta in H1, H2.
    assert (Hno : ~ (in_window lo hi mn \/ in_window lo hi mx)).
    { intros Hc. apply Hiff in Hc. rewrite Hb' in Hc. discriminate. }
    apply Hno. unfold in_window in *. destruct Hw as [Hw | Hw].
    + right. left. lra.
    + left. right. lra.
Qed.

(** The filter loop keeps the filaments the test accepts, in order. *)
Lemma select_spec (lo hi : R) (fils reduced : list filament)
    (coms : list point) :
  select lo hi fils = Ok (reduced, coms) ->
  Forall (fun fil => exists b, overlaps lo hi fil = Ok b) fils /\
  reduced = filter (fun fil => match overlaps lo hi fil with
                               | Ok b => b
                               | Raise _ => false
                               end) fils /\
  coms = map center_of_mass reduced.
Proof.
  revert reduced coms. induction fils as [| fil rest IH]; intros reduced coms.
  - cbn. intros H. inversion H. repeat split. constructor.
  - cbn [select filter].
    destruct (overlaps lo hi fil) as [keep |] eqn:E; [| discriminate].
    cbn [rbind].
    destruct (select lo hi rest) as [[r c] |] eqn:Er; [| discriminate].
    cbn [rbind]. destruct (IH r c eq_refl) as (H1 & H2 & H3).
    intros H. split; [constructor; eauto |].
    destruct keep; inversion H; subst; cbn; auto.
Qed.

(** C5.  A filament is retained by the toroidal-window filter exactly
    when its minimum or its maximum normalized point angle lies in
    [min_rad, 2 pi) U [0, max_rad], with min_rad = 2 pi - tol, max_rad =
    toroidal_extent + tol and tol = 2 atan2(mag_len,
    average_radial_distance); a retained filament has a point whose angle
    is in the window and a rejected one has none. *)
Theorem window_membership :
  forall (mag_len avg ext : R) (fils reduced : list filament)
         (coms : list point),
    let lo := 2 * Np.pi - 2 * Np.arctan2 mag_len avg in
    let hi := ext + 2 * Np.arctan2 mag_len avg in
    select (min_rad mag_len avg) (max_rad ext mag_len avg) fils
    = Ok (reduced, coms) ->
    forall fil, In fil fils ->
      exists min_phi max_phi,
        Np.min (phi_pts fil) = Ok min_phi /\
        Np.max (phi_pts fil) = Ok max_phi /\
        (In fil reduced <->
         in_window lo hi min_phi \/ in_window lo hi max_phi) /\
        (In fil reduced ->
         exists p, In p fil /\
                   in_window lo hi (normalized (toroidal_angle p))) /\
        (~ In fil reduced ->
         forall p, In p fil ->
                   ~ in_window lo hi (normalized (toroidal_angle p))).
Proof.
  intros mag_len avg ext fils reduced coms lo hi Hsel fil Hfil.
  change (min_rad mag_len avg) with lo in Hsel.
  change (max_rad ext mag_len avg) with hi in Hsel.
  destruct (select_spec _ _ _ _ _ Hsel) as (Hall & Hred & _).
  destruct (proj1 (Forall_forall _ _) Hall fil Hfil) as [b Hb].
  destruct (overlaps_spec _ _ _ _ Hb) as (mn & mx & Emn & Emx & H1 & H2 & H3).
  assert (Hin : In fil reduced <-> b = true).
  { rewrite Hred, filter_In, Hb. tauto. }
  exists mn, mx. repeat split; try assumption.
  - intros H. apply H1, Hin, H.
  - intros H. apply Hin, H1, H.
  - intros H. apply H2, Hin, H.
  - intros H. apply H3. destruct b; [exfalso; apply H, Hin; reflexivity |].
    reflexivity.
Qed.

(** ** Canonical start point and direction *)

Lemma z_ratio_negative_neq (p q : point) :
  z_ratio_negative p q = true -> p <> q.
Proof.
  unfold z_ratio_negative. intros H E. subst q.
  destruct (Reqb (pz p) 0) eqn:E0.
  - apply Reqb_spec in E0. apply Rltb_spec in H. lra.
  - apply Rltb_spec in H.
    assert (Hz : pz p <> 0).
    { intros Hz. rewrite (Reqb_true _ _ Hz) in E0. discriminate. }
    replace (pz p / pz p) with 1 in H by (field; exact Hz). lra.
Qed.

Lemma scan_cons (p q : point) (rest : filament) (index : nat)
    (mi : option nat) (mr : option R) :
  scan (p :: q :: rest) index mi mr
  = if z_ratio_negative p q then
      match mr with
      | None =>
          scan (q :: rest) (S index) (Some index) (Some (radial_distance p))
      | Some r =>
          if Rltb r (radial_distance p)
          then scan (q :: rest) (S index) (Some index)
                 (Some (radial_distance p))
          else scan (q :: rest) (S index) mi mr
      end
    else scan (q :: rest) (S index) mi mr.
Proof. reflexivity. Qed.

Lemma crossing_candidates_cons (p q : point) (rest : filament) :
  crossing_candidates (p :: q :: rest)
  = if z_ratio_negative p q then p :: crossing_candidates (q :: rest)
    else crossing_candidates (q :: rest).
Proof. reflexivity. Qed.

(** Once a start index is recorded the scan ends with one. *)
Lemma scan_keeps_index (pts : filament) (index i : nat) (r : option R) :
  exists j, fst (scan pts index (Some i) r) = Some j.
Proof.
  revert index i r. induction pts as [| p pts IH]; intros index i r.
  - cbn. eauto.
  - destruct pts as [| q pts']; [cbn; eauto |].
    rewrite scan_cons. destruct (z_ratio_negative p q).
    + destruct r as [r |]; [destruct (Rltb r (radial_distance p)) |];
        apply IH.
    + apply IH.
Qed.

Lemma scan_none (pts : filament) (index : nat) :
  fst (scan pts index None None) = None <-> crossing_candidates pts = [].
Proof.
  revert index. induction pts as [| p pts IH]; intros index.
  - cbn. tauto.
  - destruct pts as [| q pts']; [cbn; tauto |].
    rewrite scan_cons, crossing_candidates_cons.
    destruct (z_ratio_negative p q).
    + destruct (scan_keeps_index (q :: pts') (S index) index
                  (Some (radial_distance p))) as [j Hj].
      rewrite Hj. split; discriminate.
    + apply IH.
Qed.

(** The index the scan ends with is the one it was given or that of a
    crossing pair. *)
Lemma scan_index (pts : filament) (index : nat) (mi : option nat)
    (mr : option R) (i : nat) :
  fst (scan pts index mi mr) = Some i ->
  mi = Some i \/
  (index <= i)%nat /\
  exists p q, nth_error pts (i - index) = Some p /\
              nth_error pts (S (i - index)) = Some q /\
              z_ratio_negative p q = true.
Proof.
  revert index mi mr. induction pts as [| p pts IH]; intros index mi mr.
  - cbn. auto.
  - destruct pts as [| q pts']; [cbn; auto |].
    rewrite scan_cons.
    assert (Hshift : forall mi' mr',
               fst (scan (q :: pts') (S index) mi' mr') = Some i ->
               mi' = Some i \/
               (index <= i)%nat /\
               exists p0 q0, nth_error (p :: q :: pts') (i - index) = Some p0 /\
                             nth_error (p :: q :: pts') (S (i - index)) = Some q0 /\
                             z_ratio_negative p0 q0 = true).
    { intros mi' mr' H. destruct (IH _ _ _ H) as [Hm | (Hle & p0 & q0 & H1 & H2 & H3)];
        [left; exact Hm | right].
      split; [lia |]. exists p0, q0.
      replace (i - index)%nat with (S (i - S index)) by lia.
      cbn [nth_error]. auto. }
    destruct (z_ratio_negative p q) eqn:Ez.
    + assert (Hhere : forall mi', mi' = Some index ->
                 mi' = Some i ->
                 (index <= i)%nat /\
                 exists p0 q0, nth_error (p :: q :: pts') (i - index) = Some p0 /\
                               nth_error (p :: q :: pts') (S (i - index)) = Some q0 /\
                               z_ratio_negative p0 q0 = true).
      { intros mi' H1 H2. rewrite H1 in H2. inversion H2; subst.
        split; [lia |]. exists p, q. rewrite Nat.sub_diag. cbn. auto. }
      destruct mr as [r |]; [destruct (Rltb r (radial_distance p)) |];
        intros H; destruct (Hshift _ _ H) as [Hm | Hm]; auto;
        right; eapply Hhere; eauto.
    + intros H. destruct (Hshift _ _ H); auto.
Qed.

Lemma find_start_crossing (fil : filament) (i : nat) :
  find_start fil = Some i ->
  exists p q, nth_error fil i = Some p /\ nth_error fil (S i) = Some q /\
              z_ratio_negative p q = true.
Proof.
  unfold find_start. intros H.
  destruct (scan_index _ _ _ _ _ H) as [Hm | (_ & p & q & H1 & H2 & H3)];
    [discriminate |].
  rewrite Nat.sub_0_r in H1, H2. eauto.
Qed.

Lemma canonicalize_no_crossing (fil : filament) :
  crossing_candidates fil = [] ->
  canonicalize fil
  = Raise (if (2 <? length fil)%nat then TypeError else IndexError).
Proof.
  intros H.
  assert (Hs : find_start fil = None) by (apply scan_none; exact H).
  unfold canonicalize. rewrite Hs. unfold index.
  destruct (nth_error fil 2) as [p |] eqn:E.
  - assert (Hl : (2 < length fil)%nat) by (apply nth_error_Some; congruence).
    apply Nat.ltb_lt in Hl. rewrite Hl. reflexivity.
  - apply nth_error_None in E.
    assert (Hl : (2 <? length fil)%nat = false) by (apply Nat.ltb_ge; lia).
    rewrite Hl. reflexivity.
Qed.


(** ** Duplicate removal and closure *)

Lemma point_eqb_spec (p q : point) : point_eqb p q = true <-> p = q.
Proof.
  destruct p as [[x y] z], q as [[x' y'] z']. unfold point_eqb. cbn.
  rewrite !andb_true_iff, !Reqb_spec. split.
  - intros [[H1 H2] H3]. congruence.
  - intros H. inversion H. auto.
Qed.

Lemma existsb_point_eqb (p : point) (seen : filament) :
  existsb (point_eqb p) seen = true <-> In p seen.
Proof.
  rewrite existsb_exists. split.
  - intros (q & Hq & E). apply point_eqb_spec in E. subst. exact Hq.
  - intros H. exists p. split; [exact H | apply point_eqb_spec; reflexivity].
Qed.

(** Indexing by the sorted first-occurrence indices is duplicate removal
    in place. *)
Lemma take_first_indices (l seen pre : filament) :
  take (first_indices l seen (length pre)) (pre ++ l) = dedup l seen.
Proof.
  revert seen pre. induction l as [| p rest IH]; intros seen pre.
  - reflexivity.
  - cbn [first_indices dedup].
    assert (E : pre ++ p :: rest = (pre ++ [p]) ++ rest)
      by (rewrite <- app_assoc; reflexivity).
    assert (L : S (length pre) = length (pre ++ [p]))
      by (rewrite length_app; cbn; lia).
    destruct (existsb (point_eqb p) seen).
    + rewrite E, L. apply IH.
    + unfold take. cbn [map]. f_equal.
      * rewrite app_nth2 by lia. rewrite Nat.sub_diag. reflexivity.
      * rewrite E, L. apply IH.
Qed.

Lemma dedup_in (l seen : filament) (x : point) :
  In x (dedup l seen) <-> In x l /\ ~ In x seen.
Proof.
  revert seen. induction l as [| p rest IH]; intros seen.
  - cbn. tauto.
  - cbn [dedup]. destruct (existsb (point_eqb p) seen) eqn:E.
    + apply existsb_point_eqb in E. rewrite IH. cbn. split.
      * tauto.
      * intros [[H | H] Hn]; [subst; contradiction | tauto].
    + assert (Hp : ~ In p seen).
      { intros H. apply existsb_point_eqb in H. congruence. }
      cbn [In]. rewrite IH. cbn [In]. split.
      * intros [H | [H1 H2]]; [subst; tauto | tauto].
      * intros [[H | H] Hn]; [tauto |].
        destruct (point_eqb p x) eqn:Ex.
        -- apply point_eqb_spec in Ex. tauto.
        -- right. split; [exact H |]. intros [Hc | Hc]; [| tauto].
           subst. assert (Ht : point_eqb x x = true)
             by (apply point_eqb_spec; reflexivity). congruence.
Qed.

Lemma dedup_NoDup (l seen : filament) : NoDup (dedup l seen).
Proof.
  revert seen. induction l as [| p rest IH]; intros seen.
  - constructor.
  - cbn [dedup]. destruct (existsb (point_eqb p) seen); [apply IH |].
    constructor; [| apply IH].
    rewrite dedup_in. cbn. tauto.
Qed.

(** A duplicate-free list closed with its first point, when it has two
    points or more. *)
Lemma closed_polyline_close (d : filament) (first : point) :
  NoDup d -> (2 <= length d)%nat -> nth_error d 0 = Some first ->
  closed_polyline (d ++ [first]).
Proof.
  intros Hnd Hlen Hfirst. split.
  - exists first. split.
    + rewrite nth_error_app1 by lia. exact Hfirst.
    + rewrite length_app. cbn [length].
      replace (length d + 1 - 1)%nat with (length d) by lia.
      rewrite nth_error_app2 by lia. rewrite Nat.sub_diag. reflexivity.
  - intros i p q Hp Hq E. subst q.
    assert (Hi : (S i < length (d ++ [first]))%nat)
      by (apply nth_error_Some; congruence).
    rewrite length_app in Hi. cbn [length] in Hi.
    rewrite nth_error_app1 in Hp by lia.
    rewrite NoDup_nth_error in Hnd.
    destruct (Nat.eq_dec (S i) (length d)) as [El | El].
    + rewrite nth_error_app2 in Hq by lia.
      replace (S i - length d)%nat with 0%nat in Hq by lia.
      cbn in Hq. inversion Hq; subst p.
      assert (i = 0%nat) by (apply Hnd; [lia | congruence]). lia.
    + rewrite nth_error_app1 in Hq by lia.
      assert (i = S i) by (apply Hnd; [lia | congruence]). lia.
Qed.

Lemma in_rotation (fil : filament) (i : nat) (x : point) :
  In x (skipn i fil ++ firstn i fil) <-> In x fil.
Proof.
  rewrite <- (firstn_skipn i fil) at 3. rewrite !in_app_iff. tauto.
Qed.

Lemma two_distinct_length (d : filament) (p q : point) :
  In p d -> In q d -> p <> q -> (2 <= length d)%nat.
Proof.
  destruct d as [| a [| b d]]; cbn; intros Hp Hq Hn; [contradiction | | lia].
  destruct Hp as [Hp | []], Hq as [Hq | []]. congruence.
Qed.

(** What one pass of the loop leaves in a row. *)
Lemma canonicalize_closed (fil out : filament) :
  canonicalize fil = Ok out -> closed_polyline out.
Proof.
  unfold canonicalize.
  destruct (find_start fil) as [i |] eqn:Es.
  2:{ destruct (index fil 2); discriminate. }
  destruct (find_start_crossing _ _ Es) as (p & q & Hp & Hq & Hz).
  unfold index at 1 2. rewrite Nat.add_1_r, Hp, Hq. cbn [rbind from_index upto_index].
  set (r := if Rltb (pz q) (pz p)
            then rev (skipn i fil ++ firstn i fil)
            else skipn i fil ++ firstn i fil).
  assert (Hin : forall x, In x r <-> In x fil).
  { intros x. subst r. destruct (Rltb (pz q) (pz p)).
    - rewrite <- in_rev. apply in_rotation.
    - apply in_rotation. }
  pose proof (take_first_indices r [] []) as Ht. cbn [length app] in Ht.
  rewrite Ht.
  assert (Hlen : (2 <= length (dedup r []))%nat).
  { apply (two_distinct_length _ p q).
    - apply dedup_in. split; [| cbn; tauto].
      apply Hin. eapply nth_error_In, Hp.
    - apply dedup_in. split; [| cbn; tauto].
      apply Hin. eapply nth_error_In, Hq.
    - apply z_ratio_negative_neq, Hz. }
  unfold index. destruct (nth_error (dedup r []) 0) as [first |] eqn:Ef.
  2:{ apply nth_error_None in Ef. lia. }
  cbn [rbind]. unfold assign_row.
  destruct (length (dedup r [] ++ [first]) =? length fil)%nat.
  - intros H. inversion H; subst.
    apply closed_polyline_close; [apply dedup_NoDup | exact Hlen | exact Ef].
  - destruct (dedup r []) as [| a [| b d]]; cbn in Hlen; try lia.
    cbn. discriminate.
Qed.

Lemma canonicalize_all_closed (fils out : list filament) :
  canonicalize_all fils = Ok out -> Forall closed_polyline out.
Proof.
  revert out. induction fils as [| fil rest IH]; intros out.
  - cbn. intros H. inversion H. constructor.
  - cbn [canonicalize_all].
    destruct (canonicalize fil) as [fil' |] eqn:E; [| discriminate].
    destruct (canonicalize_all rest) as [rest' |]; [| discriminate].
    cbn [rbind]. intros H. inversion H; subst.
    constructor; [eapply canonicalize_closed, E | apply IH; reflexivity].
Qed.

(** ** Sorting *)

Lemma insert_in (k : R) (x : filament) (l : list (R * filament))
    (y : R * filament) :
  In y (insert k x l) <-> y = (k, x) \/ In y l.
Proof.
  induction l as [| [k' x'] l IH]; cbn.
  - split; intros [H | H]; auto.
  - destruct (Rleb k k'); cbn; [| rewrite IH]; split; intros H;
      intuition congruence.
Qed.

Lemma sort_in (l : list (R * filament)) (y : R * filament) :
  In y (sort l) <-> In y l.
Proof.
  induction l as [| [k x] l IH]; cbn; [tauto |].
  rewrite insert_in, IH. split; intros [H | H]; auto.
Qed.

Lemma sorted_zip_in (keys : list R) (fils out : list filament) :
  sorted_zip keys fils = Ok out ->
  forall fil, In fil out -> In fil fils.
Proof.
  unfold sorted_zip. destruct (has_tie _); [discriminate |].
  intros H fil Hin. inversion H; subst.
  apply in_map_iff in Hin. destruct Hin as ([k x] & E & Hin). cbn in E. subst x.
  apply (proj1 (sort_in _ _)) in Hin. eapply in_combine_r, Hin.
Qed.

Lemma filter_filaments_closed (mag_len avg ext : R)
    (fils out : list filament) :
  filter_filaments mag_len avg ext fils = Ok out ->
  Forall closed_polyline out.
Proof.
  unfold filter_filaments.
  destruct (check_rows fils); [| discriminate]. cbn [rbind].
  destruct (select _ _ fils) as [[reduced coms] |]; [| discriminate].
  cbn [rbind]. destruct (is_nil coms); [discriminate |].
  destruct (sorted_zip _ reduced) as [sorted1 |]; [| discriminate].
  cbn [rbind].
  destruct (canonicalize_all sorted1) as [canon |] eqn:Ec; [| discriminate].
  cbn [rbind]. intros H.
  apply canonicalize_all_closed in Ec.
  apply Forall_forall. intros fil Hin.
  eapply Forall_forall; [exact Ec |].
  eapply sorted_zip_in; eauto.
Qed.

(** C6.  Every filament that [_set_filtered_filaments] stores is a closed
    polyline: its first point equals its last point and no two consecutive
    points are equal. *)
Theorem filtered_filaments_closed :
  forall self self' : MagnetSet,
    _set_filtered_filaments self = (self', Ok tt) ->
    exists out, filtered_filaments self' = Some out /\
                Forall closed_polyline out.
Proof.
  intros self self'.
  unfold _set_filtered_filaments, bind, attr, lift, modify.
  destruct (mag_len self) as [len |]; [| discriminate].
  destruct (average_radial_distance self) as [avg |]; [| discriminate].
  destruct (number len) as [l |]; [| discriminate].
  destruct (_toroidal_extent self) as [ext |]; [| discriminate].
  destruct (filaments self) as [fils |]; [| discriminate].
  destruct (filter_filaments l avg ext fils) as [out |] eqn:E;
    [| discriminate].
  intros H. inversion H; subst. exists out. split; [reflexivity |].
  eapply filter_filaments_closed, E.
Qed.

(** ** Running the pipeline on given filaments *)

Lemma deg2rad_360 : Np.deg2rad 360 = 2 * Np.pi.
Proof. unfold Np.deg2rad. field. Qed.

Lemma init_configured :
  __init__ "coils.txt" [VStr "circle"; VNum 1] 360
    (mkKwargs None None (Some 1) None)
  = (configured, Ok tt) /\
  mag_len configured = Some (VNum 1) /\
  _toroidal_extent configured = Some (Np.deg2rad 360) /\
  sample_mod configured = 1%Z /\
  start_line configured = 3%Z /\
  scale configured = 1.
Proof.
  assert (H : Np.deg2rad 360 <= 360).
  { rewrite deg2rad_360. pose proof pi_le_4. lra. }
  assert (E : __init__ "coils.txt" [VStr "circle"; VNum 1] 360
                (mkKwargs None None (Some 1) None)
              = (set_defaults (mkKwargs None None (Some 1) None)
                   (set__toroidal_extent (Np.deg2rad 360)
                      (set_shape_fields (VStr "circle")
                         [Fmt (VStr "circle"); Lit " radius "; Fmt (VNum 1)]
                         (VNum 1)
                         (set__cross_section [VStr "circle"; VNum 1]
                            (set_coils_file "coils.txt" blank)))),
                 Ok tt)).
  { unfold __init__, cross_section_setter, bind at 1 2 3 4, modify at 1 2.
    rewrite extract_circle. unfold bind.
    rewrite (toroidal_extent_setter_accepts _ _ H). reflexivity. }
  unfold configured. rewrite E. repeat split.
Qed.

Lemma loaded_attrs (fils : list filament) :
  ndarray3 fils = true ->
  mag_len (loaded fils) = Some (VNum 1) /\
  _toroidal_extent (loaded fils) = Some (Np.deg2rad 360) /\
  filaments (loaded fils) = Some fils /\
  average_radial_distance (loaded fils)
  = Some (Np.average (map radial_distance (concat fils))).
Proof.
  intros H. destruct init_configured as (_ & H1 & H2 & _).
  unfold loaded, _set_average_radial_distance, bind, attr, modify.
  cbn [filaments set_filaments]. rewrite H. cbn. rewrite H1, H2.
  repeat split.
Qed.

Lemma loaded_unfiltered (fils : list filament) :
  ndarray3 fils = true -> filtered_filaments (loaded fils) = None.
Proof.
  intros H.
  destruct (init_parses_nothing "coils.txt" [VStr "circle"; VNum 1] 360
              (mkKwargs None None (Some 1) None) configured (Ok tt)
              (proj1 init_configured))
    as (_ & _ & H3).
  unfold loaded, _set_average_radial_distance, bind, attr, modify.
  cbn [filaments set_filaments]. rewrite H. cbn. exact H3.
Qed.

(** [_set_filtered_filaments] reads four attributes and stores what
    [filter_filaments] returns, or propagates what it raises. *)
Lemma set_filtered_filaments_run (self : MagnetSet) (len avg ext : R)
    (fils : list filament) :
  mag_len self = Some (VNum len) ->
  average_radial_distance self = Some avg ->
  _toroidal_extent self = Some ext ->
  filaments self = Some fils ->
  _set_filtered_filaments self
  = match filter_filaments len avg ext fils with
    | Ok out => (set_filtered_filaments out self, Ok tt)
    | Raise e => (self, Raise e)
    end.
Proof.
  intros H1 H2 H3 H4.
  unfold _set_filtered_filaments, bind, attr, lift, modify.
  rewrite H1, H2. cbn [number]. rewrite H3, H4.
  destruct (filter_filaments len avg ext fils); reflexivity.
Qed.

Lemma loaded_run (fils : list filament) :
  ndarray3 fils = true ->
  _set_filtered_filaments (loaded fils)
  = match filter_filaments 1
            (Np.average (map radial_distance (concat fils)))
            (Np.deg2rad 360) fils with
    | Ok out => (set_filtered_filaments out (loaded fils), Ok tt)
    | Raise e => (loaded fils, Raise e)
    end.
Proof.
  intros H. destruct (loaded_attrs fils H) as (H1 & H2 & H3 & H4).
  apply set_filtered_filaments_run; assumption.
Qed.

Lemma float_value (token : string) (m e : Z) (r : R) :
  parse_decimal token = Some (m, e) -> IZR m * powerRZ 10 e = r ->
  float token = Ok r.
Proof. intros H1 H2. unfold float. rewrite H1, H2. reflexivity. Qed.

(** One pass of the reading loop on a line of four numbers or more, with
    [sample_mod = 1]. *)
Lemma read_filaments_row (scale : R) (line : string) (data : list string)
    (coords : filament) (fils : list filament) (n : Z) (x y z s : R) :
  match split line with
  | c0 :: c1 :: c2 :: c3 :: _ =>
      float c0 = Ok x /\ float c1 = Ok y /\ float c2 = Ok z /\ float c3 = Ok s
  | _ => False
  end ->
  read_filaments scale 1 (line :: data) coords fils n
  = if Reqb s 0
    then read_filaments scale 1 data []
           (fils ++ [coords ++ [(x * scale, y * scale, z * scale)]]) 0%Z
    else read_filaments scale 1 data
           (coords ++ [(x * scale, y * scale, z * scale)]) fils (n + 1)%Z.
Proof.
  intros H. cbn [read_filaments].
  destruct (split line) as [| c0 [| c1 [| c2 [| c3 more]]]]; try contradiction.
  destruct H as (H0 & H1 & H2 & H3).
  cbn [index nth_error rbind].
  rewrite (float_ok_not_end _ _ H0), H0, H1, H2, H3. cbn [rbind].
  rewrite Z.mod_1_r. cbn [Z.eqb].
  destruct (Reqb s 0); reflexivity.
Qed.

(** The line [end] stops the reading. *)
Lemma read_filaments_end (scale : R) (sample_mod : Z) (data : list string)
    (coords : filament) (fils : list filament) (n : Z) :
  read_filaments scale sample_mod ("end"%string :: data) coords fils n
  = Ok fils.
Proof. reflexivity. Qed.

Ltac read_token :=
  eapply float_value; [vm_compute; reflexivity | cbn [powerRZ]; lra].

(** Reads the next line of the goal as the numbers [x y z s]. *)
Ltac read_row x y z s :=
  match goal with
  | |- context [read_filaments ?sc 1 (?line :: ?data) ?coords ?fils ?n] =>
      rewrite (read_filaments_row sc line data coords fils n x y z s);
      [ Rdecide
      | let t := eval vm_compute in (split line) in
        change (split line) with t; cbv iota beta;
        repeat split; read_token ]
  end.

(** [build_magnet_coils] on a configured object, once the file is known
    to hold the filaments [fils]. *)
Lemma build_run (file : list string) (fils : list filament) :
  read_filaments 1 1 (slice_from 3 file) [] [] 0 = Ok fils ->
  ndarray3 fils = true ->
  build_magnet_coils file configured = _set_filtered_filaments (loaded fils).
Proof.
  intros Hread Hnd.
  destruct init_configured as (_ & _ & _ & Hmod & Hline & Hscale).
  unfold build_magnet_coils, bind at 1 2, modify.
  unfold _extract_filaments.
  change (start_line (emit INFO ConstructingMagnetCoils configured))
    with (start_line configured).
  change (scale (emit INFO ConstructingMagnetCoils configured))
    with (scale configured).
  change (sample_mod (emit INFO ConstructingMagnetCoils configured))
    with (sample_mod configured).
  rewrite Hmod, Hline, Hscale, Hread.
  unfold bind, loaded.
  assert (E : _set_average_radial_distance
                (set_filaments fils
                   (emit INFO ConstructingMagnetCoils configured))
              = (set_average_radial_distance
                   (Np.average (map radial_distance (concat fils)))
                   (set_filaments fils
                      (emit INFO ConstructingMagnetCoils configured)),
                 Ok tt)).
  { unfold _set_average_radial_distance, bind, attr, modify.
    cbn [filaments set_filaments]. rewrite Hnd. reflexivity. }
  rewrite E. reflexivity.
Qed.

Lemma arctan2_pos (y x : R) : 0 < y -> 0 < Np.arctan2 y x.
Proof.
  intros Hy. unfold Np.arctan2. pose proof pi_pos as Hpi.
  destruct (Rltb 0 x) eqn:E1.
  - apply Rltb_spec in E1.
    assert (H0 : 0 < y / x) by (apply Rdiv_lt_0_compat; lra).
    pose proof (atan_increasing 0 (y / x) H0) as H1.
    rewrite atan_0 in H1. exact H1.
  - destruct (Rltb x 0) eqn:E2.
    + rewrite (Rleb_true 0 y) by lra.
      pose proof (atan_bound (y / x)) as H. unfold Np.pi in *. lra.
    + rewrite (Rltb_true 0 y) by lra. lra.
Qed.

(** With the whole torus as extent the window keeps every filament. *)
Lemma overlaps_whole_torus (mag_len avg : R) (fil : filament) :
  0 < mag_len -> fil <> [] ->
  overlaps (min_rad mag_len avg) (max_rad (Np.deg2rad 360) mag_len avg) fil
  = Ok true.
Proof.
  intros Hl Hfil. unfold overlaps.
  destruct (Np.min (phi_pts fil)) as [mn |] eqn:Emin.
  2:{ destruct fil; [contradiction | discriminate]. }
  destruct (Np.max (phi_pts fil)) as [mx |] eqn:Emax.
  2:{ destruct fil; [contradiction | discriminate]. }
  cbn [rbind].
  destruct (np_min_spec _ _ Emin) as [Hin _].
  destruct (in_phi_pts _ _ Hin) as (p & _ & E).
  pose proof (normalized_range (toroidal_angle p)) as Hr. rewrite <- E in Hr.
  pose proof (arctan2_pos mag_len avg Hl) as Ht.
  rewrite (Rleb_true mn (max_rad (Np.deg2rad 360) mag_len avg)).
  - rewrite orb_true_r. reflexivity.
  - unfold max_rad, tol. rewrite deg2rad_360. lra.
Qed.

Lemma select_whole_torus (mag_len avg : R) (fils : list filament) :
  0 < mag_len -> Forall (fun fil => fil <> []) fils ->
  select (min_rad mag_len avg) (max_rad (Np.deg2rad 360) mag_len avg) fils
  = Ok (fils, map center_of_mass fils).
Proof.
  intros Hl Hall. induction Hall as [| fil rest Hfil Hrest IH].
  - reflexivity.
  - cbn [select]. rewrite (overlaps_whole_torus _ _ _ Hl Hfil), IH.
    reflexivity.
Qed.

Lemma sorted_zip_one (k : R) (fil : filament) :
  sorted_zip [k] [fil] = Ok [fil].
Proof. reflexivity. Qed.

Lemma sorted_zip_ascending (k1 k2 : R) (a b : filament) :
  k1 < k2 -> sorted_zip [k1; k2] [a; b] = Ok [a; b].
Proof.
  intros H. unfold sorted_zip. cbn. Rdecide. cbn. Rdecide. reflexivity.
Qed.

Lemma sorted_zip_descending (k1 k2 : R) (a b : filament) :
  k2 < k1 -> sorted_zip [k1; k2] [a; b] = Ok [b; a].
Proof.
  intros H. unfold sorted_zip. cbn. Rdecide. cbn. Rdecide. reflexivity.
Qed.

Lemma sorted_zip_tie (k : R) (a b : filament) :
  sorted_zip [k; k] [a; b] = Raise ValueError.
Proof. unfold sorted_zip. cbn. Rdecide. reflexivity. Qed.

Lemma radial_distance_of (p : point) (r : R) :
  0 <= r -> px p ^ 2 + py p ^ 2 = r * r -> radial_distance p = r.
Proof.
  intros H0 H. unfold radial_distance. rewrite H. apply sqrt_square, H0.
Qed.

Lemma average_5 (a b c d e : R) :
  Np.average [a; b; c; d; e] = (a + b + c + d + e) / 5.
Proof. unfold Np.average, Np.sum. cbn. field. Qed.

(** ** A loop whose outboard crossing goes down *)

Lemma radial_distance_8 (z : R) : radial_distance (8, 0, z) = 8.
Proof. apply radial_distance_of; cbn; lra. Qed.

Lemma radial_distance_10 (z : R) : radial_distance (10, 0, z) = 10.
Proof. apply radial_distance_of; cbn; lra. Qed.

Ltac eval_scan :=
  unfold z_ratio_negative; cbn [pz snd fst];
  rewrite ?radial_distance_8, ?radial_distance_10; Rdecide.

Lemma downward_loop_candidates :
  crossing_candidates downward_loop = [(8, 0, -1); (10, 0, 1)] /\
  crossing_candidates downward_loop_out = [(8, 0, 1); (10, 0, -1)].
Proof.
  unfold downward_loop, downward_loop_out. cbn [crossing_candidates].
  eval_scan. split; reflexivity.
Qed.

Lemma downward_loop_start : find_start downward_loop = Some 2%nat.
Proof.
  unfold find_start, downward_loop. cbn [scan]. eval_scan.
  cbn [scan]. eval_scan. reflexivity.
Qed.

Lemma downward_loop_canonicalize :
  canonicalize downward_loop = Ok downward_loop_out.
Proof.
  unfold canonicalize. rewrite downward_loop_start. unfold downward_loop.
  cbn [from_index upto_index skipn firstn app index nth_error rbind Nat.add
       pz snd].
  Rdecide. cbn [rev app first_indices existsb].
  unfold point_eqb. cbn [px py pz fst snd]. Rdecide.
  reflexivity.
Qed.

Lemma downward_loop_filtered :
  _set_filtered_filaments (loaded [downward_loop])
  = (set_filtered_filaments [downward_loop_out] (loaded [downward_loop]),
     Ok tt).
Proof.
  rewrite loaded_run by reflexivity.
  unfold filter_filaments.
  change (check_rows [downward_loop]) with (Ok tt). cbn [rbind].
  rewrite select_whole_torus;
    [| lra | constructor; [discriminate | constructor]].
  cbn [rbind map is_nil]. rewrite sorted_zip_one. cbn [rbind canonicalize_all].
  rewrite downward_loop_canonicalize. cbn [rbind map].
  rewrite sorted_zip_one. reflexivity.
Qed.

Lemma downward_loop_file_read :
  read_filaments 1 1 (slice_from 3 downward_loop_file) [] [] 0
  = Ok [downward_loop].
Proof.
  change (slice_from 3 downward_loop_file)
    with ["8 0 -1 1"; "8 0 1 1"; "10 0 1 1"; "10 0 -1 1"; "8 0 -1 0 1 coil";
          "end"]%string.
  read_row 8 0 (-1) 1. read_row 8 0 1 1. read_row 10 0 1 1.
  read_row 10 0 (-1) 1. read_row 8 0 (-1) 0.
  rewrite read_filaments_end. cbn [app]. unfold downward_loop.
  repeat f_equal; lra.
Qed.

Lemma downward_loop_built :
  build_magnet_coils downward_loop_file configured
  = (set_filtered_filaments [downward_loop_out] (loaded [downward_loop]),
     Ok tt).
Proof.
  rewrite (build_run _ _ downward_loop_file_read eq_refl).
  exact downward_loop_filtered.
Qed.

(** C2.  On the loop whose outboard crossing goes down, the filament
    stored starts at (8, 0, 1), at radial distance 8, although (10, 0, 1),
    at radial distance 10, is a z-sign-crossing candidate of the filament
    read and (10, 0, -1) one of the filament stored: the start point is not
    of maximum radial distance among the candidates. *)
Theorem start_point_not_outboard :
  build_magnet_coils downward_loop_file configured
  = (set_filtered_filaments [downward_loop_out] (loaded [downward_loop]),
     Ok tt) /\
  hd_error downward_loop_out = Some (8, 0, 1) /\
  In (10, 0, 1) (crossing_candidates downward_loop) /\
  In (10, 0, -1) (crossing_candidates downward_loop_out) /\
  radial_distance (8, 0, 1) < radial_distance (10, 0, 1) /\
  radial_distance (8, 0, 1) < radial_distance (10, 0, -1) /\
  ~ (forall c, In c (crossing_candidates downward_loop) ->
               radial_distance c <= radial_distance (8, 0, 1)) /\
  ~ (forall c, In c (crossing_candidates downward_loop_out) ->
               radial_distance c <= radial_distance (8, 0, 1)).
Proof.
  destruct downward_loop_candidates as [E1 E2].
  split; [exact downward_loop_built |].
  split; [reflexivity |].
  rewrite E1, E2, !radial_distance_8.
  assert (H1 : In (10, 0, 1) [(8, 0, -1); (10, 0, 1)]) by (cbn; auto).
  assert (H2 : In (10, 0, -1) [(8, 0, 1); (10, 0, -1)]) by (cbn; auto).
  repeat split; try assumption; try (rewrite radial_distance_10; lra).
  - intros H. specialize (H _ H1). rewrite radial_distance_10 in H. lra.
  - intros H. specialize (H _ H2). rewrite radial_distance_10 in H. lra.
Qed.

(** C3.  On the same loop the filament stored goes down after its start:
    the z of its second point, -1, is below the z of its first, 1. *)
Theorem direction_not_increasing :
  build_magnet_coils downward_loop_file configured
  = (set_filtered_filaments [downward_loop_out] (loaded [downward_loop]),
     Ok tt) /\
  nth_error downward_loop_out 0 = Some (8, 0, 1) /\
  nth_error downward_loop_out 1 = Some (8, 0, -1) /\
  ~ pz (8, 0, -1) >= pz (8, 0, 1).
Proof.
  split; [exact downward_loop_built |].
  repeat split. cbn. lra.
Qed.

(** ** Two coils on either side of the x axis *)

Lemma radial_distance_south_10 (z : R) : radial_distance (0, -10, z) = 10.
Proof. apply radial_distance_of; cbn; lra. Qed.

Lemma radial_distance_south_8 (z : R) : radial_distance (0, -8, z) = 8.
Proof. apply radial_distance_of; cbn; lra. Qed.

Lemma coil_east_angle : toroidal_angle (center_of_mass coil_east) = 0.
Proof.
  unfold toroidal_angle, center_of_mass, coil_east. cbn [px py fst snd map].
  rewrite !average_5.
  replace ((0 + 0 + 0 + 0 + 0) / 5) with 0 by lra.
  apply arctan2_x_axis. lra.
Qed.

Lemma coil_south_angle :
  toroidal_angle (center_of_mass coil_south) = - (Np.pi / 2).
Proof.
  unfold toroidal_angle, center_of_mass, coil_south. cbn [px py fst snd map].
  rewrite !average_5.
  replace ((0 + 0 + 0 + 0 + 0) / 5) with 0 by lra.
  apply arctan2_down. lra.
Qed.

Lemma coil_east_normalized :
  normalized (toroidal_angle (center_of_mass coil_east)) = 0.
Proof.
  rewrite coil_east_angle. apply normalized_nonneg. pose proof pi_pos. lra.
Qed.

Lemma coil_south_normalized :
  normalized (toroidal_angle (center_of_mass coil_south)) = 3 * Np.pi / 2.
Proof.
  rewrite coil_south_angle, normalized_neg; pose proof pi_pos; lra.
Qed.

Lemma coil_east_canonicalize : canonicalize coil_east = Ok coil_east.
Proof.
  assert (Hs : find_start coil_east = Some 0%nat).
  { unfold find_start, coil_east. cbn [scan]. eval_scan.
    cbn [scan]. eval_scan. reflexivity. }
  unfold canonicalize. rewrite Hs. unfold coil_east.
  cbn [from_index upto_index skipn firstn app index nth_error rbind Nat.add
       pz snd].
  Rdecide. cbn [first_indices existsb].
  unfold point_eqb. cbn [px py pz fst snd]. Rdecide.
  reflexivity.
Qed.

Lemma coil_south_canonicalize : canonicalize coil_south = Ok coil_south.
Proof.
  assert (Hs : find_start coil_south = Some 0%nat).
  { unfold find_start, coil_south. cbn [scan].
    unfold z_ratio_negative. cbn [pz snd fst].
    rewrite ?radial_distance_south_10, ?radial_distance_south_8. Rdecide.
    cbn [scan]. rewrite ?radial_distance_south_10, ?radial_distance_south_8.
    Rdecide. reflexivity. }
  unfold canonicalize. rewrite Hs. unfold coil_south.
  cbn [from_index upto_index skipn firstn app index nth_error rbind Nat.add
       pz snd].
  Rdecide. cbn [first_indices existsb].
  unfold point_eqb. cbn [px py pz fst snd]. Rdecide.
  reflexivity.
Qed.





(** ** The order of the stored sequence *)

Lemma insert_perm (k : R) (x : filament) (l : list (R * filament)) :
  Permutation (insert k x l) ((k, x) :: l).
Proof.
  induction l as [| [k' x'] l IH]; cbn.
  - apply Permutation_refl.
  - destruct (Rleb k k').
    + apply Permutation_refl.
    + eapply Permutation_trans; [apply perm_skip, IH | apply perm_swap].
Qed.

Lemma sort_perm (l : list (R * filament)) : Permutation (sort l) l.
Proof.
  induction l as [| [k x] l IH]; cbn.
  - apply Permutation_refl.
  - eapply Permutation_trans; [apply insert_perm | apply perm_skip, IH].
Qed.

Lemma insert_sorted (k : R) (x : filament) (l : list (R * filament)) :
  StronglySorted key_le l -> StronglySorted key_le (insert k x l).
Proof.
  intros H. induction H as [| [k' x'] l Hs IH Hall]; cbn.
  - constructor; constructor.
  - destruct (Rleb k k') eqn:E.
    + apply Rleb_spec in E. constructor.
      * constructor; assumption.
      * constructor; [exact E |].
        eapply Forall_impl; [| exact Hall].
        intros [k2 x2]. unfold key_le. cbn. lra.
    + assert (Hlt : k' < k).
      { destruct (Rle_dec k k') as [Hle | Hn]; [| lra].
        rewrite (Rleb_true _ _ Hle) in E. discriminate. }
      constructor; [exact IH |].
      apply Forall_forall. intros y Hy. apply insert_in in Hy.
      destruct Hy as [Hy | Hy].
      * subst y. unfold key_le. cbn. lra.
      * eapply Forall_forall in Hall; eauto.
Qed.

Lemma sort_sorted (l : list (R * filament)) : StronglySorted key_le (sort l).
Proof.
  induction l as [| [k x] l IH]; cbn.
  - constructor.
  - apply insert_sorted, IH.
Qed.

Lemma existsb_Reqb (k : R) (l : list R) :
  existsb (Reqb k) l = true <-> In k l.
Proof.
  rewrite existsb_exists. split.
  - intros (x & Hx & E). apply Reqb_spec in E. subst. exact Hx.
  - intros H. exists k. split; [exact H | apply Reqb_spec; reflexivity].
Qed.

Lemma has_tie_NoDup (keys : list R) : has_tie keys = false <-> NoDup keys.
Proof.
  induction keys as [| k rest IH]; cbn.
  - split; [constructor | reflexivity].
  - rewrite orb_false_iff, IH. split.
    + intros [H1 H2]. constructor; [| exact H2].
      intros Hin. apply existsb_Reqb in Hin. congruence.
    + intros H. inversion H as [| ? ? Hn Hnd]; subst. split; [| exact Hnd].
      destruct (existsb (Reqb k) rest) eqn:E; [| reflexivity].
      apply existsb_Reqb in E. contradiction.
Qed.

Lemma combine_map_key (f : filament -> R) (fils : list filament)
    (y : R * filament) :
  In y (combine (map f fils) fils) -> fst y = f (snd y).
Proof.
  induction fils as [| a fils IH]; cbn; [tauto |].
  intros [H | H]; [subst; reflexivity | apply IH, H].
Qed.

Lemma map_snd_combine_map (f : filament -> R) (fils : list filament) :
  map snd (combine (map f fils) fils) = fils.
Proof. induction fils as [| a fils IH]; cbn; [| rewrite IH]; reflexivity. Qed.

Lemma map_fst_combine_map (f : filament -> R) (fils : list filament) :
  map fst (combine (map f fils) fils) = map f fils.
Proof. induction fils as [| a fils IH]; cbn; [| rewrite IH]; reflexivity. Qed.

(** Sorted by key and free of equal keys is strictly sorted. *)
Lemma sorted_strict (f : filament -> R) (l : list (R * filament)) :
  StronglySorted key_le l -> NoDup (map fst l) ->
  (forall y, In y l -> fst y = f (snd y)) ->
  StronglySorted (fun a b => f a < f b) (map snd l).
Proof.
  intros Hs. induction Hs as [| [k x] l Hs IH Hall]; intros Hnd Hkey; cbn.
  - constructor.
  - inversion Hnd as [| ? ? Hn Hnd']; subst.
    constructor.
    + apply IH; [exact Hnd' |]. intros y Hy. apply Hkey. right. exact Hy.
    + apply Forall_forall. intros b Hb. apply in_map_iff in Hb.
      destruct Hb as ([k2 x2] & E & Hin). cbn in E. subst x2.
      assert (Hne : k <> k2).
      { intros Ek. apply Hn. rewrite Ek.
        apply in_map_iff. exists (k2, b). split; [reflexivity | exact Hin]. }
      pose proof (Hkey (k, x) (or_introl eq_refl)) as H1.
      pose proof (Hkey (k2, b) (or_intror Hin)) as H2. cbn in H1, H2.
      eapply Forall_forall in Hall; [| exact Hin]. unfold key_le in Hall.
      cbn in Hall. lra.
Qed.

(** What a sort by the key [f] returns: the same filaments, strictly
    ascending in [f]; it raises when two keys are equal. *)
Lemma sorted_zip_by_key (f : filament -> R) (fils : list filament) :
  (forall out, sorted_zip (map f fils) fils = Ok out ->
     StronglySorted (fun a b => f a < f b) out /\ Permutation out fils) /\
  (~ NoDup (map f fils) -> sorted_zip (map f fils) fils = Raise ValueError) /\
  (NoDup (map f fils) -> exists out, sorted_zip (map f fils) fils = Ok out).
Proof.
  unfold sorted_zip. rewrite map_fst_combine_map.
  destruct (has_tie (map f fils)) eqn:E.
  - repeat split; try discriminate.
    intros Hnd. apply has_tie_NoDup in Hnd. congruence.
  - apply has_tie_NoDup in E. split; [| split].
    + intros out H. inversion H; subst. split.
      * apply sorted_strict.
        -- apply sort_sorted.
        -- eapply Permutation_NoDup; [| exact E].
           rewrite <- (map_fst_combine_map f fils) at 1.
           apply Permutation_map, Permutation_sym, sort_perm.
        -- intros y Hy. apply (proj1 (sort_in _ _)) in Hy.
           eapply combine_map_key, Hy.
      * eapply Permutation_trans; [apply Permutation_map, sort_perm |].
        rewrite map_snd_combine_map. apply Permutation_refl.
    + intros Hn. contradiction.
    + intros _. eauto.
Qed.



(** Two coils with the same center of mass: the first sort already
    raises, and nothing is stored. *)
Lemma equal_angles_raise :
  _set_filtered_filaments (loaded [coil_east; coil_east])
  = (loaded [coil_east; coil_east], Raise ValueError).
Proof.
  rewrite loaded_run by reflexivity.
  unfold filter_filaments.
  change (check_rows [coil_east; coil_east]) with (Ok tt). cbn [rbind].
  rewrite select_whole_torus;
    [| lra | repeat constructor; discriminate].
  cbn [rbind map is_nil]. rewrite sorted_zip_tie. reflexivity.
Qed.


(** ** A loop above the midplane *)

Lemma upper_loop_no_crossing : crossing_candidates upper_loop = [].
Proof.
  unfold upper_loop. cbn [crossing_candidates]. eval_scan. reflexivity.
Qed.


Lemma upper_loop_file_read :
  read_filaments 1 1 (slice_from 3 upper_loop_file) [] [] 0
  = Ok [upper_loop].
Proof.
  change (slice_from 3 upper_loop_file)
    with ["10 0 1 1"; "10 0 2 1"; "8 0 2 1"; "8 0 1 1"; "10 0 1 0 1 coil";
          "end"]%string.
  read_row 10 0 1 1. read_row 10 0 2 1. read_row 8 0 2 1.
  read_row 8 0 1 1. read_row 10 0 1 0.
  rewrite read_filaments_end. cbn [app]. unfold upper_loop.
  repeat f_equal; lra.
Qed.

(** [build_magnet_coils] on the loop above the midplane: the loop is kept
    by the window, and changing its start point raises the TypeError;
    [filtered_filaments] stays unassigned. *)
Lemma upper_loop_built :
  build_magnet_coils upper_loop_file configured
  = (loaded [upper_loop], Raise TypeError) /\
  filtered_filaments (loaded [upper_loop]) = None.
Proof.
  split.
  - rewrite (build_run _ _ upper_loop_file_read eq_refl).
    rewrite loaded_run by reflexivity.
    unfold filter_filaments.
    change (check_rows [upper_loop]) with (Ok tt). cbn [rbind].
    rewrite select_whole_torus;
      [| lra | constructor; [discriminate | constructor]].
    cbn [rbind map is_nil]. rewrite sorted_zip_one.
    cbn [rbind canonicalize_all].
    rewrite (canonicalize_no_crossing upper_loop upper_loop_no_crossing).
    reflexivity.
  - apply loaded_unfiltered. reflexivity.
Qed.

Lemma filtered_filaments_closed_witness :
  exists out,
    filtered_filaments
      (set_filtered_filaments [downward_loop_out] (loaded [downward_loop]))
    = Some out /\
    Forall closed_polyline out.
Proof.
  exact (filtered_filaments_closed (loaded [downward_loop]) _
           downward_loop_filtered).
Defined.

(** ** A quarter of the torus *)

Lemma phi_pts_east : phi_pts coil_east = [0; 0; 0; 0; 0].
Proof.
  unfold phi_pts, coil_east, toroidal_angle. cbn [map px py fst snd].
  rewrite !arctan2_x_axis by lra.
  rewrite normalized_nonneg by (pose proof pi_pos; lra). reflexivity.
Qed.

Lemma phi_pts_south :
  phi_pts coil_south
  = [3 * Np.pi / 2; 3 * Np.pi / 2; 3 * Np.pi / 2; 3 * Np.pi / 2;
     3 * Np.pi / 2].
Proof.
  unfold phi_pts, coil_south, toroidal_angle. cbn [map px py fst snd].
  rewrite !arctan2_down by lra.
  rewrite normalized_neg by (pose proof pi_pos; lra).
  replace (- (Np.pi / 2) + 2 * Np.pi) with (3 * Np.pi / 2) by lra.
  reflexivity.
Qed.

(** The tolerance for a coil of radius 1 at an average distance of 9. *)
Lemma tol_1_9 : 0 < tol 1 9 < Np.pi / 2.
Proof.
  unfold tol. rewrite arctan2_right by lra.
  assert (H0 : 0 < 1 / 9) by lra. assert (H1 : 1 / 9 < 1) by lra.
  pose proof (atan_increasing _ _ H0) as A0. rewrite atan_0 in A0.
  pose proof (atan_increasing _ _ H1) as A1. rewrite atan_1 in A1.
  unfold Np.pi. lra.
Qed.

Lemma fold_min_same (x : R) : Rmin x x = x.
Proof. unfold Rmin. destruct (Rle_dec x x); reflexivity. Qed.

Lemma fold_max_same (x : R) : Rmax x x = x.
Proof. unfold Rmax. destruct (Rle_dec x x); reflexivity. Qed.

(** With an extent of 90 degrees the window keeps the coil at angle 0 and
    rejects the one at 3 pi/2. *)
Lemma select_quarter :
  select (min_rad 1 9) (max_rad (Np.deg2rad 90) 1 9) [coil_east; coil_south]
  = Ok ([coil_east], [center_of_mass coil_east]).
Proof.
  pose proof pi_pos as Hpi. pose proof tol_1_9 as Ht.
  assert (E90 : Np.deg2rad 90 = Np.pi / 2) by (unfold Np.deg2rad; field).
  cbn [select]. unfold overlaps. rewrite phi_pts_east, phi_pts_south.
  cbn [Np.min Np.max fold_left]. rewrite !fold_min_same, !fold_max_same.
  cbn [rbind]. unfold min_rad, max_rad. rewrite E90.
  Rdecide. reflexivity.
Qed.

Lemma window_membership_witness :
  exists min_phi max_phi,
    Np.min (phi_pts coil_south) = Ok min_phi /\
    Np.max (phi_pts coil_south) = Ok max_phi /\
    (In coil_south [coil_east] <->
     in_window (2 * Np.pi - 2 * Np.arctan2 1 9)
       (Np.deg2rad 90 + 2 * Np.arctan2 1 9) min_phi \/
     in_window (2 * Np.pi - 2 * Np.arctan2 1 9)
       (Np.deg2rad 90 + 2 * Np.arctan2 1 9) max_phi) /\
    (In coil_south [coil_east] ->
     exists p, In p coil_south /\
               in_window (2 * Np.pi - 2 * Np.arctan2 1 9)
                 (Np.deg2rad 90 + 2 * Np.arctan2 1 9)
                 (normalized (toroidal_angle p))) /\
    (~ In coil_south [coil_east] ->
     forall p, In p coil_south ->
               ~ in_window (2 * Np.pi - 2 * Np.arctan2 1 9)
                   (Np.deg2rad 90 + 2 * Np.arctan2 1 9)
                   (normalized (toroidal_angle p))).
Proof.
  exact (window_membership 1 9 (Np.deg2rad 90) [coil_east; coil_south]
           [coil_east] [center_of_mass coil_east] select_quarter
           coil_south (or_intror (or_introl eq_refl))).
Defined.

(** ** What the start-point scan selects *)

(** The scan ends with a radius that bounds the one it was given and that
    of every crossing candidate, and that is the radial distance of the
    point at the index it ends with. *)
Lemma scan_invariant (pts : filament) :
  forall (index : nat) (mi : option nat) (mr : option R)
         (i' : option nat) (r' : option R),
    scan pts index mi mr = (i', r') ->
    (forall r0, mr = Some r0 -> exists r1, r' = Some r1 /\ r0 <= r1) /\
    (forall c, In c (crossing_candidates pts) ->
               exists r1, r' = Some r1 /\ radial_distance c <= r1) /\
    ((i' = mi /\ r' = mr) \/
     exists i p, i' = Some i /\ (index <= i)%nat /\
                 nth_error pts (i - index) = Some p /\
                 r' = Some (radial_distance p)).
Proof.
  induction pts as [| p pts IH]; intros index mi mr i' r'.
  - cbn. intros H. inversion H; subst.
    split; [intros r0 E; exists r0; split; [exact E | lra] |].
    split; [intros c [] | left; split; reflexivity].
  - destruct pts as [| q pts'].
    { cbn. intros H. inversion H; subst.
      split; [intros r0 E; exists r0; split; [exact E | lra] |].
      split; [intros c [] | left; split; reflexivity]. }
    rewrite scan_cons, crossing_candidates_cons.
    assert (Hshift :
               (exists i p0, i' = Some i /\ (S index <= i)%nat /\
                   nth_error (q :: pts') (i - S index) = Some p0 /\
                   r' = Some (radial_distance p0)) ->
               exists i p0, i' = Some i /\ (index <= i)%nat /\
                   nth_error (p :: q :: pts') (i - index) = Some p0 /\
                   r' = Some (radial_distance p0)).
    { intros (i & p0 & H1 & H2 & H3 & H4). exists i, p0.
      repeat split; [exact H1 | lia | | exact H4].
      replace (i - index)%nat with (S (i - S index)) by lia. exact H3. }
    assert (Hhere : i' = Some index -> r' = Some (radial_distance p) ->
               exists i p0, i' = Some i /\ (index <= i)%nat /\
                   nth_error (p :: q :: pts') (i - index) = Some p0 /\
                   r' = Some (radial_distance p0)).
    { intros H1 H2. exists index, p. rewrite Nat.sub_diag. auto. }
    destruct (z_ratio_negative p q).
    + destruct mr as [r |].
      * destruct (Rltb r (radial_distance p)) eqn:Er; intros H;
          destruct (IH _ _ _ _ _ H) as (I1 & I2 & I3).
        -- apply Rltb_spec in Er.
           destruct (I1 _ eq_refl) as (r1 & E1 & L1).
           split; [| split].
           ++ intros r0 E0. inversion E0; subst. exists r1. split; [auto | lra].
           ++ intros c [Hc | Hc]; [subst; eauto | auto].
           ++ right. destruct I3 as [[Ha Hb] | I3];
                [apply Hhere; assumption | apply Hshift; exact I3].
        -- assert (Hle : radial_distance p <= r).
           { destruct (Rlt_dec r (radial_distance p)) as [Hlt | Hn]; [| lra].
             rewrite (Rltb_true _ _ Hlt) in Er. discriminate. }
           destruct (I1 _ eq_refl) as (r1 & E1 & L1).
           split; [| split].
           ++ exact I1.
           ++ intros c [Hc | Hc]; [subst; exists r1; split; [auto | lra] | auto].
           ++ destruct I3 as [I3 | I3];
                [left; exact I3 | right; apply Hshift; exact I3].
      * intros H. destruct (IH _ _ _ _ _ H) as (I1 & I2 & I3).
        destruct (I1 _ eq_refl) as (r1 & E1 & L1).
        split; [| split].
        -- intros r0 E0. discriminate.
        -- intros c [Hc | Hc]; [subst; eauto | auto].
        -- right. destruct I3 as [[Ha Hb] | I3];
             [apply Hhere; assumption | apply Hshift; exact I3].
    + intros H. destruct (IH _ _ _ _ _ H) as (I1 & I2 & I3).
      split; [exact I1 | split; [exact I2 |]].
      destruct I3 as [I3 | I3];
        [left; exact I3 | right; apply Hshift; exact I3].
Qed.

(** The index selected is that of a crossing candidate of maximum radial
    distance. *)
Lemma find_start_outboard (fil : filament) (i : nat) (p : point) :
  find_start fil = Some i -> nth_error fil i = Some p ->
  forall c, In c (crossing_candidates fil) ->
            radial_distance c <= radial_distance p.
Proof.
  unfold find_start. intros Hs Hp c Hc.
  destruct (scan fil 0 None None) as [i' r'] eqn:E. cbn in Hs. subst i'.
  destruct (scan_invariant _ _ _ _ _ _ E) as (_ & I2 & I3).
  destruct I3 as [[Ha _] | (i0 & p0 & E0 & _ & Hn & Er)]; [discriminate |].
  inversion E0; subst i0. rewrite Nat.sub_0_r, Hp in Hn. inversion Hn; subst p0.
  destruct (I2 c Hc) as (r1 & E1 & L1). rewrite Er in E1.
  inversion E1; subst. exact L1.
Qed.

Lemma skipn_two (fil : filament) (i : nat) (p q : point) :
  nth_error fil i = Some p -> nth_error fil (S i) = Some q ->
  exists rest, skipn i fil = p :: q :: rest.
Proof.
  revert fil. induction i as [| i IH]; intros fil Hp Hq.
  - destruct fil as [| a [| b rest]]; cbn in *; try discriminate.
    inversion Hp; inversion Hq; subst. eauto.
  - destruct fil as [| a fil]; [discriminate |]. cbn in *. apply IH; assumption.
Qed.

(** When the direction test does not reverse the rotated filament, the
    filament stored starts at the outboard-most crossing candidate and its
    second point is not lower than its first. *)
Lemma canonicalize_not_reversed (fil out : filament) (i : nat) (p q : point) :
  find_start fil = Some i ->
  nth_error fil i = Some p -> nth_error fil (S i) = Some q ->
  pz p <= pz q ->
  canonicalize fil = Ok out ->
  nth_error out 0 = Some p /\ nth_error out 1 = Some q /\
  pz p <= pz q /\
  forall c, In c (crossing_candidates fil) ->
            radial_distance c <= radial_distance p.
Proof.
  intros Hs Hp Hq Hz Hc.
  assert (Hmax := find_start_outboard fil i p Hs Hp).
  destruct (find_start_crossing _ _ Hs) as (p' & q' & Hp' & Hq' & Hcross).
  rewrite Hp in Hp'. rewrite Hq in Hq'. inversion Hp'; inversion Hq'; subst p' q'.
  assert (Hne : p <> q) by (apply z_ratio_negative_neq, Hcross).
  revert Hc. unfold canonicalize. rewrite Hs.
  unfold index at 1 2. rewrite Nat.add_1_r, Hp, Hq.
  cbn [rbind from_index upto_index].
  rewrite (Rltb_false (pz q) (pz p)) by lra.
  destruct (skipn_two fil i p q Hp Hq) as [rest Er]. rewrite Er.
  cbn [app].
  pose proof (take_first_indices (p :: q :: rest ++ firstn i fil) [] [])
    as Ht. cbn [length app] in Ht. rewrite Ht.
  cbn [dedup existsb].
  assert (Eqp : point_eqb q p = false).
  { destruct (point_eqb q p) eqn:E; [| reflexivity].
    apply point_eqb_spec in E. congruence. }
  rewrite Eqp. cbn [orb index nth_error rbind app].
  unfold assign_row.
  destruct (length _ =? length fil)%nat.
  - intros H. inversion H; subst. cbn. auto.
  - destruct (dedup (rest ++ firstn i fil) [q; p]); discriminate.
Qed.

(** * Further properties *)

(** ** Which cross-sections are accepted *)

Lemma value_eqb_str (v : value) (s : string) :
  value_eqb v (VStr s) = true <-> v = VStr s.
Proof.
  destruct v as [t | r]; cbn.
  - rewrite String.eqb_eq. split; intros H; [subst | inversion H]; reflexivity.
  - split; intros H; discriminate.
Qed.

(** The outcome of the setter, by the shape tag and the number of entries
    after it. *)
Lemma cross_section_setter_outcome (self : MagnetSet) (v : list value) :
  snd (cross_section_setter v self)
  = match v with
    | [] => Raise IndexError
    | shape :: dims =>
        if value_eqb shape (VStr "circle") then
          match dims with
          | [] => Raise ValueError
          | _ :: _ => Ok tt
          end
        else if value_eqb shape (VStr "rectangle") then
          match dims with
          | [w; t] => match py_max w t with
                      | Ok _ => Ok tt
                      | Raise e => Raise e
                      end
          | _ => Raise ValueError
          end
        else Raise ValueError
    end.
Proof.
  unfold cross_section_setter, _extract_cross_section, log_and_raise, bind,
    attr, item, lift, modify, ret, raise.
  cbn [_cross_section set__cross_section].
  destruct v as [| shape dims]; [reflexivity |].
  cbn [nth_error].
  destruct (value_eqb shape (VStr "circle")).
  - destruct dims as [| d1 [| d2 dims]]; reflexivity.
  - destruct (value_eqb shape (VStr "rectangle")); [| reflexivity].
    destruct dims as [| w [| t [| d3 dims]]]; try reflexivity.
    cbn. destruct (py_max w t); reflexivity.
Qed.

(** X1.  The [cross_section] setter accepts exactly the lists that start
    with "circle" and have at least one more entry, and the lists
    ["rectangle", w, t] whose two dimensions can be compared by [max]. *)
Theorem cross_section_accepted_iff :
  forall (self : MagnetSet) (v : list value),
    snd (cross_section_setter v self) = Ok tt <->
    (exists radius rest, v = VStr "circle" :: radius :: rest) \/
    (exists w t m, v = [VStr "rectangle"; w; t] /\ py_max w t = Ok m).
Proof.
  intros self v. rewrite cross_section_setter_outcome. split.
  - destruct v as [| shape dims]; [discriminate |].
    destruct (value_eqb shape (VStr "circle")) eqn:Ec.
    + apply value_eqb_str in Ec. subst shape.
      destruct dims as [| radius rest]; [discriminate |]. intros _. left. eauto.
    + destruct (value_eqb shape (VStr "rectangle")) eqn:Er; [| discriminate].
      apply value_eqb_str in Er. subst shape.
      destruct dims as [| w [| t [| d3 dims]]]; try discriminate.
      destruct (py_max w t) as [m |] eqn:Em; [| discriminate].
      intros _. right. exists w, t, m. auto.
  - intros [(radius & rest & E) | (w & t & m & E & Em)]; subst v.
    + reflexivity.
    + cbn. rewrite Em. reflexivity.
Qed.

(** X2.  What a rejected cross-section raises: an IndexError for the empty
    list and a TypeError for a rectangle whose dimensions are a string and
    a number, both without a log record; in every other case a ValueError,
    after exactly one ERROR record has been handed to the logger. *)
Theorem cross_section_rejections :
  forall (self : MagnetSet) (v : list value) (e : exn),
    snd (cross_section_setter v self) = Raise e ->
    let self' := fst (cross_section_setter v self) in
    (e = IndexError /\ v = [] /\ _logger self' = _logger self) \/
    (e = TypeError /\
     (exists w t, v = [VStr "rectangle"; w; t] /\ py_max w t = Raise TypeError)
     /\ _logger self' = _logger self) \/
    (e = ValueError /\ v <> [] /\
     exists m, _logger self' = _logger self ++ [(ERROR, m)]).
Proof.
  intros self v e H self'. subst self'. revert H.
  unfold cross_section_setter, _extract_cross_section, log_and_raise, bind,
    attr, item, lift, modify, ret, raise.
  cbn [_cross_section set__cross_section].
  destruct v as [| shape dims].
  { cbn. intros H. inversion H. left. auto. }
  cbn [nth_error].
  destruct (value_eqb shape (VStr "circle")).
  - destruct dims as [| d1 [| d2 dims]]; cbn; intros H; inversion H.
    right. right. split; [reflexivity |]. split; [discriminate | eauto].
  - destruct (value_eqb shape (VStr "rectangle")) eqn:Er.
    + apply value_eqb_str in Er. subst shape.
      destruct dims as [| w [| t [| d3 dims]]]; cbn;
        try (intros H; inversion H; right; right;
             split; [reflexivity |]; split; [discriminate | eauto]).
      destruct (py_max w t) as [m |] eqn:Em; cbn; intros H; inversion H.
      subst. right. left.
      assert (e = TypeError).
      { destruct w, t; cbn in Em; inversion Em; reflexivity. }
      subst e. split; [reflexivity |]. split; [eauto | reflexivity].
    + cbn. intros H. inversion H. right. right.
      split; [reflexivity |]. split; [discriminate | eauto].
Qed.

Lemma cross_section_rejections_witness :
  let self' := fst (cross_section_setter [VStr "triangle"; VNum 1] blank) in
  (ValueError = IndexError /\ [VStr "triangle"; VNum 1] = [] /\
   _logger self' = _logger blank) \/
  (ValueError = TypeError /\
   (exists w t, [VStr "triangle"; VNum 1] = [VStr "rectangle"; w; t] /\
                py_max w t = Raise TypeError)
   /\ _logger self' = _logger blank) \/
  (ValueError = ValueError /\ [VStr "triangle"; VNum 1] <> [] /\
   exists m, _logger self' = _logger blank ++ [(ERROR, m)]).
Proof.
  apply (cross_section_rejections blank [VStr "triangle"; VNum 1] ValueError).
  reflexivity.
Defined.

(** X3.  A circle given more than one dimension is accepted: the first
    dimension is the radius, the others are ignored, and one WARNING record
    is logged; with exactly one dimension nothing is logged. *)
Theorem circle_extra_dimensions_warn :
  forall (self : MagnetSet) (radius extra : value) (rest : list value),
    let long := cross_section_setter
                  (VStr "circle" :: radius :: extra :: rest) self in
    let short := cross_section_setter [VStr "circle"; radius] self in
    snd long = Ok tt /\
    mag_len (fst long) = Some radius /\
    shape_str (fst long) = shape_str (fst short) /\
    _logger (fst long) = _logger self ++ [(WARNING, CircleExtraDimension)] /\
    snd short = Ok tt /\
    _logger (fst short) = _logger self.
Proof.
  intros self radius extra rest long short. subst long short.
  repeat split.
Qed.

(** ** The toroidal extent in degrees and in radians *)

Lemma getter_after_setter (self : MagnetSet) (angle : R) :
  Np.deg2rad angle <= 360 ->
  (toroidal_extent_setter angle ;; toroidal_extent_getter) self
  = (set__toroidal_extent (Np.deg2rad angle) self, Ok (Np.deg2rad angle)).
Proof.
  intros H. unfold bind.
  rewrite (toroidal_extent_setter_accepts _ _ H). reflexivity.
Qed.

(** X4.  Every extent of (0, 360] degrees is accepted without a log
    record, and what is stored, and read back through the property, is the
    angle in radians, in (0, 2 pi]. *)
Theorem valid_extent_stored_in_radians :
  forall (self : MagnetSet) (angle : R),
    0 < angle <= 360 ->
    exists rad,
      (toroidal_extent_setter angle ;; toroidal_extent_getter) self
      = (set__toroidal_extent rad self, Ok rad) /\
      rad = angle * Np.pi / 180 /\
      0 < rad <= 2 * Np.pi /\
      _logger (set__toroidal_extent rad self) = _logger self.
Proof.
  intros self angle [H0 H1]. pose proof pi_pos as Hp. pose proof pi_le_4 as H4.
  assert (E : Np.deg2rad angle = angle * Np.pi / 180)
    by (unfold Np.deg2rad; field).
  assert (Hr : 0 < Np.deg2rad angle <= 2 * Np.pi).
  { rewrite E. split; [nra |]. nra. }
  exists (Np.deg2rad angle). split.
  - apply getter_after_setter. lra.
  - repeat split; lra.
Qed.

Lemma valid_extent_stored_in_radians_witness :
  exists rad,
    (toroidal_extent_setter 90 ;; toroidal_extent_getter) blank
    = (set__toroidal_extent rad blank, Ok rad) /\
    rad = 90 * Np.pi / 180 /\
    0 < rad <= 2 * Np.pi /\
    _logger (set__toroidal_extent rad blank) = _logger blank.
Proof.
  apply (valid_extent_stored_in_radians blank 90). lra.
Defined.

(** X5.  The property is written in degrees and read in radians: assigning
    to it the value just read from it, [ms.toroidal_extent =
    ms.toroidal_extent], is accepted and multiplies the stored extent by
    pi / 180, so it changes every stored extent but zero. *)
Theorem reassigning_extent_shrinks_it :
  forall (self : MagnetSet) (rad : R),
    _toroidal_extent self = Some rad ->
    rad <= 360 ->
    exists self',
      (value <- toroidal_extent_getter ;; toroidal_extent_setter value) self
      = (self', Ok tt) /\
      _toroidal_extent self' = Some (rad * (Np.pi / 180)) /\
      (_toroidal_extent self' = _toroidal_extent self <-> rad = 0).
Proof.
  intros self rad Hrad Hle. pose proof pi_pos as Hp. pose proof pi_le_4 as H4.
  assert (Hacc : Np.deg2rad rad <= 360).
  { unfold Np.deg2rad.
    destruct (Rle_dec 0 rad) as [Hpos | Hneg]; [| nra].
    assert (rad * (Np.pi / 180) <= rad) by nra. lra. }
  exists (set__toroidal_extent (Np.deg2rad rad) self). split.
  - unfold bind, toroidal_extent_getter, attr. rewrite Hrad.
    apply toroidal_extent_setter_accepts, Hacc.
  - split; [reflexivity |]. rewrite Hrad. cbn. unfold Np.deg2rad. split.
    + intros H. inversion H as [E]. nra.
    + intros H. subst rad. f_equal. lra.
Qed.

Lemma reassigning_extent_shrinks_it_witness :
  exists self',
    (value <- toroidal_extent_getter ;; toroidal_extent_setter value)
      (set__toroidal_extent 1 blank)
    = (self', Ok tt) /\
    _toroidal_extent self' = Some (1 * (Np.pi / 180)) /\
    (_toroidal_extent self' = _toroidal_extent (set__toroidal_extent 1 blank)
     <-> 1 = 0).
Proof.
  apply (reassigning_extent_shrinks_it (set__toroidal_extent 1 blank) 1).
  - reflexivity.
  - lra.
Defined.

(** ** The constructor *)

(** Whatever its outcome, the [cross_section] setter stores the list it
    was given and leaves the file name and the extent alone. *)
Lemma cross_section_setter_frame (v : list value) (s s' : MagnetSet)
    (r : result unit) :
  cross_section_setter v s = (s', r) ->
  _cross_section s' = Some v /\
  coils_file s' = coils_file s /\
  _toroidal_extent s' = _toroidal_extent s.
Proof.
  unfold cross_section_setter, bind at 1, modify at 1.
  destruct r as [u | e].
  - unfold _extract_cross_section, log_and_raise, bind, attr, item, lift,
      modify, ret, raise.
    cbn [_cross_section set__cross_section].
    destruct (nth_error v 0) as [sh |]; [| discriminate].
    destruct (value_eqb sh (VStr "circle")).
    + destruct (length v =? 1)%nat; [discriminate |].
      destruct (2 <? length v)%nat;
        (destruct (nth_error v 1); [| discriminate]);
        intros H; inversion H; repeat split.
    + destruct (value_eqb sh (VStr "rectangle")); [| discriminate].
      destruct (negb (length v =? 3)%nat); [discriminate |].
      destruct (nth_error v 1) as [w |]; [| discriminate].
      destruct (nth_error v 2) as [t |]; [| discriminate].
      destruct (py_max w t); [| discriminate].
      intros H; inversion H; repeat split.
  - intros H. apply extract_cross_section_quiet_on_raise in H.
    unfold same_attrs in H. cbn in H. decompose [and] H.
    repeat split; assumption.
Qed.

Lemma cross_section_setter_any_self (v : list value) (s1 s2 : MagnetSet) :
  snd (cross_section_setter v s1) = snd (cross_section_setter v s2).
Proof. rewrite !cross_section_setter_outcome. reflexivity. Qed.

(** X6.  The constructor returns exactly when the cross-section is one
    the setter accepts and the extent, in radians, does not exceed 360.
    It then holds the arguments, the extent in radians, and for each of
    [start_line], [sample_mod], [scale], [mat_tag] the keyword argument
    given or else 3, 1, 100, "magnets".  A rejected cross-section makes it
    raise the setter's exception before the extent is looked at:
    [_toroidal_extent] stays unassigned. *)
Theorem constructor_outcome :
  forall (file : string) (cs : list value) (angle : R) (kw : kwargs),
    let r := __init__ file cs angle kw in
    (snd r = Ok tt <->
     snd (cross_section_setter cs blank) = Ok tt /\ Np.deg2rad angle <= 360) /\
    (snd r = Ok tt ->
     coils_file (fst r) = file /\
     _cross_section (fst r) = Some cs /\
     _toroidal_extent (fst r) = Some (Np.deg2rad angle) /\
     start_line (fst r) = or_default (kw_start_line kw) 3%Z /\
     sample_mod (fst r) = or_default (kw_sample_mod kw) 1%Z /\
     scale (fst r) = or_default (kw_scale kw) 100 /\
     mat_tag (fst r) = or_default (kw_mat_tag kw) "magnets"%string) /\
    (forall e, snd (cross_section_setter cs blank) = Raise e ->
               snd r = Raise e /\ _toroidal_extent (fst r) = None).
Proof.
  intros file cs angle kw r. subst r.
  rewrite (cross_section_setter_any_self cs blank (set_coils_file file blank)).
  unfold __init__, bind, modify.
  destruct (cross_section_setter cs (set_coils_file file blank))
    as [s1 r1] eqn:E1.
  destruct (cross_section_setter_frame _ _ _ _ E1) as (F1 & F2 & F3).
  cbn in F2, F3. cbn [snd].
  destruct r1 as [[] | e1].
  - destruct (Rle_dec (Np.deg2rad angle) 360) as [Hle | Hgt].
    + rewrite (toroidal_extent_setter_accepts _ _ Hle). cbn.
      split; [split; auto |]. split; [| intros e H; discriminate].
      intros _. rewrite F1, F2. repeat split.
    + assert (Hlt : 360 < Np.deg2rad angle) by lra.
      rewrite (toroidal_extent_setter_raises _ _ Hlt). cbn.
      split; [split; [discriminate | intros [_ H]; lra] |].
      split; [discriminate | intros e H; discriminate].
  - cbn. split; [split; [discriminate | intros [H _]; discriminate] |].
    split; [discriminate |].
    intros e H. inversion H; subst. split; [reflexivity | exact F3].
Qed.

Lemma constructor_outcome_witness :
  (let r := __init__ "coils.txt" [VStr "circle"; VNum 5] 90
              (mkKwargs None (Some 2%Z) None None) in
   coils_file (fst r) = "coils.txt"%string /\
   _cross_section (fst r) = Some [VStr "circle"; VNum 5] /\
   _toroidal_extent (fst r) = Some (Np.deg2rad 90) /\
   start_line (fst r) = 3%Z /\
   sample_mod (fst r) = 2%Z /\
   scale (fst r) = 100 /\
   mat_tag (fst r) = "magnets"%string) /\
  (let r := __init__ "coils.txt" [VStr "triangle"] 90 no_kwargs in
   snd r = Raise ValueError /\ _toroidal_extent (fst r) = None).
Proof.
  pose proof (constructor_outcome "coils.txt" [VStr "circle"; VNum 5] 90
                (mkKwargs None (Some 2%Z) None None)) as (H1 & H2 & _).
  pose proof (constructor_outcome "coils.txt" [VStr "triangle"] 90 no_kwargs)
    as (_ & _ & H3).
  split.
  - apply H2, H1. split; [reflexivity |].
    unfold Np.deg2rad. pose proof pi_le_4. lra.
  - apply H3. reflexivity.
Defined.

(** ** Reading the coil file, line by line *)

(** The reading loop is its body, line after line. *)
Lemma read_filaments_cons (scale : R) (sample_mod : Z) (line : string)
    (data : list string) (coords : filament) (fils : list filament) (n : Z) :
  read_filaments scale sample_mod (line :: data) coords fils n
  = match read_line scale sample_mod line coords fils n with
    | Stop r => r
    | Continue coords' fils' n' =>
        read_filaments scale sample_mod data coords' fils' n'
    end.
Proof.
  cbn [read_filaments]. unfold read_line.
  destruct (index (split line) 0) as [c0 |]; [| reflexivity]. cbn [rbind].
  destruct (String.eqb c0 "end"); [reflexivity |].
  destruct (float c0) as [x0 |]; [| reflexivity]. cbn [rbind].
  destruct (index (split line) 1) as [c1 |]; [| reflexivity]. cbn [rbind].
  destruct (float c1) as [y0 |]; [| reflexivity]. cbn [rbind].
  destruct (index (split line) 2) as [c2 |]; [| reflexivity]. cbn [rbind].
  destruct (float c2) as [z0 |]; [| reflexivity]. cbn [rbind].
  destruct (index (split line) 3) as [c3 |]; [| reflexivity]. cbn [rbind].
  destruct (float c3) as [s |]; [| reflexivity]. cbn [rbind].
  destruct (negb (Reqb s 0)); [| reflexivity].
  destruct (sample_mod =? 0)%Z; [reflexivity |].
  destruct (n mod sample_mod =? 0)%Z; reflexivity.
Qed.

Lemma read_line_end (scale : R) (sample_mod : Z) (line : string)
    (coords : filament) (fils : list filament) (n : Z) :
  hd_error (split line) = Some "end"%string ->
  read_line scale sample_mod line coords fils n = Stop (Ok fils).
Proof.
  intros H. unfold read_line, index.
  destruct (split line) as [| c0 rest]; [discriminate |].
  cbn in H. inversion H; subst. reflexivity.
Qed.

(** What the body does with a row of four numbers. *)
Lemma read_line_row (scale : R) (sample_mod : Z) (line : string)
    (coords : filament) (fils : list filament) (n : Z) (x y z s : R) :
  row line x y z s ->
  read_line scale sample_mod line coords fils n
  = let p := (x * scale, y * scale, z * scale) in
    if negb (Reqb s 0) then
      if (sample_mod =? 0)%Z then Stop (Raise ZeroDivisionError)
      else if (n mod sample_mod =? 0)%Z
           then Continue (coords ++ [p]) fils (n + 1)%Z
           else Continue coords fils (n + 1)%Z
    else Continue [] (fils ++ [coords ++ [p]]) 0%Z.
Proof.
  unfold row, read_line, index.
  destruct (split line) as [| c0 [| c1 [| c2 [| c3 more]]]]; try contradiction.
  intros (H0 & H1 & H2 & H3). cbn [nth_error].
  rewrite (float_ok_not_end _ _ H0), H0, H1, H2, H3. reflexivity.
Qed.

(** X7.  A line whose first token is [end] ends the reading: nothing that
    follows it in the file is looked at, so it can neither add a point nor
    raise. *)
Theorem nothing_read_after_end :
  forall (scale : R) (sample_mod : Z) (pre : list string) (line : string)
         (rest rest' : list string),
    hd_error (split line) = Some "end"%string ->
    read_filaments scale sample_mod (pre ++ line :: rest) [] [] 0
    = read_filaments scale sample_mod (pre ++ line :: rest') [] [] 0.
Proof.
  intros scale sample_mod pre line rest rest' Hend.
  generalize (@nil point) (@nil filament) 0%Z.
  induction pre as [| l pre IH]; intros coords fils n; cbn [app].
  - rewrite !read_filaments_cons, (read_line_end _ _ _ _ _ _ Hend).
    reflexivity.
  - rewrite !read_filaments_cons.
    destruct (read_line scale sample_mod l coords fils n); [reflexivity |].
    apply IH.
Qed.

Lemma nothing_read_after_end_witness :
  read_filaments 100 1
    (["1 2 3 0"; "end of data"; "not a number"]%string) [] [] 0
  = read_filaments 100 1 (["1 2 3 0"; "end of data"]%string) [] [] 0.
Proof.
  apply (nothing_read_after_end 100 1 ["1 2 3 0"%string] "end of data"
           ["not a number"%string] []).
  reflexivity.
Defined.

Lemma scale_point_one (k x y z : R) :
  scale_point k (x * 1, y * 1, z * 1) = (x * k, y * k, z * k).
Proof. unfold scale_point. cbn. f_equal; [f_equal |]; ring. Qed.

Lemma read_filaments_scaled (k : R) (sample_mod : Z) (data : list string) :
  forall (coords : filament) (fils : list filament) (n : Z),
    read_filaments k sample_mod data
      (map (scale_point k) coords) (map (map (scale_point k)) fils) n
    = match read_filaments 1 sample_mod data coords fils n with
      | Ok out => Ok (map (map (scale_point k)) out)
      | Raise e => Raise e
      end.
Proof.
  induction data as [| line data IH]; intros coords fils n.
  - reflexivity.
  - rewrite !read_filaments_cons. unfold read_line.
    destruct (index (split line) 0) as [c0 |]; [| reflexivity].
    destruct (String.eqb c0 "end"); [reflexivity |].
    destruct (float c0) as [x0 |]; [| reflexivity].
    destruct (index (split line) 1) as [c1 |]; [| reflexivity].
    destruct (float c1) as [y0 |]; [| reflexivity].
    destruct (index (split line) 2) as [c2 |]; [| reflexivity].
    destruct (float c2) as [z0 |]; [| reflexivity].
    destruct (index (split line) 3) as [c3 |]; [| reflexivity].
    destruct (float c3) as [s |]; [| reflexivity].
    rewrite <- (scale_point_one k x0 y0 z0).
    destruct (negb (Reqb s 0)).
    + destruct (sample_mod =? 0)%Z; [reflexivity |].
      destruct (n mod sample_mod =? 0)%Z; [| apply IH].
      rewrite <- (IH (coords ++ [(x0 * 1, y0 * 1, z0 * 1)])).
      rewrite map_app. reflexivity.
    + rewrite <- (IH [] (fils ++ [coords ++ [(x0 * 1, y0 * 1, z0 * 1)]])).
      rewrite map_app. cbn [map]. rewrite map_app. reflexivity.
Qed.

(** X8.  The scale is a unit conversion and nothing else: reading a file
    with the scale [k] raises what reading it with the scale 1 raises, and
    otherwise returns the same filaments with every coordinate multiplied
    by [k]. *)
Theorem scale_only_multiplies :
  forall (k : R) (sample_mod : Z) (data : list string),
    read_filaments k sample_mod data [] [] 0
    = match read_filaments 1 sample_mod data [] [] 0 with
      | Ok fils => Ok (map (map (scale_point k)) fils)
      | Raise e => Raise e
      end.
Proof.
  intros k sample_mod data.
  exact (read_filaments_scaled k sample_mod data [] [] 0%Z).
Qed.

Lemma read_point_row (scale : R) (sample_mod : Z) (line : string)
    (data : list string) (coords : filament) (fils : list filament) (n : Z)
    (p : point) :
  sample_mod <> 0%Z -> point_row line p ->
  read_filaments scale sample_mod (line :: data) coords fils n
  = if (n mod sample_mod =? 0)%Z
    then read_filaments scale sample_mod data
           (coords ++ [scale_point scale p]) fils (n + 1)%Z
    else read_filaments scale sample_mod data coords fils (n + 1)%Z.
Proof.
  intros Hmod (s & Hrow & Hs).
  rewrite read_filaments_cons, (read_line_row _ _ _ _ _ _ _ _ _ _ Hrow).
  cbv zeta. rewrite (Reqb_false _ _ Hs). cbn [negb].
  apply Z.eqb_neq in Hmod. rewrite Hmod.
  destruct (n mod sample_mod =? 0)%Z; reflexivity.
Qed.

Lemma read_last_row (scale : R) (sample_mod : Z) (line : string)
    (data : list string) (coords : filament) (fils : list filament) (n : Z)
    (x y z : R) :
  row line x y z 0 ->
  read_filaments scale sample_mod (line :: data) coords fils n
  = read_filaments scale sample_mod data []
      (fils ++ [coords ++ [scale_point scale (x, y, z)]]) 0.
Proof.
  intros Hrow.
  rewrite read_filaments_cons, (read_line_row _ _ _ _ _ _ _ _ _ _ Hrow).
  cbv zeta. rewrite (Reqb_true 0 0 eq_refl). reflexivity.
Qed.

Lemma read_block (scale : R) (sample_mod : Z) (lines : list string)
    (pts : filament) :
  sample_mod <> 0%Z -> Forall2 point_row lines pts ->
  forall (data : list string) (coords : filament) (fils : list filament)
         (n : Z),
    read_filaments scale sample_mod (lines ++ data) coords fils n
    = read_filaments scale sample_mod data
        (coords ++ sample sample_mod n (map (scale_point scale) pts)) fils
        (n + Z.of_nat (length pts))%Z.
Proof.
  intros Hmod Hall. induction Hall as [| line p lines pts Hrow Hall IH];
    intros data coords fils n.
  - cbn. rewrite app_nil_r, Z.add_0_r. reflexivity.
  - cbn [app map sample length].
    rewrite (read_point_row _ _ _ _ _ _ _ _ Hmod Hrow).
    replace (n + Z.of_nat (S (length pts)))%Z
      with (n + 1 + Z.of_nat (length pts))%Z by lia.
    destruct (n mod sample_mod =? 0)%Z; rewrite IH.
    + rewrite <- app_assoc. reflexivity.
    + reflexivity.
Qed.

(** X9.  Sampling keeps, of the points of a filament, those at the
    positions 0, [sample_mod], 2 [sample_mod], ... and the point of the
    line of zero current that ends it, all multiplied by the scale; the
    count restarts with every filament, so the first point of a filament
    is kept whatever the modifier, and with the modifier 1 all are. *)
Theorem sampling_keeps_every_nth :
  forall (scale : R) (sample_mod : Z) (lines : list string) (pts : filament)
         (last : string) (x y z : R) (data : list string)
         (fils : list filament),
    sample_mod <> 0%Z ->
    Forall2 point_row lines pts ->
    row last x y z 0 ->
    read_filaments scale sample_mod (lines ++ last :: data) [] fils 0
    = read_filaments scale sample_mod data []
        (fils ++ [sample sample_mod 0 (map (scale_point scale) pts)
                  ++ [scale_point scale (x, y, z)]]) 0 /\
    (forall p rest, sample sample_mod 0 (p :: rest)
                    = p :: sample sample_mod 1 rest) /\
    (forall n, sample 1 n pts = pts).
Proof.
  intros scale sample_mod lines pts last x y z data fils Hmod Hall Hlast.
  split; [| split].
  - rewrite (read_block _ _ _ _ Hmod Hall). cbn [app].
    apply read_last_row, Hlast.
  - intros p rest. cbn [sample]. rewrite Z.mod_0_l by exact Hmod. reflexivity.
  - clear. induction pts as [| p pts IH]; intros n; [reflexivity |].
    cbn [sample]. rewrite Z.mod_1_r, IH. reflexivity.
Qed.

Lemma sampling_keeps_every_nth_witness :
  read_filaments 1 2
    (["1 0 0 5"; "2 0 0 5"; "3 0 0 5"]%string
     ++ "4 0 0 0"%string :: ["end"%string]) [] [] 0
  = read_filaments 1 2 ["end"%string] []
      ([] ++ [sample 2 0 (map (scale_point 1) [(1, 0, 0); (2, 0, 0); (3, 0, 0)])
              ++ [scale_point 1 (4, 0, 0)]]) 0.
Proof.
  refine (proj1 (sampling_keeps_every_nth 1 2
                   ["1 0 0 5"; "2 0 0 5"; "3 0 0 5"]%string
                   [(1, 0, 0); (2, 0, 0); (3, 0, 0)] "4 0 0 0"%string
                   4 0 0 ["end"%string] [] _ _ _)).
  - discriminate.
  - repeat constructor;
      (exists 5; split;
       [ unfold row;
         match goal with
         | |- match split ?l with _ => _ end =>
             let t := eval vm_compute in (split l) in
             change (split l) with t; cbv iota beta
         end; cbn [px py pz fst snd]; repeat split; read_token
       | lra ]).
  - unfold row.
    match goal with
    | |- match split ?l with _ => _ end =>
        let t := eval vm_compute in (split l) in
        change (split l) with t; cbv iota beta
    end; repeat split; read_token.
Defined.

(** X10.  Points read after the last line of zero current belong to no
    filament: lines of non-zero current at the end of the data change
    nothing of what is read, so a file without any line of zero current
    yields no filament. *)
Theorem unterminated_points_dropped :
  forall (scale : R) (sample_mod : Z) (data tail : list string)
         (pts : filament),
    sample_mod <> 0%Z ->
    Forall2 point_row tail pts ->
    read_filaments scale sample_mod (data ++ tail) [] [] 0
    = read_filaments scale sample_mod data [] [] 0 /\
    read_filaments scale sample_mod tail [] [] 0 = Ok [].
Proof.
  intros scale sample_mod data tail pts Hmod Hall.
  assert (Htail : forall coords fils n,
             read_filaments scale sample_mod tail coords fils n = Ok fils).
  { intros coords fils n.
    rewrite <- (app_nil_r tail), (read_block _ _ _ _ Hmod Hall). reflexivity. }
  split; [| apply Htail].
  generalize (@nil point) (@nil filament) 0%Z.
  induction data as [| l data IH]; intros coords fils n; cbn [app].
  - apply Htail.
  - rewrite !read_filaments_cons.
    destruct (read_line scale sample_mod l coords fils n); [reflexivity |].
    apply IH.
Qed.

Lemma unterminated_points_dropped_witness :
  read_filaments 1 1
    (["4 0 0 0"%string] ++ ["1 0 0 5"; "2 0 0 5"]%string) [] [] 0
  = read_filaments 1 1 ["4 0 0 0"%string] [] [] 0 /\
  read_filaments 1 1 ["1 0 0 5"; "2 0 0 5"]%string [] [] 0 = Ok [].
Proof.
  refine (unterminated_points_dropped 1 1 ["4 0 0 0"%string]
            ["1 0 0 5"; "2 0 0 5"]%string [(1, 0, 0); (2, 0, 0)] _ _).
  - discriminate.
  - repeat constructor;
      (exists 5; split;
       [ unfold row;
         match goal with
         | |- match split ?l with _ => _ end =>
             let t := eval vm_compute in (split l) in
             change (split l) with t; cbv iota beta
         end; cbn [px py pz fst snd]; repeat split; read_token
       | lra ]).
Defined.

(** X11.  With [sample_mod = 0] the first line of non-zero current that
    is reached raises a ZeroDivisionError, while a line of zero current is
    read as with any other modifier. *)
Theorem sample_mod_zero :
  forall (scale : R) (line : string) (data : list string)
         (coords : filament) (fils : list filament) (n : Z) (x y z s : R),
    row line x y z s ->
    read_filaments scale 0 (line :: data) coords fils n
    = if Reqb s 0
      then read_filaments scale 0 data []
             (fils ++ [coords ++ [scale_point scale (x, y, z)]]) 0
      else Raise ZeroDivisionError.
Proof.
  intros scale line data coords fils n x y z s Hrow.
  rewrite read_filaments_cons, (read_line_row _ _ _ _ _ _ _ _ _ _ Hrow).
  cbv zeta. destruct (Reqb s 0); reflexivity.
Qed.

Lemma sample_mod_zero_witness :
  read_filaments 1 0 ["1 0 0 5"; "4 0 0 0"]%string [] [] 0
  = if Reqb 5 0
    then read_filaments 1 0 ["4 0 0 0"%string] []
           ([] ++ [[] ++ [scale_point 1 (1, 0, 0)]]) 0
    else Raise ZeroDivisionError.
Proof.
  apply (sample_mod_zero 1 "1 0 0 5" ["4 0 0 0"%string] [] [] 0 1 0 0 5).
  unfold row.
  match goal with
  | |- match split ?l with _ => _ end =>
      let t := eval vm_compute in (split l) in
      change (split l) with t; cbv iota beta
  end; repeat split; read_token.
Defined.

(** ** The average radial distance *)

Lemma sum_lower (a : R) (l : list R) :
  Forall (fun x => a <= x) l -> a * INR (length l) <= Np.sum l.
Proof.
  intros H. induction H as [| x l Hx Hl IH].
  - cbn. lra.
  - cbn [length Np.sum fold_right]. rewrite S_INR. unfold Np.sum in IH. lra.
Qed.

Lemma sum_upper (b : R) (l : list R) :
  Forall (fun x => x <= b) l -> Np.sum l <= b * INR (length l).
Proof.
  intros H. induction H as [| x l Hx Hl IH].
  - cbn. lra.
  - cbn [length Np.sum fold_right]. rewrite S_INR. unfold Np.sum in IH. lra.
Qed.

Lemma average_between (a b : R) (l : list R) :
  l <> [] -> Forall (fun x => a <= x <= b) l -> a <= Np.average l <= b.
Proof.
  intros Hne Hall.
  assert (Hlen : 0 < INR (length l)).
  { destruct l; [contradiction |]. apply lt_0_INR. cbn. lia. }
  assert (Hlo : a * INR (length l) <= Np.sum l).
  { apply sum_lower. eapply Forall_impl; [| exact Hall]. cbn. intros; lra. }
  assert (Hhi : Np.sum l <= b * INR (length l)).
  { apply sum_upper. eapply Forall_impl; [| exact Hall]. cbn. intros; lra. }
  unfold Np.average.
  assert (Hx : Np.sum l = Np.sum l / INR (length l) * INR (length l))
    by (field; lra).
  set (q := Np.sum l / INR (length l)) in *. split; nra.
Qed.

Lemma radial_distance_nonneg (p : point) : 0 <= radial_distance p.
Proof. apply sqrt_pos. Qed.

Lemma ndarray3_points (fils : list filament) :
  ndarray3 fils = true -> concat fils <> [].
Proof.
  destruct fils as [| f fils]; [discriminate |]. cbn [ndarray3 concat].
  intros H. apply andb_true_iff in H. destruct H as [H _].
  apply Nat.ltb_lt in H. destruct f; [cbn in H; lia | discriminate].
Qed.

(** X12.  [_set_average_radial_distance] needs [filaments] to be a
    three-dimensional array, that is a non-empty list of filaments of one
    and the same positive length, and raises an IndexError otherwise,
    changing nothing.  On such an array it stores, and changes nothing
    else, an average that is not negative and lies between any two bounds
    on the radial distances of the points. *)
Theorem average_radial_distance_bounds :
  forall (self : MagnetSet) (fils : list filament),
    filaments self = Some fils ->
    if ndarray3 fils then
      exists avg,
        _set_average_radial_distance self
        = (set_average_radial_distance avg self, Ok tt) /\
        0 <= avg /\
        forall a b,
          (forall fil p, In fil fils -> In p fil ->
                         a <= radial_distance p <= b) ->
          a <= avg <= b
    else _set_average_radial_distance self = (self, Raise IndexError).
Proof.
  intros self fils Hf.
  unfold _set_average_radial_distance, bind, attr, modify, raise.
  rewrite Hf. destruct (ndarray3 fils) eqn:E; [| reflexivity].
  pose proof (ndarray3_points _ E) as Hne.
  assert (Hne' : map radial_distance (concat fils) <> []).
  { destruct (concat fils); [contradiction | discriminate]. }
  eexists. split; [reflexivity |]. split.
  - assert (Hall : Forall (fun x => 0 <= x <= Np.sum
                                       (map radial_distance (concat fils)))
                     (map radial_distance (concat fils))).
    { clear. induction (concat fils) as [| p l IH]; [constructor |].
      cbn [map Np.sum fold_right].
      pose proof (radial_distance_nonneg p) as Hp.
      assert (Hs : 0 <= Np.sum (map radial_distance l)).
      { clear IH. induction l as [| q l IHl]; cbn; [lra |].
        pose proof (radial_distance_nonneg q). unfold Np.sum in IHl. lra. }
      unfold Np.sum in *. constructor; [lra |].
      eapply Forall_impl; [| exact IH]. cbn. intros; lra. }
    apply (average_between _ _ _ Hne' Hall).
  - intros a b Hab. apply average_between; [exact Hne' |].
    apply Forall_forall. intros x Hx. apply in_map_iff in Hx.
    destruct Hx as (p & Ep & Hp). subst x.
    apply in_concat in Hp. destruct Hp as (fil & Hfil & Hp).
    eapply Hab; eauto.
Qed.

Lemma average_radial_distance_bounds_witness :
  exists avg,
    _set_average_radial_distance (set_filaments [coil_east] blank)
    = (set_average_radial_distance avg (set_filaments [coil_east] blank),
       Ok tt) /\
    0 <= avg /\
    forall a b,
      (forall fil p, In fil [coil_east] -> In p fil ->
                     a <= radial_distance p <= b) ->
      a <= avg <= b.
Proof.
  exact (average_radial_distance_bounds (set_filaments [coil_east] blank)
           [coil_east] eq_refl).
Defined.

(** ** What canonicalization keeps of a filament *)

Lemma dedup_length_same (l l' : filament) :
  (forall x, In x l <-> In x l') ->
  length (dedup l []) = length (dedup l' []).
Proof.
  intros H. apply Permutation_length.
  apply NoDup_Permutation; try apply dedup_NoDup.
  intros x. rewrite !dedup_in, H. tauto.
Qed.

Lemma dedup_length_NoDup (l : filament) :
  NoDup l -> length (dedup l []) = length l.
Proof.
  intros H. apply Permutation_length.
  apply NoDup_Permutation; [apply dedup_NoDup | exact H |].
  intros x. rewrite dedup_in. cbn. tauto.
Qed.

Lemma dedup_head (l : filament) :
  nth_error (dedup l []) 0 = nth_error l 0.
Proof. destruct l; reflexivity. Qed.

Lemma assign_row_closed (rows : nat) (d : filament) (first : point) :
  (2 <= length d)%nat ->
  assign_row rows (d ++ [first])
  = if (length d + 1 =? rows)%nat then Ok (d ++ [first])
    else Raise ValueError.
Proof.
  intros H. unfold assign_row. rewrite length_app. cbn [length].
  destruct (length d + 1 =? rows)%nat; [reflexivity |].
  destruct d as [| a [| b d]]; cbn in H; try lia. reflexivity.
Qed.

(** The steps of [canonicalize] once the scan has found an index. *)
Lemma canonicalize_steps (fil : filament) (i : nat) :
  find_start fil = Some i ->
  exists p q r first,
    nth_error fil i = Some p /\ nth_error fil (S i) = Some q /\
    z_ratio_negative p q = true /\
    r = (if Rltb (pz q) (pz p)
         then rev (skipn i fil ++ firstn i fil)
         else skipn i fil ++ firstn i fil) /\
    (forall x, In x r <-> In x fil) /\
    (2 <= length (dedup r []))%nat /\
    nth_error r 0 = Some first /\
    canonicalize fil
    = if (length (dedup fil []) + 1 =? length fil)%nat
      then Ok (dedup r [] ++ [first]) else Raise ValueError.
Proof.
  intros Es.
  destruct (find_start_crossing _ _ Es) as (p & q & Hp & Hq & Hz).
  set (r := if Rltb (pz q) (pz p)
            then rev (skipn i fil ++ firstn i fil)
            else skipn i fil ++ firstn i fil).
  assert (Hin : forall x, In x r <-> In x fil).
  { intros x. subst r. destruct (Rltb (pz q) (pz p)).
    - rewrite <- in_rev. apply in_rotation.
    - apply in_rotation. }
  assert (Hlen : (2 <= length (dedup r []))%nat).
  { apply (two_distinct_length _ p q).
    - apply dedup_in. split; [| cbn; tauto].
      apply Hin. eapply nth_error_In, Hp.
    - apply dedup_in. split; [| cbn; tauto].
      apply Hin. eapply nth_error_In, Hq.
    - apply z_ratio_negative_neq, Hz. }
  destruct (nth_error (dedup r []) 0) as [first |] eqn:Ef.
  2:{ apply nth_error_None in Ef. lia. }
  exists p, q, r, first.
  split; [exact Hp |]. split; [exact Hq |]. split; [exact Hz |].
  split; [reflexivity |]. split; [exact Hin |]. split; [exact Hlen |].
  split; [rewrite <- dedup_head; exact Ef |].
  unfold canonicalize. rewrite Es.
  unfold index at 1 2. rewrite Nat.add_1_r, Hp, Hq.
  cbn [rbind from_index upto_index]. fold r.
  pose proof (take_first_indices r [] []) as Ht. cbn [length app] in Ht.
  rewrite Ht. unfold index. rewrite Ef. cbn [rbind].
  rewrite (assign_row_closed _ _ _ Hlen), (dedup_length_same r fil Hin).
  reflexivity.
Qed.

(** What a successful pass of the loop leaves in a row, compared with
    what it found there. *)
Lemma canonicalize_shape (fil out : filament) :
  canonicalize fil = Ok out ->
  length out = length fil /\
  (forall x, In x out <-> In x fil) /\
  (length (dedup fil []) + 1 = length fil)%nat /\
  (3 <= length out)%nat.
Proof.
  intros H. destruct (find_start fil) as [i |] eqn:Es.
  2:{ unfold canonicalize in H. rewrite Es in H.
      destruct (index fil 2); discriminate. }
  destruct (canonicalize_steps _ _ Es)
    as (p & q & r & first & _ & _ & _ & _ & Hin & Hlen & Hfirst & E).
  rewrite E in H.
  destruct (length (dedup fil []) + 1 =? length fil)%nat eqn:El;
    [| discriminate].
  apply Nat.eqb_eq in El. inversion H; subst out.
  rewrite length_app. cbn [length].
  rewrite (dedup_length_same r fil Hin).
  split; [exact El |]. split; [| split; [exact El |]].
  - intros x. rewrite in_app_iff, dedup_in, Hin. cbn. split.
    + intros [[Hx _] | [Hx | []]]; [exact Hx |].
      subst x. apply Hin. eapply nth_error_In, Hfirst.
    + intros Hx. left. tauto.
  - rewrite <- (dedup_length_same r fil Hin). lia.
Qed.

(** X13.  A filament whose points are all different, such as an open
    polyline, cannot be canonicalized: the loop can only write back a row
    of the length it read, and removing duplicates then appending the
    first point keeps the length only when exactly one row of the filament
    repeats an earlier one.  With a z-sign crossing, a filament without
    repeated points makes the assignment raise a ValueError. *)
Theorem open_polyline_rejected :
  forall fil : filament,
    (forall out, canonicalize fil = Ok out ->
                 length out = length fil /\
                 (length (dedup fil []) + 1 = length fil)%nat) /\
    (NoDup fil -> crossing_candidates fil <> [] ->
     canonicalize fil = Raise ValueError).
Proof.
  intros fil. split.
  - intros out H. destruct (canonicalize_shape _ _ H) as (H1 & _ & H2 & _).
    auto.
  - intros Hnd Hc.
    destruct (find_start fil) as [i |] eqn:Es.
    2:{ exfalso. apply Hc. apply (scan_none fil 0%nat). exact Es. }
    destruct (canonicalize_steps _ _ Es)
      as (p & q & r & first & _ & _ & _ & _ & _ & _ & _ & E).
    rewrite E, (dedup_length_NoDup _ Hnd).
    assert (Hne : (length fil + 1 =? length fil)%nat = false)
      by (apply Nat.eqb_neq; lia).
    rewrite Hne. reflexivity.
Qed.

Lemma open_square_facts :
  NoDup open_square /\ crossing_candidates open_square <> [].
Proof.
  split.
  - unfold open_square.
    repeat (constructor;
            [ cbn; intros H;
              repeat (destruct H as [H | H];
                      [inversion H; lra |]); exact H | ]).
    constructor.
  - unfold open_square. cbn [crossing_candidates]. eval_scan. discriminate.
Qed.

Lemma open_polyline_rejected_witness :
  canonicalize open_square = Raise ValueError.
Proof.
  exact (proj2 (open_polyline_rejected open_square)
           (proj1 open_square_facts) (proj2 open_square_facts)).
Defined.

Lemma canonicalize_all_Forall2 (fils out : list filament) :
  canonicalize_all fils = Ok out ->
  Forall2 (fun fil o => canonicalize fil = Ok o) fils out.
Proof.
  revert out. induction fils as [| fil rest IH]; intros out.
  - cbn. intros H. inversion H. constructor.
  - cbn [canonicalize_all].
    destruct (canonicalize fil) as [fil' |] eqn:E; [| discriminate].
    destruct (canonicalize_all rest) as [rest' |]; [| discriminate].
    cbn [rbind]. intros H. inversion H; subst.
    constructor; [exact E | apply IH; reflexivity].
Qed.

(** What a successful pass of the loop leaves in a row: the distinct
    points of the filament, each once, then a copy of the first of them. *)
Lemma canonicalize_enumerates (fil out : filament) :
  canonicalize fil = Ok out ->
  exists d first,
    out = d ++ [first] /\ nth_error d 0 = Some first /\
    NoDup d /\ forall x, In x d <-> In x fil.
Proof.
  intros H. destruct (find_start fil) as [i |] eqn:Es.
  2:{ unfold canonicalize in H. rewrite Es in H.
      destruct (index fil 2); discriminate. }
  destruct (canonicalize_steps _ _ Es)
    as (p & q & r & first & _ & _ & _ & _ & Hin & _ & Hfirst & E).
  rewrite E in H.
  destruct (length (dedup fil []) + 1 =? length fil)%nat; [| discriminate].
  inversion H; subst out. exists (dedup r []), first.
  split; [reflexivity |]. split; [rewrite dedup_head; exact Hfirst |].
  split; [apply dedup_NoDup |].
  intros x. rewrite dedup_in, Hin. cbn. tauto.
Qed.

(** X14.  What [_set_filtered_filaments] computes holds one filament for
    each filament the window keeps, none added and none lost.  Each one
    has as many points as the filament it comes from and the same set of
    points: it lists the distinct points of that filament, each once, and
    ends with a copy of the first point listed. *)
Theorem filtering_keeps_points :
  forall (mag_len avg ext : R) (fils out : list filament),
    filter_filaments mag_len avg ext fils = Ok out ->
    exists kept,
      Permutation kept
        (filter (retained (2 * Np.pi - 2 * Np.arctan2 mag_len avg)
                   (ext + 2 * Np.arctan2 mag_len avg)) fils) /\
      Forall2 (fun fil o =>
                 canonicalize fil = Ok o /\
                 length o = length fil /\
                 (forall x, In x o <-> In x fil) /\
                 exists d first,
                   o = d ++ [first] /\ nth_error d 0 = Some first /\
                   NoDup d /\ forall x, In x d <-> In x fil) kept out.
Proof.
  intros mag_len avg ext fils out. unfold filter_filaments.
  destruct (check_rows fils); [| discriminate]. cbn [rbind].
  destruct (select _ _ fils) as [[reduced coms] |] eqn:Esel; [| discriminate].
  cbn [rbind]. destruct (is_nil coms); [discriminate |].
  destruct (select_spec _ _ _ _ _ Esel) as (_ & Hred & Hcoms).
  rewrite Hcoms, map_map.
  destruct (sorted_zip _ reduced) as [sorted1 |] eqn:E1; [| discriminate].
  cbn [rbind].
  destruct (canonicalize_all sorted1) as [canon |] eqn:Ec; [| discriminate].
  cbn [rbind]. rewrite map_map. intros E2.
  destruct (proj1 (sorted_zip_by_key
                     (fun fil => normalized (toroidal_angle
                                               (center_of_mass fil)))
                     reduced) _ E1) as [_ P1].
  destruct (proj1 (sorted_zip_by_key
                     (fun fil => toroidal_angle (center_of_mass fil))
                     canon) _ E2) as [_ P2].
  apply canonicalize_all_Forall2 in Ec.
  destruct (Permutation_Forall2 (Permutation_sym P2) (Forall2_flip Ec))
    as (kept & Pk & Fk).
  exists kept. split.
  - eapply Permutation_trans; [apply Permutation_sym, Pk |].
    eapply Permutation_trans; [exact P1 |].
    rewrite Hred. apply Permutation_refl.
  - apply Forall2_flip in Fk. eapply Forall2_impl; [| exact Fk].
    cbn. intros fil o H. destruct (canonicalize_shape _ _ H) as (H1 & H2 & _).
    pose proof (canonicalize_enumerates _ _ H) as H3. auto.
Qed.

Lemma filtering_keeps_points_witness :
  exists kept,
    Permutation kept
      (filter (retained (2 * Np.pi - 2 * Np.arctan2 1 9)
                 (Np.deg2rad 360 + 2 * Np.arctan2 1 9))
         [coil_east; coil_south]) /\
    Forall2 (fun fil o =>
               canonicalize fil = Ok o /\
               length o = length fil /\
               (forall x, In x o <-> In x fil) /\
               exists d first,
                 o = d ++ [first] /\ nth_error d 0 = Some first /\
                 NoDup d /\ forall x, In x d <-> In x fil)
      kept [coil_south; coil_east].
Proof.
  apply (filtering_keeps_points 1 9 (Np.deg2rad 360) [coil_east; coil_south]).
  pose proof pi_pos as Hpi.
  unfold filter_filaments.
  change (check_rows [coil_east; coil_south]) with (Ok tt). cbn [rbind].
  rewrite select_whole_torus;
    [| lra | repeat constructor; discriminate].
  cbn [rbind map is_nil].
  rewrite coil_east_normalized, coil_south_normalized.
  rewrite sorted_zip_ascending by lra.
  cbn [rbind canonicalize_all].
  rewrite coil_east_canonicalize, coil_south_canonicalize.
  cbn [rbind map].
  rewrite coil_east_angle, coil_south_angle.
  rewrite sorted_zip_descending by lra.
  reflexivity.
Defined.

(** ** Where the stored filament starts *)

Lemma crossing_signs (p q : point) :
  z_ratio_negative p q = true -> pz p <= pz q -> pz p < 0 /\ 0 <= pz q.
Proof.
  unfold z_ratio_negative. intros H Hle.
  destruct (Reqb (pz q) 0) eqn:E0.
  - apply Reqb_spec in E0. apply Rltb_spec in H. lra.
  - apply Rltb_spec in H.
    assert (Hq : pz q <> 0).
    { intros Hq. rewrite (Reqb_true _ _ Hq) in E0. discriminate. }
    assert (Hx : pz p = pz p / pz q * pz q) by (field; exact Hq).
    set (t := pz p / pz q) in *.
    destruct (Rlt_dec 0 (pz q)) as [Hpos | Hneg]; [split; nra |].
    assert (pz q < 0) by lra. exfalso. nra.
Qed.

(** X15.  When z does not decrease from the selected point to its
    successor, the filament stored starts at the selected point, which has
    the largest radial distance of all crossing candidates and lies
    strictly below the midplane, and continues with its successor, on or
    above the midplane. *)
Theorem upward_crossing_start :
  forall (fil out : filament) (i : nat) (p q : point),
    find_start fil = Some i ->
    nth_error fil i = Some p -> nth_error fil (S i) = Some q ->
    pz p <= pz q ->
    canonicalize fil = Ok out ->
    nth_error out 0 = Some p /\ nth_error out 1 = Some q /\
    pz p < 0 /\ 0 <= pz q /\
    forall c, In c (crossing_candidates fil) ->
              radial_distance c <= radial_distance p.
Proof.
  intros fil out i p q Hs Hp Hq Hz Hc.
  destruct (canonicalize_not_reversed fil out i p q Hs Hp Hq Hz Hc)
    as (H0 & H1 & _ & Hmax).
  destruct (find_start_crossing _ _ Hs) as (p' & q' & Hp' & Hq' & Hcross).
  rewrite Hp in Hp'. rewrite Hq in Hq'. inversion Hp'; inversion Hq'; subst.
  destruct (crossing_signs _ _ Hcross Hz) as [Hn Hpz].
  auto.
Qed.

Lemma coil_east_start : find_start coil_east = Some 0%nat.
Proof.
  unfold find_start, coil_east. cbn [scan]. eval_scan.
  cbn [scan]. eval_scan. reflexivity.
Qed.

Lemma upward_crossing_start_witness :
  nth_error coil_east 0 = Some (10, 0, -1) /\
  nth_error coil_east 1 = Some (10, 0, 1) /\
  pz (10, 0, -1) < 0 /\ 0 <= pz (10, 0, 1) /\
  forall c, In c (crossing_candidates coil_east) ->
            radial_distance c <= radial_distance (10, 0, -1).
Proof.
  refine (upward_crossing_start coil_east coil_east 0 (10, 0, -1) (10, 0, 1)
            coil_east_start eq_refl eq_refl _ coil_east_canonicalize).
  cbn. lra.
Defined.

Lemma rev_head (l : filament) :
  nth_error (rev l) 0 = nth_error l (length l - 1).
Proof.
  rewrite nth_error_rev. destruct l as [| a l]; [reflexivity |].
  cbn [length]. reflexivity.
Qed.

Lemma rotation_last (fil : filament) (i : nat) :
  (i < length fil)%nat ->
  nth_error (skipn i fil ++ firstn i fil)
    (length (skipn i fil ++ firstn i fil) - 1)
  = nth_error fil (if (i =? 0)%nat then length fil - 1 else i - 1).
Proof.
  intros Hi. rewrite length_app, length_skipn, length_firstn.
  rewrite Nat.min_l by lia.
  destruct i as [| i].
  - cbn [Nat.eqb firstn skipn]. rewrite app_nil_r.
    replace (length fil - 0 + 0 - 1)%nat with (length fil - 1)%nat by lia.
    reflexivity.
  - cbn [Nat.eqb].
    rewrite nth_error_app2 by (rewrite length_skipn; lia).
    rewrite length_skipn.
    replace (length fil - S i + S i - 1 - (length fil - S i))%nat
      with i by lia.
    rewrite nth_error_firstn.
    replace (i <? S i)%nat with true by (symmetry; apply Nat.ltb_lt; lia).
    replace (S i - 1)%nat with i by lia. reflexivity.
Qed.

(** X16.  When z decreases from the selected point to its successor, the
    rotated filament is reversed as a whole, and the filament stored starts
    at the point that comes just before the selected one in the filament
    read (its last point when the selected one is the first). *)
Theorem reversed_start_is_predecessor :
  forall (fil out : filament) (i : nat) (p q : point),
    find_start fil = Some i ->
    nth_error fil i = Some p -> nth_error fil (S i) = Some q ->
    pz q < pz p ->
    canonicalize fil = Ok out ->
    nth_error out 0
    = nth_error fil (if (i =? 0)%nat then length fil - 1 else i - 1).
Proof.
  intros fil out i p q Hs Hp Hq Hz Hc.
  destruct (canonicalize_steps _ _ Hs)
    as (p' & q' & r & first & Hp' & Hq' & _ & Er & _ & Hlen & Hfirst & E).
  rewrite Hp in Hp'. rewrite Hq in Hq'. inversion Hp'; inversion Hq'; subst p' q'.
  rewrite (Rltb_true _ _ Hz) in Er.
  rewrite E in Hc.
  destruct (length (dedup fil []) + 1 =? length fil)%nat; [| discriminate].
  inversion Hc; subst out.
  rewrite nth_error_app1 by lia.
  rewrite dedup_head, Er, rev_head.
  apply rotation_last. apply nth_error_Some. congruence.
Qed.

Lemma reversed_start_is_predecessor_witness :
  nth_error downward_loop_out 0 = nth_error downward_loop 1.
Proof.
  refine (reversed_start_is_predecessor downward_loop downward_loop_out 2
            (10, 0, 1) (10, 0, -1) downward_loop_start eq_refl eq_refl _
            downward_loop_canonicalize).
  cbn. lra.
Defined.

(** ** How wide the window is *)

Lemma overlaps_ok (lo hi : R) (fil : filament) :
  fil <> [] ->
  exists mn mx,
    Np.min (phi_pts fil) = Ok mn /\ Np.max (phi_pts fil) = Ok mx /\
    mn <= mx /\
    overlaps lo hi fil
    = Ok ((Rleb lo mn || Rleb mn hi) || (Rleb lo mx || Rleb mx hi)).
Proof.
  intros Hne. unfold overlaps.
  destruct (Np.min (phi_pts fil)) as [mn |] eqn:Emin.
  2:{ destruct fil; [contradiction | discriminate]. }
  destruct (Np.max (phi_pts fil)) as [mx |] eqn:Emax.
  2:{ destruct fil; [contradiction | discriminate]. }
  exists mn, mx. repeat split.
  destruct (np_min_spec _ _ Emin) as [Hin _].
  destruct (np_max_spec _ _ Emax) as [_ Hall].
  eapply Forall_forall in Hall; [| exact Hin]. exact Hall.
Qed.

(** X17.  When the two ends of the window meet, that is when min_rad <=
    max_rad (the extent plus twice the tolerance reaches 2 pi), the filter
    keeps every filament, in the order of the file. *)
Theorem wide_window_keeps_all :
  forall (mag_len avg ext : R) (fils : list filament),
    2 * Np.pi - 2 * Np.arctan2 mag_len avg
    <= ext + 2 * Np.arctan2 mag_len avg ->
    Forall (fun fil => fil <> []) fils ->
    select (min_rad mag_len avg) (max_rad ext mag_len avg) fils
    = Ok (fils, map center_of_mass fils).
Proof.
  intros mag_len avg ext fils Hw Hall.
  change (min_rad mag_len avg <= max_rad ext mag_len avg) in Hw.
  induction Hall as [| fil rest Hfil Hrest IH]; [reflexivity |].
  cbn [select].
  destruct (overlaps_ok (min_rad mag_len avg) (max_rad ext mag_len avg)
              fil Hfil) as (mn & mx & _ & _ & _ & E).
  rewrite E, IH. cbn [rbind].
  assert (Hk : Rleb (min_rad mag_len avg) mn
               || Rleb mn (max_rad ext mag_len avg) = true).
  { destruct (Rle_dec (min_rad mag_len avg) mn) as [H | H].
    - rewrite (Rleb_true _ _ H). reflexivity.
    - rewrite (Rleb_true mn (max_rad ext mag_len avg)) by lra.
      apply orb_true_r. }
  rewrite Hk. reflexivity.
Qed.

Lemma wide_window_keeps_all_witness :
  select (min_rad 1 9) (max_rad (Np.deg2rad 360) 1 9) [coil_east; coil_south]
  = Ok ([coil_east; coil_south], map center_of_mass [coil_east; coil_south]).
Proof.
  apply (wide_window_keeps_all 1 9 (Np.deg2rad 360) [coil_east; coil_south]).
  - pose proof (arctan2_pos 1 9). rewrite deg2rad_360. lra.
  - repeat constructor; discriminate.
Defined.

(** X18.  Widening the toroidal extent never drops a filament: when the
    filter loop completes for one extent it completes for every larger
    one, and keeps there every filament it kept for the smaller. *)
Theorem larger_extent_keeps_more :
  forall (mag_len avg ext ext' : R) (fils reduced : list filament)
         (coms : list point),
    ext <= ext' ->
    select (min_rad mag_len avg) (max_rad ext mag_len avg) fils
    = Ok (reduced, coms) ->
    exists reduced' coms',
      select (min_rad mag_len avg) (max_rad ext' mag_len avg) fils
      = Ok (reduced', coms') /\
      incl reduced reduced'.
Proof.
  intros mag_len avg ext ext' fils reduced coms Hle.
  assert (Hhi : max_rad ext mag_len avg <= max_rad ext' mag_len avg)
    by (unfold max_rad; lra).
  revert reduced coms. induction fils as [| fil rest IH]; intros reduced coms.
  - cbn. intros H. inversion H. exists [], []. split; [reflexivity |].
    apply incl_refl.
  - cbn [select].
    destruct fil as [| p fil'] eqn:Efil; [discriminate |]. rewrite <- Efil.
    assert (Hne : fil <> []) by (rewrite Efil; discriminate).
    destruct (overlaps_ok (min_rad mag_len avg) (max_rad ext mag_len avg)
                fil Hne) as (mn & mx & Emn & Emx & _ & E).
    destruct (overlaps_ok (min_rad mag_len avg) (max_rad ext' mag_len avg)
                fil Hne) as (mn' & mx' & Emn' & Emx' & _ & E').
    rewrite Emn in Emn'. rewrite Emx in Emx'.
    inversion Emn'; inversion Emx'; subst mn' mx'.
    rewrite E, E'. cbn [rbind].
    destruct (select (min_rad mag_len avg) (max_rad ext mag_len avg) rest)
      as [[r c] |]; [| discriminate].
    destruct (IH r c eq_refl) as (r' & c' & Er' & Hincl).
    rewrite Er'. cbn [rbind].
    set (b := (Rleb (min_rad mag_len avg) mn
               || Rleb mn (max_rad ext mag_len avg))
              || (Rleb (min_rad mag_len avg) mx
                  || Rleb mx (max_rad ext mag_len avg))).
    set (b' := (Rleb (min_rad mag_len avg) mn
                || Rleb mn (max_rad ext' mag_len avg))
               || (Rleb (min_rad mag_len avg) mx
                   || Rleb mx (max_rad ext' mag_len avg))).
    assert (Hb : b = true -> b' = true).
    { subst b b'. rewrite !orb_true_iff, !Rleb_spec. intros H.
      destruct H as [[H | H] | [H | H]]; auto; [left | right]; right; lra. }
    intros H. destruct b.
    + rewrite (Hb eq_refl). inversion H; subst.
      eexists _, _. split; [reflexivity |].
      intros x [Hx | Hx]; [left; exact Hx | right; apply Hincl, Hx].
    + inversion H; subst. destruct b'.
      * eexists _, _. split; [reflexivity |].
        intros x Hx. right. apply Hincl, Hx.
      * eexists _, _. split; [reflexivity | exact Hincl].
Qed.

Lemma larger_extent_keeps_more_witness :
  exists reduced' coms',
    select (min_rad 1 9) (max_rad (Np.deg2rad 360) 1 9)
      [coil_east; coil_south]
    = Ok (reduced', coms') /\
    incl [coil_east] reduced'.
Proof.
  refine (larger_extent_keeps_more 1 9 (Np.deg2rad 90) (Np.deg2rad 360)
            [coil_east; coil_south] [coil_east] [center_of_mass coil_east]
            _ select_quarter).
  unfold Np.deg2rad. pose proof pi_pos. lra.
Defined.

Lemma select_none (lo hi : R) (fils : list filament) :
  Forall (fun fil => overlaps lo hi fil = Ok false) fils ->
  select lo hi fils = Ok ([], []).
Proof.
  intros H. induction H as [| fil rest Hfil Hrest IH]; [reflexivity |].
  cbn [select]. rewrite Hfil, IH. reflexivity.
Qed.

(** X19.  When the window keeps no filament, and in particular when there
    is none at all, [_set_filtered_filaments] does not store an empty
    sequence: it raises an IndexError, from indexing the empty array of
    centers of mass. *)
Theorem nothing_retained_raises :
  forall (mag_len avg ext : R) (fils : list filament),
    check_rows fils = Ok tt ->
    Forall (fun fil =>
              overlaps (min_rad mag_len avg) (max_rad ext mag_len avg) fil
              = Ok false) fils ->
    filter_filaments mag_len avg ext fils = Raise IndexError.
Proof.
  intros mag_len avg ext fils Hrows Hall. unfold filter_filaments.
  rewrite Hrows. cbn [rbind]. rewrite (select_none _ _ _ Hall). reflexivity.
Qed.

Lemma coil_south_rejected :
  overlaps (min_rad 1 9) (max_rad (Np.deg2rad 90) 1 9) coil_south = Ok false.
Proof.
  pose proof pi_pos as Hpi. pose proof tol_1_9 as Ht.
  assert (E90 : Np.deg2rad 90 = Np.pi / 2) by (unfold Np.deg2rad; field).
  unfold overlaps. rewrite phi_pts_south.
  cbn [Np.min Np.max fold_left]. rewrite !fold_min_same, !fold_max_same.
  cbn [rbind]. unfold min_rad, max_rad. rewrite E90.
  Rdecide. reflexivity.
Qed.

Lemma nothing_retained_raises_witness :
  filter_filaments 1 9 (Np.deg2rad 90) [coil_south] = Raise IndexError.
Proof.
  apply (nothing_retained_raises 1 9 (Np.deg2rad 90) [coil_south]).
  - reflexivity.
  - constructor; [exact coil_south_rejected | constructor].
Defined.

(** X20.  Normalizing an angle moves it by a whole number of turns into
    [0, 2 pi), and normalizing twice is normalizing once. *)
Theorem normalized_is_congruent :
  forall phi : R,
    0 <= normalized phi < 2 * Np.pi /\
    (exists k : Z, normalized phi = phi + IZR k * (2 * Np.pi)) /\
    normalized (normalized phi) = normalized phi.
Proof.
  intros phi. pose proof (normalized_range phi) as Hr.
  split; [exact Hr |]. split.
  - exists (1 - Int_part ((phi + 2 * Np.pi) / (2 * Np.pi)))%Z.
    unfold normalized, Np.mod_. rewrite minus_IZR. lra.
  - apply normalized_nonneg, Hr.
Qed.

(** ** Which crossing the scan selects *)

Lemma crossing_candidates_nth (pts : filament) :
  forall (k : nat) (a b : point),
    nth_error pts k = Some a -> nth_error pts (S k) = Some b ->
    z_ratio_negative a b = true ->
    In a (crossing_candidates pts).
Proof.
  induction pts as [| p pts IH]; intros k a b Ha Hb Hz.
  - destruct k; discriminate.
  - destruct pts as [| q pts']; [destruct k as [| [| k]]; discriminate |].
    rewrite crossing_candidates_cons. destruct k as [| k].
    + cbn in Ha, Hb. inversion Ha; inversion Hb; subst.
      rewrite Hz. left. reflexivity.
    + cbn [nth_error] in Ha, Hb. specialize (IH k a b Ha Hb Hz).
      destruct (z_ratio_negative p q); [right |]; exact IH.
Qed.

(** A crossing passed over by the scan has a radial distance strictly
    below that of the crossing recorded at the end. *)
Lemma scan_first (pts : filament) :
  forall (index : nat) (mi : option nat) (mr : option R)
         (i' : option nat) (r' : option R),
    scan pts index mi mr = (i', r') ->
    (i' = mi /\ r' = mr) \/
    exists i p,
      i' = Some i /\ (index <= i)%nat /\ r' = Some (radial_distance p) /\
      (forall r0, mr = Some r0 -> r0 < radial_distance p) /\
      (forall k a b,
          (k < i - index)%nat ->
          nth_error pts k = Some a -> nth_error pts (S k) = Some b ->
          z_ratio_negative a b = true ->
          radial_distance a < radial_distance p).
Proof.
  induction pts as [| p pts IH]; intros index mi mr i' r'.
  - cbn. intros H. inversion H. left. split; reflexivity.
  - destruct pts as [| q pts'].
    { cbn. intros H. inversion H. left. split; reflexivity. }
    rewrite scan_cons.
    destruct (z_ratio_negative p q) eqn:Ez.
    + assert (Hnew :
                 (forall r0, mr = Some r0 -> r0 < radial_distance p) ->
                 scan (q :: pts') (S index) (Some index)
                   (Some (radial_distance p)) = (i', r') ->
                 exists i p0,
                   i' = Some i /\ (index <= i)%nat /\
                   r' = Some (radial_distance p0) /\
                   (forall r0, mr = Some r0 -> r0 < radial_distance p0) /\
                   (forall k a b,
                       (k < i - index)%nat ->
                       nth_error (p :: q :: pts') k = Some a ->
                       nth_error (p :: q :: pts') (S k) = Some b ->
                       z_ratio_negative a b = true ->
                       radial_distance a < radial_distance p0)).
      { intros Hmr H.
        destruct (IH _ _ _ _ _ H)
          as [[Ha Hb] | (i & p0 & H1 & H2 & H3 & H4 & H5)].
        - exists index, p. repeat split; [exact Ha | lia | exact Hb | exact Hmr |].
          intros k a b Hk. lia.
        - exists i, p0. repeat split; [exact H1 | lia | exact H3 | |].
          + intros r0 E0. specialize (Hmr r0 E0).
            specialize (H4 _ eq_refl). lra.
          + intros k a b Hk Ha Hb Hz. destruct k as [| k].
            * cbn in Ha. inversion Ha; subst a. apply H4. reflexivity.
            * cbn [nth_error] in Ha, Hb.
              apply (H5 k a b); [lia | assumption ..]. }
      destruct mr as [r |].
      * destruct (Rltb r (radial_distance p)) eqn:Er; intros H.
        -- right. apply Hnew; [| exact H].
           intros r0 E0. inversion E0; subst r0.
           apply Rltb_spec in Er. exact Er.
        -- assert (Hle : radial_distance p <= r).
           { destruct (Rlt_dec r (radial_distance p)) as [Hlt | Hn]; [| lra].
             rewrite (Rltb_true _ _ Hlt) in Er. discriminate. }
           destruct (IH _ _ _ _ _ H)
             as [I | (i & p0 & H1 & H2 & H3 & H4 & H5)]; [left; exact I |].
           right. exists i, p0.
           repeat split; [exact H1 | lia | exact H3 | exact H4 |].
           intros k a b Hk Ha Hb Hz. destruct k as [| k].
           ++ cbn in Ha. inversion Ha; subst a.
              specialize (H4 _ eq_refl). lra.
           ++ cbn [nth_error] in Ha, Hb.
              apply (H5 k a b); [lia | assumption ..].
      * intros H. right. apply Hnew; [| exact H]. intros r0 E0. discriminate.
    + intros H.
      destruct (IH _ _ _ _ _ H)
        as [I | (i & p0 & H1 & H2 & H3 & H4 & H5)]; [left; exact I |].
      right. exists i, p0.
      repeat split; [exact H1 | lia | exact H3 | exact H4 |].
      intros k a b Hk Ha Hb Hz. destruct k as [| k].
      * cbn in Ha, Hb. inversion Ha; inversion Hb; subst.
        rewrite Ez in Hz. discriminate.
      * cbn [nth_error] in Ha, Hb.
        apply (H5 k a b); [lia | assumption ..].
Qed.

(** X21.  Among the sign changes of z the scan selects the first one of
    largest radial distance: every other crossing is no farther out, and
    every crossing before the selected one is strictly nearer the axis. *)
Theorem first_outboard_crossing_selected :
  forall (fil : filament) (i k : nat) (p a b : point),
    find_start fil = Some i -> nth_error fil i = Some p ->
    nth_error fil k = Some a -> nth_error fil (S k) = Some b ->
    z_ratio_negative a b = true ->
    radial_distance a <= radial_distance p /\
    ((k < i)%nat -> radial_distance a < radial_distance p).
Proof.
  intros fil i k p a b Hs Hp Ha Hb Hz. split.
  - apply (find_start_outboard fil i p Hs Hp).
    apply (crossing_candidates_nth fil k a b); assumption.
  - intros Hk. unfold find_start in Hs.
    destruct (scan fil 0 None None) as [i' r'] eqn:E. cbn in Hs. subst i'.
    destruct (scan_invariant _ _ _ _ _ _ E) as (_ & _ & I3).
    destruct I3 as [[I _] | (i0 & p0 & E0 & _ & Hn & Er)]; [discriminate |].
    inversion E0; subst i0. rewrite Nat.sub_0_r, Hp in Hn.
    inversion Hn; subst p0.
    destruct (scan_first _ _ _ _ _ _ E)
      as [[I _] | (i1 & p1 & E1 & _ & Er1 & _ & H5)]; [discriminate |].
    inversion E1; subst i1. rewrite Er in Er1. inversion Er1 as [Erd].
    rewrite Erd. apply (H5 k a b); [lia | assumption ..].
Qed.

Lemma first_outboard_crossing_selected_witness :
  radial_distance (8, 0, -1) <= radial_distance (10, 0, 1) /\
  ((0 < 2)%nat -> radial_distance (8, 0, -1) < radial_distance (10, 0, 1)).
Proof.
  apply (first_outboard_crossing_selected downward_loop 2 0
           (10, 0, 1) (8, 0, -1) (8, 0, 1)).
  - exact downward_loop_start.
  - reflexivity.
  - reflexivity.
  - reflexivity.
  - eval_scan. reflexivity.
Defined.

(** ** [build_magnet_coils] as a whole *)

(** X22.  The three steps with which [build_magnet_coils] prepares the
    filaments log one INFO record and leave the configuration as it was.
    When they complete, the filaments read from the file, their average
    radial distance and what the filter computes from them have all been
    stored; when one of them raises, [filtered_filaments] is as it was
    before the call. *)
Theorem build_magnet_coils_outcome :
  forall (file : list string) (self self' : MagnetSet) (r : result unit),
    build_magnet_coils file self = (self', r) ->
    _logger self' = _logger self ++ [(INFO, ConstructingMagnetCoils)] /\
    _cross_section self' = _cross_section self /\
    _toroidal_extent self' = _toroidal_extent self /\
    mag_len self' = mag_len self /\
    match r with
    | Ok _ =>
        exists (fils out : list filament) (len ext : R),
          read_filaments (scale self) (sample_mod self)
            (slice_from (start_line self) file) [] [] 0 = Ok fils /\
          mag_len self = Some (VNum len) /\
          _toroidal_extent self = Some ext /\
          filaments self' = Some fils /\
          average_radial_distance self'
          = Some (Np.average (map radial_distance (concat fils))) /\
          filter_filaments len
            (Np.average (map radial_distance (concat fils))) ext fils
          = Ok out /\
          filtered_filaments self' = Some out
    | Raise _ => filtered_filaments self' = filtered_filaments self
    end.
Proof.
  intros file self self' r.
  unfold build_magnet_coils, bind at 1 2, modify, _extract_filaments.
  change (start_line (emit INFO ConstructingMagnetCoils self))
    with (start_line self).
  change (scale (emit INFO ConstructingMagnetCoils self)) with (scale self).
  change (sample_mod (emit INFO ConstructingMagnetCoils self))
    with (sample_mod self).
  destruct (read_filaments (scale self) (sample_mod self)
              (slice_from (start_line self) file) [] [] 0)
    as [fils | e] eqn:Eread.
  2:{ intros H. inversion H; subst. repeat split. }
  unfold bind at 1, _set_average_radial_distance, bind at 1, attr at 1.
  cbn [filaments set_filaments].
  destruct (ndarray3 fils) eqn:End.
  2:{ unfold raise. intros H. inversion H; subst. repeat split. }
  unfold modify.
  set (avg := Np.average (map radial_distance (concat fils))).
  set (s := set_average_radial_distance avg
              (set_filaments fils (emit INFO ConstructingMagnetCoils self))).
  assert (Hlog : _logger s
                 = _logger self ++ [(INFO, ConstructingMagnetCoils)])
    by reflexivity.
  assert (Hcs : _cross_section s = _cross_section self) by reflexivity.
  assert (Hext : _toroidal_extent s = _toroidal_extent self) by reflexivity.
  assert (Hlen : mag_len s = mag_len self) by reflexivity.
  assert (Hfil : filaments s = Some fils) by reflexivity.
  assert (Havg : average_radial_distance s = Some avg) by reflexivity.
  assert (Hold : filtered_filaments s = filtered_filaments self)
    by reflexivity.
  clearbody s.
  unfold _set_filtered_filaments, bind, attr, lift, modify.
  rewrite Hlen.
  destruct (mag_len self) as [[name | len] |]; cbv beta iota.
  3: intros H; inversion H; subst; repeat split; assumption.
  1: rewrite Havg; cbn [number]; intros H; inversion H; subst;
     repeat split; assumption.
  rewrite Havg. cbn [number]. rewrite Hext.
  destruct (_toroidal_extent self) as [ext |]; cbv beta iota.
  2: intros H; inversion H; subst; repeat split; assumption.
  rewrite Hfil.
  destruct (filter_filaments len avg ext fils) as [out | e] eqn:Efilter;
    cbv beta iota.
  2: intros H; inversion H; subst; repeat split; assumption.
  intros H. inversion H; subst.
  repeat split; try assumption.
  exists fils, out, len, ext. repeat split; assumption.
Qed.

Lemma build_magnet_coils_outcome_witness :
  _logger (set_filtered_filaments [downward_loop_out] (loaded [downward_loop]))
  = _logger configured ++ [(INFO, ConstructingMagnetCoils)] /\
  _cross_section
    (set_filtered_filaments [downward_loop_out] (loaded [downward_loop]))
  = _cross_section configured /\
  _toroidal_extent
    (set_filtered_filaments [downward_loop_out] (loaded [downward_loop]))
  = _toroidal_extent configured /\
  mag_len (set_filtered_filaments [downward_loop_out] (loaded [downward_loop]))
  = mag_len configured /\
  exists (fils out : list filament) (len ext : R),
    read_filaments (scale configured) (sample_mod configured)
      (slice_from (start_line configured) downward_loop_file) [] [] 0
    = Ok fils /\
    mag_len configured = Some (VNum len) /\
    _toroidal_extent configured = Some ext /\
    filaments
      (set_filtered_filaments [downward_loop_out] (loaded [downward_loop]))
    = Some fils /\
    average_radial_distance
      (set_filtered_filaments [downward_loop_out] (loaded [downward_loop]))
    = Some (Np.average (map radial_distance (concat fils))) /\
    filter_filaments len
      (Np.average (map radial_distance (concat fils))) ext fils
    = Ok out /\
    filtered_filaments
      (set_filtered_filaments [downward_loop_out] (loaded [downward_loop]))
    = Some out.
Proof.
  exact (build_magnet_coils_outcome downward_loop_file configured
           (set_filtered_filaments [downward_loop_out]
              (loaded [downward_loop]))
           (Ok tt) downward_loop_built).
Defined.

(** X23.  When the file yields no filament (no line after the header, or
    none of zero current), [build_magnet_coils] stores the empty list of
    filaments and then raises an IndexError in
    [_set_average_radial_distance], with one INFO record logged and
    nothing filtered. *)
Theorem no_filament_raises :
  forall (file : list string) (self : MagnetSet),
    read_filaments (scale self) (sample_mod self)
      (slice_from (start_line self) file) [] [] 0 = Ok [] ->
    build_magnet_coils file self
    = (set_filaments [] (emit INFO ConstructingMagnetCoils self),
       Raise IndexError).
Proof.
  intros file self Hread.
  unfold build_magnet_coils, bind at 1 2, modify, _extract_filaments.
  change (start_line (emit INFO ConstructingMagnetCoils self))
    with (start_line self).
  change (scale (emit INFO ConstructingMagnetCoils self)) with (scale self).
  change (sample_mod (emit INFO ConstructingMagnetCoils self))
    with (sample_mod self).
  rewrite Hread. reflexivity.
Qed.

Lemma no_filament_raises_witness :
  build_magnet_coils header configured
  = (set_filaments [] (emit INFO ConstructingMagnetCoils configured),
     Raise IndexError).
Proof.
  apply (no_filament_raises header configured).
  destruct init_configured as (_ & _ & _ & Hmod & Hline & Hscale).
  rewrite Hline. reflexivity.
Defined.
